(** * Remote-control session subsystem of the school IT ticketing system

    A shallow embedding of [remote_desktop/session_manager.py],
    [remote_desktop/input_handler.py] and [remote_desktop/screen_capture.py],
    followed by the properties of the specification that concern them.

    Conventions of the embedding.
    - Python dictionaries are [gmap]s and Python sets are [gset]s.  A
      [RemoteSession] object lives in [sessions] under its own id; a method
      that mutates the object found by a lookup is an update of the map at
      that id.
    - The wall clock ([datetime.utcnow()]) is state of the environment: every
      call takes the clock value [now] it observes, in microseconds.  Where
      one call judges the validity of a session twice ([activate_session],
      and the join and the two remote pages of the application, which look
      the session up and then authenticate), the later reading is a second
      argument [again]; nothing is assumed about the two but what a
      statement says.
    - [uuid.uuid4()] and [secrets.token_urlsafe] are draws from the
      environment, passed to [create_session] as a [Fresh] record.
    - Python numbers: [int] is [Z]; [float] is IEEE binary64, written with the
      standard library's [spec_float] at precision 53.  The numeric arguments
      of the input handlers are integers, as pixel coordinates are.
    - [str.lower()] follows the Unicode tables of the interpreter: the code
      that calls it takes it as a parameter [lower], of which a statement
      assumes at most what it does on ASCII text ([Py.lowers_ascii]).
    - Exceptions are values ([Py.result]); every handler of the source catches
      [Exception], which the embedding writes out.
    - [pyautogui] is the trace of actions handed to it, together with an
      oracle [delivers] telling whether the operating system accepted one.
    - [logger] calls are kept where a property speaks about logging (the
      capture loop); informational logging elsewhere is left out.
    - Threads are not modelled: the capture loop is a function of the turns
      the environment offers, and the periodic sweep is a call like any
      other. *)

From Stdlib Require Import ZArith Lia Bool Ascii String.
From Stdlib Require Import Floats.SpecFloat.
From stdpp Require Import gmap strings list fin_maps.

Local Open Scope Z_scope.

(** ** RemoteSession *)

Inductive Status := pending | active | closed.

#[global] Instance Status_eq_dec : EqDecision Status.
Proof. solve_decision. Defined.

Module RemoteSession.

Record t := mk {
  session_id : string;
  ticket_id : Z;
  user_name : string;
  it_staff_name : string;
  created_at : Z;
  expires_at : Z;
  status : Status;
  user_token : string;
  it_token : string;
  connection_key : option string;
  user_connected : bool;
  it_connected : bool;
  last_activity : Z
}.

(** [timedelta(hours=2)], in microseconds. *)
Definition two_hours : Z := 2 * 3600 * 1000000.

(** What [uuid.uuid4()] and the two [_generate_token()] calls return. *)
Record Fresh := {
  uuid4 : string;
  user_secret : string;
  it_secret : string
}.

(** [__init__]. *)
Definition init (f : Fresh) (ticket : Z) (user staff : string) (now : Z) : t :=
  {| session_id := uuid4 f;
     ticket_id := ticket;
     user_name := user;
     it_staff_name := staff;
     created_at := now;
     expires_at := now + two_hours;
     status := pending;
     user_token := user_secret f;
     it_token := it_secret f;
     connection_key := None;
     user_connected := false;
     it_connected := false;
     last_activity := now |}.

Definition set_status (v : Status) (s : t) : t :=
  mk (session_id s) (ticket_id s) (user_name s) (it_staff_name s)
     (created_at s) (expires_at s) v (user_token s) (it_token s)
     (connection_key s) (user_connected s) (it_connected s) (last_activity s).

Definition set_user_connected (v : bool) (s : t) : t :=
  mk (session_id s) (ticket_id s) (user_name s) (it_staff_name s)
     (created_at s) (expires_at s) (status s) (user_token s) (it_token s)
     (connection_key s) v (it_connected s) (last_activity s).

Definition set_it_connected (v : bool) (s : t) : t :=
  mk (session_id s) (ticket_id s) (user_name s) (it_staff_name s)
     (created_at s) (expires_at s) (status s) (user_token s) (it_token s)
     (connection_key s) (user_connected s) v (last_activity s).

Definition set_last_activity (v : Z) (s : t) : t :=
  mk (session_id s) (ticket_id s) (user_name s) (it_staff_name s)
     (created_at s) (expires_at s) (status s) (user_token s) (it_token s)
     (connection_key s) (user_connected s) (it_connected s) v.

(** [datetime.utcnow() > self.expires_at]. *)
Definition is_expired (s : t) (now : Z) : bool := expires_at s <? now.

(** [not self.is_expired() and self.status != 'closed']. *)
Definition is_valid (s : t) (now : Z) : bool :=
  negb (is_expired s now) && negb (bool_decide (status s = closed)).

(** [activate]: the new object and the returned flag. *)
Definition activate (s : t) (now : Z) : t * bool :=
  if is_valid s now
  then (set_last_activity now (set_status active s), true)
  else (s, false).

Definition close (s : t) : t :=
  set_it_connected false (set_user_connected false (set_status closed s)).

Definition update_activity (s : t) (now : Z) : t := set_last_activity now s.

(** The dictionary made by [to_dict]: ten of the thirteen attributes.  The
    ISO text of a time is kept as the time. *)
Record Snapshot := {
  d_session_id : string;
  d_ticket_id : Z;
  d_user_name : string;
  d_it_staff_name : string;
  d_created_at : Z;
  d_expires_at : Z;
  d_status : Status;
  d_user_connected : bool;
  d_it_connected : bool;
  d_last_activity : Z
}.

Definition to_dict (s : t) : Snapshot :=
  {| d_session_id := session_id s;
     d_ticket_id := ticket_id s;
     d_user_name := user_name s;
     d_it_staff_name := it_staff_name s;
     d_created_at := created_at s;
     d_expires_at := expires_at s;
     d_status := status s;
     d_user_connected := user_connected s;
     d_it_connected := it_connected s;
     d_last_activity := last_activity s |}.

End RemoteSession.

(** ** SessionManager *)

Module SessionManager.

Import RemoteSession.

(** The two dictionaries.  The Fernet key and cipher of the source take no
    part in the session life cycle and are left out. *)
Record t := mk {
  sessions : gmap string RemoteSession.t;
  ticket_sessions : gmap Z string
}.

(** [__init__]: both dictionaries empty. *)
Definition init : t := mk ∅ ∅.

(** [close_session]: looks the id up with [dict.get], so closed and expired
    sessions are found too; drops whatever [ticket_sessions] holds for the
    session's ticket. *)
Definition close_session (m : t) (id : string) : t * bool :=
  match sessions m !! id with
  | Some s =>
      (mk (<[id := close s]> (sessions m))
          (delete (ticket_id s) (ticket_sessions m)), true)
  | None => (m, false)
  end.

Definition create_session (m : t) (ticket : Z) (user staff : string)
    (now : Z) (f : Fresh) : t * RemoteSession.t :=
  let m1 :=
    match ticket_sessions m !! ticket with
    | Some old_session_id => fst (close_session m old_session_id)
    | None => m
    end in
  let session := RemoteSession.init f ticket user staff now in
  (mk (<[session_id session := session]> (sessions m1))
      (<[ticket := session_id session]> (ticket_sessions m1)),
   session).

Definition get_session (m : t) (id : string) (now : Z) : option RemoteSession.t :=
  match sessions m !! id with
  | Some s => if is_valid s now then Some s else None
  | None => None
  end.

(** [if session_id:] is the truth value of a string: false when empty. *)
Definition get_session_by_ticket (m : t) (ticket : Z) (now : Z)
    : option RemoteSession.t :=
  match ticket_sessions m !! ticket with
  | Some id => if bool_decide (id = EmptyString) then None else get_session m id now
  | None => None
  end.

(** The session object found by [get_session] is the one stored under
    [id]; writing to it is writing to the dictionary entry. *)
Definition store (m : t) (id : string) (s : RemoteSession.t) : t :=
  mk (<[id := s]> (sessions m)) (ticket_sessions m).

Definition authenticate_user (m : t) (id token : string) (now : Z) : t * bool :=
  match get_session m id now with
  | Some s =>
      if bool_decide (user_token s = token)
      then (store m id (update_activity (set_user_connected true s) now), true)
      else (m, false)
  | None => (m, false)
  end.

Definition authenticate_it_staff (m : t) (id token : string) (now : Z) : t * bool :=
  match get_session m id now with
  | Some s =>
      if bool_decide (it_token s = token)
      then (store m id (update_activity (set_it_connected true s) now), true)
      else (m, false)
  | None => (m, false)
  end.

(** [get_session] reads the clock at [now]; [session.activate()] reads it
    again, at [again], for its own [is_valid] test.  The flag it returns is
    dropped by the source, which answers [True] either way. *)
Definition activate_session (m : t) (id : string) (now again : Z) : t * bool :=
  match get_session m id now with
  | Some s =>
      if user_connected s && it_connected s
      then (store m id (fst (activate s again)), true)
      else (m, false)
  | None => (m, false)
  end.

Definition demote (s : RemoteSession.t) : RemoteSession.t :=
  if bool_decide (status s = active) then set_status pending s else s.

Definition disconnect_user (m : t) (id : string) (now : Z) : t :=
  match get_session m id now with
  | Some s => store m id (demote (set_user_connected false s))
  | None => m
  end.

Definition disconnect_it_staff (m : t) (id : string) (now : Z) : t :=
  match get_session m id now with
  | Some s => store m id (demote (set_it_connected false s))
  | None => m
  end.

Definition update_session_activity (m : t) (id : string) (now : Z) : t :=
  match get_session m id now with
  | Some s => store m id (update_activity s now)
  | None => m
  end.

(** The first loop of [cleanup_expired_sessions]: the ids of the expired
    entries. *)
Definition expired_sessions (m : t) (now : Z) : list string :=
  (filter (λ kv, is_expired kv.2 now = true) (map_to_list (sessions m))).*1.

(** One round of the second loop: [close_session] then [del]. *)
Definition reap (m : t) (id : string) : t :=
  let m1 := fst (close_session m id) in
  mk (delete id (sessions m1)) (ticket_sessions m1).

Definition cleanup_expired_sessions (m : t) (now : Z) : t :=
  foldl reap m (expired_sessions m now).

(** [self.sessions.values()], in the order of the dictionary. *)
Definition stored (m : t) : list RemoteSession.t := (map_to_list (sessions m)).*2.

(** [get_active_sessions]: the test is on the status alone. *)
Definition get_active_sessions (m : t) : list RemoteSession.t :=
  filter (λ s, status s = active) (stored m).

(** The dictionary made by [get_session_stats]. *)
Record Stats := {
  total_sessions : nat;
  active_sessions : nat;
  pending_sessions : nat;
  closed_sessions : nat
}.

Definition get_session_stats (m : t) : Stats :=
  {| total_sessions := size (sessions m);
     active_sessions := length (filter (λ s, status s = active) (stored m));
     pending_sessions := length (filter (λ s, status s = pending) (stored m));
     closed_sessions := length (filter (λ s, status s = closed) (stored m)) |}.

End SessionManager.

(** ** Python numbers *)

Module Py.

(** The exceptions met in the modelled code; [ExternalError] stands for
    whatever an outside library ([pyautogui], PIL, OpenCV) raises. *)
Inductive exn := ZeroDivisionError | OverflowError | ValueError | ExternalError.

Inductive result (A : Type) :=
| Ok (a : A)
| Raise (e : exn).
Arguments Ok {A} a.
Arguments Raise {A} e.

(** Sequencing: the first exception ends the computation. *)
#[global] Instance result_bind : MBind result := λ A B k r,
  match r with
  | Ok a => k a
  | Raise e => Raise e
  end.

(** binary64. *)
Definition prec : Z := 53.
Definition emax : Z := 1024.
Definition float := spec_float.

(** An [int] turned into a [float], as the mixed operators do: nearest,
    ties to even; [OverflowError] beyond the range. *)
Definition float_of_int (n : Z) : result float :=
  match binary_normalize prec emax n 0 false with
  | S754_infinity _ => Raise OverflowError
  | f => Ok f
  end.

(** [a / b] on two [int]s: the quotient of the integers, rounded once. *)
Definition int_truediv (a b : Z) : result float :=
  match b, a with
  | 0, _ => Raise ZeroDivisionError
  | _, 0 => Ok (S754_zero (b <? 0))
  | _, _ =>
      match SFdiv prec emax
              (S754_finite (a <? 0) (Z.to_pos (Z.abs a)) 0)
              (S754_finite (b <? 0) (Z.to_pos (Z.abs b)) 0) with
      | S754_infinity _ => Raise OverflowError
      | f => Ok f
      end
  end.

(** [f * n] with [f] a [float] and [n] an [int]. *)
Definition float_mul_int (f : float) (n : Z) : result float :=
  g ← float_of_int n; Ok (SFmul prec emax f g).

(** [f / n] with [f] a [float] and [n] an [int]. *)
Definition float_div_int (f : float) (n : Z) : result float :=
  g ← float_of_int n;
  if n =? 0 then Raise ZeroDivisionError else Ok (SFdiv prec emax f g).

(** The literal [1.0]. *)
Definition one : float := S754_finite false 4503599627370496 (-52).

(** [int(f)]: towards zero; infinities and NaN raise. *)
Definition int_of_float (f : float) : result Z :=
  match f with
  | S754_zero _ => Ok 0
  | S754_finite s m e =>
      let a := match e with
               | Zneg p => Z.shiftr (Zpos m) (Zpos p)
               | _ => Z.shiftl (Zpos m) e
               end in
      Ok (if s then - a else a)
  | S754_infinity _ => Raise OverflowError
  | S754_nan => Raise ValueError
  end.

(** [str.lower()] is Python's own and follows the Unicode tables, which are
    no part of this repository: the code that calls it takes it as a
    parameter [lower : string → string].  What the tables fix for text of
    ASCII characters is written out here: the letters [A] to [Z] go to [a] to
    [z] and every other ASCII character stays. *)
Definition ascii_lower (c : ascii) : ascii :=
  let n := nat_of_ascii c in
  if (Nat.leb 65 n && Nat.leb n 90)%bool then ascii_of_nat (n + 32) else c.

Fixpoint lower_ascii (s : string) : string :=
  match s with
  | EmptyString => EmptyString
  | String c r => String (ascii_lower c) (lower_ascii r)
  end.

(** Every character of the text is an ASCII character. *)
Fixpoint is_ascii (s : string) : bool :=
  match s with
  | EmptyString => true
  | String c r => Nat.ltb (nat_of_ascii c) 128 && is_ascii r
  end.

(** No character of the text is one of the letters [A] to [Z]. *)
Fixpoint no_upper (s : string) : bool :=
  match s with
  | EmptyString => true
  | String c r =>
      negb (Nat.leb 65 (nat_of_ascii c) && Nat.leb (nat_of_ascii c) 90)
      && no_upper r
  end.

(** [lower] does on ASCII text what [str.lower()] does there. *)
Definition lowers_ascii (lower : string → string) : Prop :=
  ∀ s, is_ascii s = true → lower s = lower_ascii s.

End Py.

(** ** InputHandler *)

Module InputHandler.

Import Py.

(** The calls made on [pyautogui]. *)
Inductive InputAction :=
| MoveTo (x y : Z)
| Click (x y : Z) (button : string)
| DoubleClick (x y : Z) (button : string)
| MouseDown (x y : Z) (button : string)
| MouseUp (x y : Z) (button : string)
| Scroll (clicks x y : Z)
| Press (key : string)
| KeyDown (key : string)
| KeyUp (key : string)
| Hotkey (keys : list string)
| Write (text : string).

Record t := mk {
  authorized_sessions : gset string;
  screen_width : Z;
  screen_height : Z
}.

Definition authorize_session (h : t) (id : string) : t :=
  mk ({[id]} ∪ authorized_sessions h) (screen_width h) (screen_height h).

Definition revoke_session (h : t) (id : string) : t :=
  mk (authorized_sessions h ∖ {[id]}) (screen_width h) (screen_height h).

Definition is_authorized (h : t) (id : string) : bool :=
  bool_decide (id ∈ authorized_sessions h).

(** [int((v / source) * local)]. *)
Definition scale (v source local : Z) : result Z :=
  q ← int_truediv v source;
  p ← float_mul_int q local;
  int_of_float p.

(** [max(0, min(a, local - 1))]. *)
Definition clamp (a local : Z) : Z := Z.max 0 (Z.min a (local - 1)).

Definition key_mapping : list (string * string) :=
  [("Enter", "enter"); ("Backspace", "backspace"); ("Delete", "delete");
   ("Tab", "tab"); ("Escape", "esc"); ("Space", "space");
   ("ArrowUp", "up"); ("ArrowDown", "down"); ("ArrowLeft", "left");
   ("ArrowRight", "right"); ("Home", "home"); ("End", "end");
   ("PageUp", "pageup"); ("PageDown", "pagedown"); ("Insert", "insert");
   ("F1", "f1"); ("F2", "f2"); ("F3", "f3"); ("F4", "f4");
   ("F5", "f5"); ("F6", "f6"); ("F7", "f7"); ("F8", "f8");
   ("F9", "f9"); ("F10", "f10"); ("F11", "f11"); ("F12", "f12")]%string.

Fixpoint assoc (k : string) (l : list (string * string)) : option string :=
  match l with
  | [] => None
  | (k', v) :: r => if bool_decide (k' = k) then Some v else assoc k r
  end.

Section Backend.

(** [str.lower]. *)
Variable lower : string → string.

(** Whether the operating system takes the action; when it does not,
    the [pyautogui] call raises. *)
Variable delivers : InputAction → bool.

(** [key_mapping.get(key, key.lower())]. *)
Definition actual_key (key : string) : string :=
  default (lower key) (assoc key key_mapping).

(** One step of the loop of [handle_key_combination]. *)
Definition convert_key (key : string) : string :=
  let k := lower key in
  if bool_decide (k = "ctrl"%string) then "ctrl"%string
  else if bool_decide (k = "alt"%string) then "alt"%string
  else if bool_decide (k = "shift"%string) then "shift"%string
  else if bool_decide (k = "win"%string) || bool_decide (k = "cmd"%string)
       then "win"%string
  else k.

Definition dispatch (a : InputAction) : result (list InputAction) :=
  if delivers a then Ok [a] else Raise ExternalError.

(** [try: ... return True / except Exception: ... return False]. *)
Definition attempt (r : result (list InputAction)) : bool * list InputAction :=
  match r with
  | Ok acts => (true, acts)
  | Raise _ => (false, [])
  end.

(** The early [return False] of every handler. *)
Definition rejected : bool * list InputAction := (false, []).

Definition mouse_move_body (h : t) (x y sw sh : Z) : result (list InputAction) :=
  ax ← scale x sw (screen_width h);
  ay ← scale y sh (screen_height h);
  dispatch (MoveTo (clamp ax (screen_width h)) (clamp ay (screen_height h))).

Definition handle_mouse_move (h : t) (id : string) (x y sw sh : Z)
    : bool * list InputAction :=
  if negb (is_authorized h id) then rejected
  else attempt (mouse_move_body h x y sw sh).

Definition mouse_click_body (h : t) (x y sw sh : Z) (button click_type : string)
    : result (list InputAction) :=
  ax ← scale x sw (screen_width h);
  ay ← scale y sh (screen_height h);
  let cx := clamp ax (screen_width h) in
  let cy := clamp ay (screen_height h) in
  if bool_decide (click_type = "single"%string) then dispatch (Click cx cy button)
  else if bool_decide (click_type = "double"%string) then dispatch (DoubleClick cx cy button)
  else if bool_decide (click_type = "down"%string) then dispatch (MouseDown cx cy button)
  else if bool_decide (click_type = "up"%string) then dispatch (MouseUp cx cy button)
  else Ok [].

Definition handle_mouse_click (h : t) (id : string) (x y sw sh : Z)
    (button click_type : string) : bool * list InputAction :=
  if negb (is_authorized h id) then rejected
  else attempt (mouse_click_body h x y sw sh button click_type).

Definition mouse_scroll_body (h : t) (x y sw sh delta : Z)
    : result (list InputAction) :=
  ax ← scale x sw (screen_width h);
  ay ← scale y sh (screen_height h);
  dispatch (Scroll delta ax ay).

Definition handle_mouse_scroll (h : t) (id : string) (x y sw sh delta : Z)
    : bool * list InputAction :=
  if negb (is_authorized h id) then rejected
  else attempt (mouse_scroll_body h x y sw sh delta).

Definition key_press_body (key action : string) : result (list InputAction) :=
  let k := actual_key key in
  if bool_decide (action = "press"%string) then dispatch (Press k)
  else if bool_decide (action = "down"%string) then dispatch (KeyDown k)
  else if bool_decide (action = "up"%string) then dispatch (KeyUp k)
  else Ok [].

Definition handle_key_press (h : t) (id : string) (key action : string)
    : bool * list InputAction :=
  if negb (is_authorized h id) then rejected
  else attempt (key_press_body key action).

Definition key_combination_body (keys : list string) : result (list InputAction) :=
  dispatch (Hotkey (map convert_key keys)).

Definition handle_key_combination (h : t) (id : string) (keys : list string)
    : bool * list InputAction :=
  if negb (is_authorized h id) then rejected
  else attempt (key_combination_body keys).

Definition text_input_body (text : string) : result (list InputAction) :=
  dispatch (Write text).

Definition handle_text_input (h : t) (id : string) (text : string)
    : bool * list InputAction :=
  if negb (is_authorized h id) then rejected
  else attempt (text_input_body text).

End Backend.

(** [get_mouse_position]: [pointer] is what [pyautogui.position()] gives or
    raises. *)
Definition get_mouse_position (pointer : result (Z * Z)) : Z * Z :=
  match pointer with
  | Ok p => p
  | Raise _ => (0, 0)
  end.

(** The dictionary made by [get_stats]. *)
Record Stats := {
  screen_size : Z * Z;
  authorized_count : nat;
  mouse_position : Z * Z
}.

Definition get_stats (h : t) (pointer : result (Z * Z)) : Stats :=
  {| screen_size := (screen_width h, screen_height h);
     authorized_count := size (authorized_sessions h);
     mouse_position := get_mouse_position pointer |}.

End InputHandler.

(** ** ScreenCapture *)

Module ScreenCapture.

Import Py.

(** The dictionary stored in [frame_data]. *)
Record Frame := {
  image : string;
  width : Z;
  height : Z;
  timestamp : float
}.

Inductive LogRecord :=
| LogError (e : exn).

(** [capture_thread] records whether a thread object has been made. *)
Record t := mk {
  quality : Z;
  fps : Z;
  running : bool;
  frame_data : option Frame;
  clients : gset string;
  capture_thread : bool
}.

(** [ScreenCapture(quality, fps)]; the defaults are 70 and 15. *)
Definition init (q f : Z) : t := mk q f false None ∅ false.

Definition set_running (b : bool) (c : t) : t :=
  mk (quality c) (fps c) b (frame_data c) (clients c) (capture_thread c).

Definition set_frame_data (d : option Frame) (c : t) : t :=
  mk (quality c) (fps c) (running c) d (clients c) (capture_thread c).

Definition set_clients (s : gset string) (c : t) : t :=
  mk (quality c) (fps c) (running c) (frame_data c) s (capture_thread c).

Definition start_capture (c : t) : t :=
  if running c then c
  else mk (quality c) (fps c) true (frame_data c) (clients c) true.

(** [join] waits for the loop to leave; it changes no field. *)
Definition stop_capture (c : t) : t := set_running false c.

(** A stored frame is a dictionary of four keys, hence true. *)
Definition get_frame (c : t) : option Frame := frame_data c.

Definition add_client (c : t) (id : string) : t :=
  let c1 := set_clients ({[id]} ∪ clients c) c in
  if negb (running c1) then start_capture c1 else c1.

Definition remove_client (c : t) (id : string) : t :=
  let c1 := set_clients (clients c ∖ {[id]}) c in
  if bool_decide (clients c1 = ∅) && running c1 then stop_capture c1 else c1.

(** What one turn of the loop gets from outside: the size of the grabbed
    and converted screen image (or the exception of [ImageGrab.grab],
    [np.array], [cv2.cvtColor]); the text produced by [cv2.resize],
    [cv2.imencode] and [base64.b64encode] (or their exception); and the
    value of [time.time()] when the frame is stored. *)
Record Cycle := {
  grabbed : result (Z * Z);
  encoded : result string;
  clock : float
}.

(** The size the frame is brought to: wider than 1920, it is scaled by
    [1920 / width]. *)
Definition target_size (w h : Z) : result (Z * Z) :=
  if 1920 <? w then
    scale ← int_truediv 1920 w;
    new_width ← float_mul_int scale w ≫= int_of_float;
    new_height ← float_mul_int scale h ≫= int_of_float;
    Ok (new_width, new_height)
  else Ok (w, h).

(** The body of the [try]. *)
Definition capture (o : Cycle) : result Frame :=
  '(w, h) ← grabbed o;
  '(fw, fh) ← target_size w h;
  img ← encoded o;
  Ok {| image := img; width := fw; height := fh; timestamp := clock o |}.

(** One turn: [try] the capture, store on success, log on failure.  The
    pacing sleep after it changes nothing. *)
Definition capture_cycle (c : t) (o : Cycle) : t * list LogRecord :=
  match capture o with
  | Ok fr => (set_frame_data (Some fr) c, [])
  | Raise e => (c, [LogError e])
  end.

(** [frame_time = 1.0 / self.fps], computed before the loop and outside any
    [try]. *)
Definition frame_time (c : t) : result float := float_div_int one (fps c).

(** The [while self.running] loop over the turns the environment offers:
    each turn starts with the test of [running]. *)
Fixpoint turns (c : t) (os : list Cycle) : t * list LogRecord :=
  match os with
  | [] => (c, [])
  | o :: os' =>
      if running c then
        let '(c1, l1) := capture_cycle c o in
        let '(c2, l2) := turns c1 os' in
        (c2, l1 ++ l2)
      else (c, [])
  end.

(** [_capture_loop], the body of the thread: when [frame_time] raises, the
    thread ends before its first turn. *)
Definition _capture_loop (c : t) (os : list Cycle) : result (t * list LogRecord) :=
  _ ← frame_time c; Ok (turns c os).

(** The thread started by [start_capture] takes turns. *)
Definition loop_alive (c : t) : bool :=
  running c && match frame_time c with Ok _ => true | Raise _ => false end.

(** The dictionary made by [get_stats]. *)
Record Stats := {
  stat_running : bool;
  stat_clients : nat;
  stat_fps : Z;
  stat_quality : Z
}.

Definition get_stats (c : t) : Stats :=
  {| stat_running := running c;
     stat_clients := size (clients c);
     stat_fps := fps c;
     stat_quality := quality c |}.

(** The frame of the last turn of [os] whose capture went through. *)
Definition last_captured (os : list Cycle) : option Frame :=
  foldl (λ acc o, match capture o with Ok fr => Some fr | Raise _ => acc end)
        None os.

(** The capture of the turn raises. *)
Definition failed (o : Cycle) : bool :=
  match capture o with Ok _ => false | Raise _ => true end.

(** The number of turns of [os] whose capture raised. *)
Definition failures (os : list Cycle) : nat :=
  length (filter (λ o, failed o = true) os).

(** The widest grabbed screen the resized width is checked for. *)
Definition widest : Z := 4096.

(** The test on a grabbed screen [w] wide: the frame is brought to a width
    of 1919 or 1920. *)
Definition resized_width_ok (w : Z) : bool :=
  match target_size w 1 with
  | Ok (new_width, _) => (1919 <=? new_width) && (new_width <=? 1920)
  | Raise _ => false
  end.

End ScreenCapture.

(** ** Sequences of registry calls *)

Module Registry.

Import RemoteSession SessionManager.

(** The calls a client of the registry can make, with their arguments.  An
    activation reads the clock a second time, inside [session.activate()]:
    [again] is the value it gets there. *)
Inductive Call :=
| CreateSession (ticket : Z) (user staff : string) (f : Fresh)
| AuthenticateUser (id token : string)
| AuthenticateItStaff (id token : string)
| ActivateSession (id : string) (again : Z)
| DisconnectUser (id : string)
| DisconnectItStaff (id : string)
| UpdateSessionActivity (id : string)
| CloseSession (id : string)
| CleanupExpiredSessions.

(** The registry after one call made at clock value [now]. *)
Definition call (m : SessionManager.t) (c : Call) (now : Z) : SessionManager.t :=
  match c with
  | CreateSession ticket user staff f => (create_session m ticket user staff now f).1
  | AuthenticateUser id token => (authenticate_user m id token now).1
  | AuthenticateItStaff id token => (authenticate_it_staff m id token now).1
  | ActivateSession id again => (activate_session m id now again).1
  | DisconnectUser id => disconnect_user m id now
  | DisconnectItStaff id => disconnect_it_staff m id now
  | UpdateSessionActivity id => update_session_activity m id now
  | CloseSession id => (close_session m id).1
  | CleanupExpiredSessions => cleanup_expired_sessions m now
  end.

(** A history: calls with the clock value each one observed first. *)
Definition run (m : SessionManager.t) (cs : list (Call * Z)) : SessionManager.t :=
  foldl (λ m cn, call m cn.1 cn.2) m cs.

(** [s] is stored under [id] and is neither closed nor expired at [now]. *)
Definition live (m : SessionManager.t) (id : string) (now : Z)
    (s : RemoteSession.t) : Prop :=
  sessions m !! id = Some s ∧ is_valid s now = true.

(** The two dictionaries agree: the ticket of every live session points
    back at that session. *)
Definition maps_consistent (m : SessionManager.t) (now : Z) : Prop :=
  ∀ id s, live m id now s → ticket_sessions m !! ticket_id s = Some id.

(** The id a call stores a new session under, if it is a creation. *)
Definition creates (c : Call) : option string :=
  match c with
  | CreateSession _ _ _ f => Some (uuid4 f)
  | _ => None
  end.

(** What a call never touches in a session: everything but the status, the
    two connected flags and the time of the last activity. *)
Definition same_identity (s s' : RemoteSession.t) : Prop :=
  session_id s' = session_id s
  ∧ ticket_id s' = ticket_id s
  ∧ user_name s' = user_name s
  ∧ it_staff_name s' = it_staff_name s
  ∧ created_at s' = created_at s
  ∧ expires_at s' = expires_at s
  ∧ user_token s' = user_token s
  ∧ it_token s' = it_token s
  ∧ connection_key s' = connection_key s.

(** Every creation of the history draws an id that is not stored at that
    moment, as [uuid.uuid4()] does. *)
Fixpoint fresh_history (m : SessionManager.t) (cs : list (Call * Z)) : Prop :=
  match cs with
  | [] => True
  | (c, now) :: cs' =>
      (∀ id, creates c = Some id → sessions m !! id = None)
      ∧ fresh_history (call m c now) cs'
  end.

(** Every entry of the ticket dictionary names a stored session of that
    ticket that is not closed. *)
Definition ticket_map_sound (m : SessionManager.t) : Prop :=
  ∀ ticket id,
    ticket_sessions m !! ticket = Some id →
    ∃ s, sessions m !! id = Some s ∧ ticket_id s = ticket ∧ status s ≠ closed.

(** What holds of a session however it has been used: it lasts two hours,
    no connection key is ever set, an active session has both parties
    connected and a closed one has none. *)
Definition coherent (s : RemoteSession.t) : Prop :=
  expires_at s = created_at s + two_hours
  ∧ connection_key s = None
  ∧ (status s = active → user_connected s = true ∧ it_connected s = true)
  ∧ (status s = closed → user_connected s = false ∧ it_connected s = false).

End Registry.

(** ** Sequences of calls on the capture service *)

Module Viewers.

Import ScreenCapture.

(** What happens to a [ScreenCapture]: a reader arrives, a reader leaves, or
    the loop takes one turn. *)
Inductive Event :=
| AddClient (id : string)
| RemoveClient (id : string)
| Turn (o : Cycle).

(** The loop takes a turn only while its thread is alive. *)
Definition step (c : ScreenCapture.t) (e : Event) : ScreenCapture.t :=
  match e with
  | AddClient id => add_client c id
  | RemoveClient id => remove_client c id
  | Turn o => if loop_alive c then (capture_cycle c o).1 else c
  end.

Definition play (c : ScreenCapture.t) (es : list Event) : ScreenCapture.t :=
  foldl step c es.

(** The event is a turn whose capture went through. *)
Definition completed (e : Event) : bool :=
  match e with
  | Turn o => match capture o with Py.Ok _ => true | Py.Raise _ => false end
  | _ => false
  end.

(** The loop runs exactly when somebody reads. *)
Definition counted (c : ScreenCapture.t) : Prop :=
  running c = true ↔ clients c ≠ ∅.

End Viewers.

(** ** Vocabulary of the coordinate properties *)

Module Remap.

Import Py InputHandler.

(** Following the words of the specification: the integer nearest to
    [v / source * local], on exact fractions (ties upwards). *)
Definition spec_rounded (v source local : Z) : Z :=
  (2 * (v * local) + source) `div` (2 * source).

(** The arguments of the six handlers besides the connection id, for a
    statement about all of them at once. *)
Record InputEvent := {
  ev_x : Z; ev_y : Z; ev_width : Z; ev_height : Z;
  ev_button : string; ev_click_type : string; ev_delta : Z;
  ev_key : string; ev_action : string;
  ev_keys : list string; ev_text : string
}.

(** Where on the screen a pointer action takes place. *)
Definition position (a : InputAction) : option (Z * Z) :=
  match a with
  | MoveTo x y | Click x y _ | DoubleClick x y _
  | MouseDown x y _ | MouseUp x y _ | Scroll _ x y => Some (x, y)
  | _ => None
  end.

(** The point lies on the screen of [h]. *)
Definition on_screen (h : InputHandler.t) (p : Z * Z) : Prop :=
  0 ≤ p.1 ≤ screen_width h - 1 ∧ 0 ≤ p.2 ≤ screen_height h - 1.

(** A binary64 number that is a zero or finite, by its sign, mantissa and
    exponent: what rounding a non-negative mantissa gives short of an
    overflow. *)
Definition repr (s : bool) (m e : Z) : float :=
  match m with
  | Z0 => S754_zero s
  | Zpos p => S754_finite s p e
  | Zneg _ => S754_nan
  end.

End Remap.

(** ** The callers: socket handlers and routes of app_with_remote.py *)

Module Ticket.

(** The columns of a ticket that the remote-desktop routes read or write;
    the primary key is the key of the table. *)
Record t := mk {
  user_name : string;
  remote_access_requested : bool;
  remote_session_id : option string;
  remote_session_status : string
}.

End Ticket.

Module Server.

Import Py RemoteSession.

(** The table of tickets and the three module-level instances. *)
Record t := mk {
  tickets : gmap Z Ticket.t;
  manager : SessionManager.t;
  inputs : InputHandler.t;
  capture : ScreenCapture.t
}.

(** The state at import, on a screen of [w] by [h], with the table of
    tickets as the database holds it. *)
Definition init (table : gmap Z Ticket.t) (w h : Z) : t :=
  mk table SessionManager.init (InputHandler.mk ∅ w h) (ScreenCapture.init 70 15).

Definition set_manager (m : SessionManager.t) (srv : t) : t :=
  mk (tickets srv) m (inputs srv) (capture srv).

(** What a socket handler sends out or hands to the operating system;
    [sid] is [request.sid], the connection the reply goes to. *)
Inductive Out :=
| JoinRoom (sid room : string)
| EmitError (sid message : string)
| EmitSessionJoined (sid type : string) (session : Snapshot)
| EmitUserConnected (room session_id : string)
| EmitItStaffConnected (room session_id : string)
| EmitScreenFrame (sid : string) (frame : ScreenCapture.Frame)
| Dispatch (a : InputHandler.InputAction).

(** [f'session_{session_id}']. *)
Definition room_of (session_id : string) : string :=
  ("session_" ++ session_id)%string.

(** The object a handler got from [get_session] is the one stored under the
    id: read after a call on the registry, it shows what the call wrote. *)
Definition current (m : SessionManager.t) (session_id : string)
    (remote_session : RemoteSession.t) : RemoteSession.t :=
  default remote_session (SessionManager.sessions m !! session_id).

(** The handler looks the session up at clock value [now]; the
    authentication that follows looks it up again, at [again]. *)
Definition handle_join_session (srv : t) (sid session_id token type : string)
    (now again : Z) : t * list Out :=
  match SessionManager.get_session (manager srv) session_id now with
  | None => (srv, [EmitError sid "Session not found"])
  | Some remote_session =>
      let room := room_of session_id in
      let failed := EmitError sid "Authentication failed" in
      if bool_decide (type = "user"%string) then
        let '(m1, ok) :=
          SessionManager.authenticate_user (manager srv) session_id token again in
        if ok then
          (set_manager m1 srv,
           [JoinRoom sid room;
            EmitSessionJoined sid "user" (to_dict (current m1 session_id remote_session));
            EmitUserConnected room session_id])
        else (set_manager m1 srv, [failed])
      else if bool_decide (type = "it_staff"%string) then
        let '(m1, ok) :=
          SessionManager.authenticate_it_staff (manager srv) session_id token again in
        if ok then
          (mk (tickets srv) m1
              (InputHandler.authorize_session (inputs srv) sid)
              (ScreenCapture.add_client (capture srv) sid),
           [JoinRoom sid room;
            EmitSessionJoined sid "it_staff"
              (to_dict (current m1 session_id remote_session));
            EmitItStaffConnected room session_id])
        else (set_manager m1 srv, [failed])
      else (srv, [failed])
  end.

Definition handle_disconnect (srv : t) (sid : string) : t * list Out :=
  (mk (tickets srv) (manager srv)
      (InputHandler.revoke_session (inputs srv) sid)
      (ScreenCapture.remove_client (capture srv) sid),
   []).

Definition handle_request_screen_frame (srv : t) (sid : string) : t * list Out :=
  (srv,
   match ScreenCapture.get_frame (capture srv) with
   | Some frame_data => [EmitScreenFrame sid frame_data]
   | None => []
   end).

(** The end of every input event: [if success:
    session_manager.update_session_activity(session_id)]. *)
Definition after_input (srv : t) (session_id : string) (now : Z)
    (r : bool * list InputHandler.InputAction) : t * list Out :=
  (if r.1
   then set_manager
          (SessionManager.update_session_activity (manager srv) session_id now) srv
   else srv,
   Dispatch <$> r.2).

Section Backend.

Variable lower : string → string.
Variable delivers : InputHandler.InputAction → bool.

Definition handle_mouse_move (srv : t) (sid session_id : string)
    (x y screen_width screen_height : Z) (now : Z) : t * list Out :=
  after_input srv session_id now
    (InputHandler.handle_mouse_move delivers (inputs srv) sid
       x y screen_width screen_height).

Definition handle_mouse_click (srv : t) (sid session_id : string)
    (x y screen_width screen_height : Z) (button click_type : string) (now : Z)
    : t * list Out :=
  after_input srv session_id now
    (InputHandler.handle_mouse_click delivers (inputs srv) sid
       x y screen_width screen_height button click_type).

Definition handle_mouse_scroll (srv : t) (sid session_id : string)
    (x y screen_width screen_height delta : Z) (now : Z) : t * list Out :=
  after_input srv session_id now
    (InputHandler.handle_mouse_scroll delivers (inputs srv) sid
       x y screen_width screen_height delta).

Definition handle_key_press (srv : t) (sid session_id key action : string)
    (now : Z) : t * list Out :=
  after_input srv session_id now
    (InputHandler.handle_key_press lower delivers (inputs srv) sid key action).

Definition handle_key_combination (srv : t) (sid session_id : string)
    (keys : list string) (now : Z) : t * list Out :=
  after_input srv session_id now
    (InputHandler.handle_key_combination lower delivers (inputs srv) sid keys).

Definition handle_text_input (srv : t) (sid session_id text : string)
    (now : Z) : t * list Out :=
  after_input srv session_id now
    (InputHandler.handle_text_input delivers (inputs srv) sid text).

End Backend.

(** What [login_required] finds in the browser session. *)
Inductive Login :=
| SecurityFailed
| NotLoggedIn
| LoggedIn (username : string).

(** What a route answers: [abort(404)], a redirect with the messages
    flashed before it, or a rendered template with the message, session
    object and ticket it is given. *)
Inductive Response :=
| NotFound
| Redirect (endpoint : string) (flashed : list (string * string))
| Render (template : string) (message : option string)
    (session : option RemoteSession.t) (ticket : option Ticket.t).

Definition login_required (l : Login) (srv : t) (f : string → t * Response)
    : t * Response :=
  match l with
  | SecurityFailed =>
      (srv, Redirect "login"
              [("Session security validation failed. Please log in again.",
                "error")]%string)
  | NotLoggedIn =>
      (srv, Redirect "login" [("Please log in to access this page.", "info")]%string)
  | LoggedIn username => f username
  end.

Definition start_remote_session (srv : t) (l : Login) (ticket_id : Z) (now : Z)
    (fresh : Fresh) : t * Response :=
  login_required l srv (λ username,
    match tickets srv !! ticket_id with
    | None => (srv, NotFound)
    | Some ticket =>
        if negb (Ticket.remote_access_requested ticket) then
          (srv, Redirect "view_ticket"
                  [("Remote access was not requested for this ticket.",
                    "error")]%string)
        else
          let '(m1, remote_session) :=
            SessionManager.create_session (manager srv) ticket_id
              (Ticket.user_name ticket) username now fresh in
          let ticket1 :=
            Ticket.mk (Ticket.user_name ticket)
              (Ticket.remote_access_requested ticket)
              (Some (session_id remote_session)) "pending" in
          (mk (<[ticket_id := ticket1]> (tickets srv)) m1 (inputs srv) (capture srv),
           Redirect "remote_session_setup"
             [("Remote session started! Share the connection details with the user.",
               "success")]%string)
    end).

Definition remote_session_setup (srv : t) (l : Login) (session_id : string)
    (now : Z) : t * Response :=
  login_required l srv (λ _,
    match SessionManager.get_session (manager srv) session_id now with
    | None =>
        (srv, Redirect "dashboard"
                [("Remote session not found or expired.", "error")]%string)
    | Some remote_session =>
        (srv, Render "remote_session_setup.html" None (Some remote_session)
                (tickets srv !! ticket_id remote_session))
    end).

(** As in [handle_join_session], the route and the authentication each
    look the session up, at [now] and at [again]. *)
Definition remote_client (srv : t) (session_id token : string) (now again : Z)
    : t * Response :=
  match SessionManager.get_session (manager srv) session_id now with
  | None =>
      (srv, Render "error.html" (Some "Session not found or expired."%string)
              None None)
  | Some remote_session =>
      let '(m1, ok) :=
        SessionManager.authenticate_user (manager srv) session_id token again in
      if ok then
        (set_manager m1 srv,
         Render "remote_client.html" None
           (Some (current m1 session_id remote_session)) None)
      else
        (set_manager m1 srv,
         Render "error.html" (Some "Invalid session token."%string) None None)
  end.

Definition remote_viewer (srv : t) (l : Login) (session_id token : string)
    (now again : Z) : t * Response :=
  login_required l srv (λ _,
    match SessionManager.get_session (manager srv) session_id now with
    | None =>
        (srv, Redirect "dashboard" [("Session not found or expired.", "error")]%string)
    | Some remote_session =>
        let '(m1, ok) :=
          SessionManager.authenticate_it_staff (manager srv) session_id token again in
        if ok then
          (set_manager m1 srv,
           Render "remote_viewer.html" None
             (Some (current m1 session_id remote_session)) None)
        else
          (set_manager m1 srv,
           Redirect "dashboard" [("Invalid session token.", "error")]%string)
    end).

(** Everything that reaches the three instances while the application runs:
    the socket events, the routes that write to the registry, the periodic
    sweep and a turn of the capture loop.  The three requests that
    authenticate carry the clock value [again] of their second look-up. *)
Inductive Request :=
| JoinSession (sid session_id token type : string) (again : Z)
| Disconnect (sid : string)
| RequestScreenFrame (sid : string)
| MouseMove (sid session_id : string) (x y screen_width screen_height : Z)
| MouseClick (sid session_id : string) (x y screen_width screen_height : Z)
    (button click_type : string)
| MouseScroll (sid session_id : string) (x y screen_width screen_height delta : Z)
| KeyPress (sid session_id key action : string)
| KeyCombination (sid session_id : string) (keys : list string)
| TextInput (sid session_id text : string)
| StartRemoteSession (l : Login) (ticket_id : Z) (fresh : Fresh)
| RemoteSessionSetup (l : Login) (session_id : string)
| RemoteClient (session_id token : string) (again : Z)
| RemoteViewer (l : Login) (session_id token : string) (again : Z)
| Sweep
| CaptureTurn (o : ScreenCapture.Cycle).

(** The state after one request served at clock value [now]. *)
Definition serve (lower : string → string)
    (delivers : InputHandler.InputAction → bool) (srv : t)
    (r : Request) (now : Z) : t :=
  match r with
  | JoinSession sid session_id token type again =>
      (handle_join_session srv sid session_id token type now again).1
  | Disconnect sid => (handle_disconnect srv sid).1
  | RequestScreenFrame sid => (handle_request_screen_frame srv sid).1
  | MouseMove sid session_id x y w h =>
      (handle_mouse_move delivers srv sid session_id x y w h now).1
  | MouseClick sid session_id x y w h button click_type =>
      (handle_mouse_click delivers srv sid session_id x y w h button click_type now).1
  | MouseScroll sid session_id x y w h delta =>
      (handle_mouse_scroll delivers srv sid session_id x y w h delta now).1
  | KeyPress sid session_id key action =>
      (handle_key_press lower delivers srv sid session_id key action now).1
  | KeyCombination sid session_id keys =>
      (handle_key_combination lower delivers srv sid session_id keys now).1
  | TextInput sid session_id text =>
      (handle_text_input delivers srv sid session_id text now).1
  | StartRemoteSession l ticket_id fresh =>
      (start_remote_session srv l ticket_id now fresh).1
  | RemoteSessionSetup l session_id => (remote_session_setup srv l session_id now).1
  | RemoteClient session_id token again =>
      (remote_client srv session_id token now again).1
  | RemoteViewer l session_id token again =>
      (remote_viewer srv l session_id token now again).1
  | Sweep =>
      set_manager (SessionManager.cleanup_expired_sessions (manager srv) now) srv
  | CaptureTurn o =>
      mk (tickets srv) (manager srv) (inputs srv)
         (Viewers.step (capture srv) (Viewers.Turn o))
  end.

(** A history of requests, each with the clock value it was served at. *)
Definition serve_all (lower : string → string)
    (delivers : InputHandler.InputAction → bool) (srv : t)
    (rs : list (Request * Z)) : t :=
  foldl (λ srv rn, serve lower delivers srv rn.1 rn.2) srv rs.

(** The calls on the registry that the routes and socket handlers make:
    creation, the two authentications, the refresh of the last activity and
    the sweep. *)
Definition app_call (c : Registry.Call) : bool :=
  match c with
  | Registry.CreateSession _ _ _ _
  | Registry.AuthenticateUser _ _
  | Registry.AuthenticateItStaff _ _
  | Registry.UpdateSessionActivity _
  | Registry.CleanupExpiredSessions => true
  | _ => false
  end.

End Server.

(** ** Sample data *)

Module Sample.

Import RemoteSession SessionManager Registry.

Definition fresh1 : Fresh :=
  {| uuid4 := "s1"; user_secret := "u1"; it_secret := "o1" |}.

Definition fresh2 : Fresh :=
  {| uuid4 := "s2"; user_secret := "u2"; it_secret := "o2" |}.

Definition fresh3 : Fresh :=
  {| uuid4 := "s3"; user_secret := "u3"; it_secret := "o3" |}.

Definition hour : Z := 3600 * 1000000.

(** The session made for ticket 7 at clock 0. *)
Definition first_session : RemoteSession.t :=
  RemoteSession.init fresh1 7 "alice" "bob" 0.

(** The session made for ticket 7 one hour later. *)
Definition second_session : RemoteSession.t :=
  RemoteSession.init fresh2 7 "alice" "bob" hour.

(** A registry holding the first session only. *)
Definition one_session : SessionManager.t :=
  (create_session SessionManager.init 7 "alice" "bob" 0 fresh1).1.

(** The first session closed by hand. *)
Definition one_closed : SessionManager.t := (close_session one_session "s1").1.

(** A second session is made for the same ticket; later the first one is
    closed once more. *)
Definition stale_close : list (Call * Z) :=
  [(CreateSession 7 "alice" "bob" fresh1, 0);
   (CreateSession 7 "alice" "bob" fresh2, hour);
   (CloseSession "s1", hour + 1)].

(** The session made for ticket 7 when the first has been swept. *)
Definition third_session : RemoteSession.t :=
  RemoteSession.init fresh3 7 "alice" "bob" (2 * hour + 2).

(** A second session is made for the same ticket; the sweep runs when only
    the first one has expired. *)
Definition late_sweep : list (Call * Z) :=
  [(CreateSession 7 "alice" "bob" fresh1, 0);
   (CreateSession 7 "alice" "bob" fresh2, hour);
   (CleanupExpiredSessions, 2 * hour + 1)].

(** The registry holding the first session once both parties have
    authenticated. *)
Definition both_joined : SessionManager.t :=
  run one_session [(AuthenticateUser "s1" "u1", 5); (AuthenticateItStaff "s1" "o1", 6)].

(** Both parties authenticate, the session is activated and used. *)
Definition busy : list (Call * Z) :=
  [(AuthenticateUser "s1" "u1", 5);
   (AuthenticateItStaff "s1" "o1", 6);
   (ActivateSession "s1" 8, 7);
   (UpdateSessionActivity "s1", hour)].

(** A 1920 x 1080 screen, with nobody authorized and with connection
    ["c1"] authorized. *)
Definition nobody : InputHandler.t := InputHandler.mk ∅ 1920 1080.
Definition desk : InputHandler.t := InputHandler.authorize_session nobody "c1".

(** A screen 1920 wide and 5 * 2^53 + 2 high, far beyond the sizes binary64
    holds exactly, with connection ["c1"] authorized. *)
Definition towering : InputHandler.t :=
  InputHandler.mk {["c1"]} 1920 45035996273704962.

(** One event of each kind's arguments: a point of a 960 x 540 view, a left
    click, a scroll by 3, the Enter key, Ctrl+C and a word. *)
Definition event : Remap.InputEvent :=
  {| Remap.ev_x := 480; Remap.ev_y := 270;
     Remap.ev_width := 960; Remap.ev_height := 540;
     Remap.ev_button := "left"; Remap.ev_click_type := "single";
     Remap.ev_delta := 3;
     Remap.ev_key := "Enter"; Remap.ev_action := "press";
     Remap.ev_keys := ["Ctrl"; "C"]; Remap.ev_text := "hello" |}.

(** An operating system that takes every action. *)
Definition always : InputHandler.InputAction → bool := λ _, true.

(** What [str.lower] does on the ASCII text of the samples. *)
Definition lower : string → string := Py.lower_ascii.

(** A turn whose screen grab raises, and a turn that captures a
    2560 x 1440 screen. *)
Definition bad_turn : ScreenCapture.Cycle :=
  {| ScreenCapture.grabbed := Py.Raise Py.ExternalError;
     ScreenCapture.encoded := Py.Ok "AAAA";
     ScreenCapture.clock := S754_zero false |}.

Definition good_turn : ScreenCapture.Cycle :=
  {| ScreenCapture.grabbed := Py.Ok (2560, 1440);
     ScreenCapture.encoded := Py.Ok "BBBB";
     ScreenCapture.clock := S754_zero false |}.

Definition good_frame : ScreenCapture.Frame :=
  {| ScreenCapture.image := "BBBB";
     ScreenCapture.width := 1920;
     ScreenCapture.height := 1080;
     ScreenCapture.timestamp := S754_zero false |}.

(** A capture service with one reader, before its first frame. *)
Definition watching : ScreenCapture.t :=
  ScreenCapture.add_client (ScreenCapture.init 70 15) "c1".

(** A turn that captures a 2148 x 1208 screen. *)
Definition odd_turn : ScreenCapture.Cycle :=
  {| ScreenCapture.grabbed := Py.Ok (2148, 1208);
     ScreenCapture.encoded := Py.Ok "CCCC";
     ScreenCapture.clock := S754_zero false |}.

(** The application at import on the sample screen, with ticket 7 of alice,
    who has asked for remote access. *)
Definition office : Server.t :=
  Server.init {[7 := Ticket.mk "alice" true None "none"]} 1920 1080.

(** Bob starts a session for ticket 7 and joins it from connection ["c1"];
    three hours later the sweep runs. *)
Definition visit : list (Server.Request * Z) :=
  [(Server.StartRemoteSession (Server.LoggedIn "bob") 7 fresh1, 0);
   (Server.JoinSession "c1" "s1" "o1" "it_staff" 6, 5);
   (Server.Sweep, 3 * hour)].

End Sample.

(** * Properties *)

Import RemoteSession SessionManager Registry.

(** ** Expiry and closing *)

Lemma is_valid_false (s : RemoteSession.t) (now : Z) :
  is_valid s now = false ↔ status s = closed ∨ expires_at s < now.
Proof.
  unfold is_valid, is_expired.
  rewrite andb_false_iff, !negb_false_iff, Z.ltb_lt, bool_decide_eq_true.
  tauto.
Qed.

Lemma get_session_Some (m : SessionManager.t) (id : string) (now : Z)
    (s : RemoteSession.t) :
  get_session m id now = Some s ↔ live m id now s.
Proof.
  unfold get_session, live.
  destruct (sessions m !! id) as [s'|] eqn:E.
  - destruct (is_valid s' now) eqn:V; split.
    + intros [= <-]. done.
    + intros [[= <-] _]. done.
    + done.
    + intros [[= <-] V']. congruence.
  - split; [done | intros [? _]; done].
Qed.

Lemma get_session_None (m : SessionManager.t) (id : string) (now : Z) :
  get_session m id now = None ↔ ∀ s, ¬ live m id now s.
Proof.
  split.
  - intros E s L. apply get_session_Some in L. congruence.
  - intros N. destruct (get_session m id now) as [s|] eqn:E; [|done].
    apply get_session_Some in E. by destruct (N s).
Qed.

Lemma not_live_get_session (m : SessionManager.t) (id : string) (now : Z)
    (s : RemoteSession.t) :
  sessions m !! id = Some s →
  status s = closed ∨ expires_at s < now →
  get_session m id now = None.
Proof.
  intros E D. unfold get_session. rewrite E.
  apply is_valid_false in D. by rewrite D.
Qed.

(** C1. A session that is stored but closed, or whose [expires_at] lies
    before the clock, is treated as absent by every operation that looks it
    up through [get_session]: the lookup gives nothing, both authentications
    answer [False] and leave the registry as it was, and recording activity
    changes nothing either, so [last_activity] keeps its value. *)
Theorem closed_or_expired_is_not_found
    (m : SessionManager.t) (id token : string) (s : RemoteSession.t) (now : Z) :
  sessions m !! id = Some s →
  status s = closed ∨ expires_at s < now →
  get_session m id now = None
  ∧ authenticate_user m id token now = (m, false)
  ∧ authenticate_it_staff m id token now = (m, false)
  ∧ update_session_activity m id now = m
  ∧ last_activity <$> sessions (update_session_activity m id now) !! id
    = Some (last_activity s).
Proof.
  intros E D.
  pose proof (not_live_get_session m id now s E D) as G.
  unfold authenticate_user, authenticate_it_staff, update_session_activity.
  rewrite G, E. done.
Qed.

(** Witness of C1: the sample session, closed by hand, at clock 5. *)
Lemma closed_or_expired_is_not_found_witness :
  get_session Sample.one_closed "s1" 5 = None
  ∧ authenticate_user Sample.one_closed "s1" "u1" 5 = (Sample.one_closed, false)
  ∧ authenticate_it_staff Sample.one_closed "s1" "u1" 5 = (Sample.one_closed, false)
  ∧ update_session_activity Sample.one_closed "s1" 5 = Sample.one_closed
  ∧ last_activity <$> sessions (update_session_activity Sample.one_closed "s1" 5) !! "s1"
    = Some (last_activity (close Sample.first_session)).
Proof.
  apply (closed_or_expired_is_not_found
           Sample.one_closed "s1" "u1" (close Sample.first_session) 5).
  - vm_compute. reflexivity.
  - left. reflexivity.
Defined.

(** ** Authentication *)

Lemma lookup_store (m : SessionManager.t) (id j : string) (s : RemoteSession.t) :
  sessions (store m id s) !! j = if decide (id = j) then Some s else sessions m !! j.
Proof. unfold store; simpl. apply lookup_insert. Qed.


(** ** The sweep *)

Lemma reap_sessions (m : SessionManager.t) (id j : string) :
  sessions (reap m id) !! j = if decide (id = j) then None else sessions m !! j.
Proof.
  unfold reap, close_session.
  destruct (sessions m !! id) as [s|] eqn:E; simpl.
  - rewrite lookup_delete. case_decide; [done|]. by rewrite lookup_insert_ne.
  - rewrite lookup_delete. by case_decide.
Qed.

Lemma foldl_reap_sessions (l : list string) (m : SessionManager.t) (j : string) :
  sessions (foldl reap m l) !! j = if decide (j ∈ l) then None else sessions m !! j.
Proof.
  revert m. induction l as [|i l IH]; intros m.
  - destruct (decide (j ∈ [])) as [H|_]; [|done]. by apply not_elem_of_nil in H.
  - change (foldl reap m (i :: l)) with (foldl reap (reap m i) l).
    rewrite IH, reap_sessions.
    destruct (decide (j ∈ i :: l)) as [Hc|Hc], (decide (j ∈ l)) as [Hl|Hl],
             (decide (i = j)) as [Hi|Hi]; try done.
    + apply elem_of_cons in Hc as [->|?]; done.
    + destruct Hc. by right.
    + destruct Hc. by right.
    + destruct Hc. subst i. by left.
Qed.

Lemma reap_ticket_sessions (m : SessionManager.t) (id : string) :
  ticket_sessions (reap m id) =
  match sessions m !! id with
  | Some s => delete (ticket_id s) (ticket_sessions m)
  | None => ticket_sessions m
  end.
Proof. unfold reap, close_session. by destruct (sessions m !! id). Qed.

Lemma manager_eq (m m' : SessionManager.t) :
  sessions m = sessions m' → ticket_sessions m = ticket_sessions m' → m = m'.
Proof. destruct m, m'; simpl. by intros -> ->. Qed.

Lemma reap_comm (m : SessionManager.t) (a b : string) :
  reap (reap m a) b = reap (reap m b) a.
Proof.
  destruct (decide (a = b)) as [->|N]; [done|].
  apply manager_eq.
  - apply map_eq. intros j. rewrite !reap_sessions.
    by destruct (decide (b = j)), (decide (a = j)).
  - rewrite !reap_ticket_sessions, !reap_sessions.
    rewrite (decide_False (P := a = b)) by done.
    rewrite (decide_False (P := b = a)) by done.
    destruct (sessions m !! a), (sessions m !! b); try done.
    apply delete_delete.
Qed.

(** The sweep visits the expired ids in the order of the dictionary; the
    outcome is the same in any order. *)
Lemma cleanup_order_irrelevant (l l' : list string) :
  l ≡ₚ l' → ∀ m, foldl reap m l = foldl reap m l'.
Proof.
  induction 1 as [|a l l' _ IH|a b l|l1 l2 l3 _ IH1 _ IH2]; intros m; simpl.
  - done.
  - apply IH.
  - by rewrite reap_comm.
  - by rewrite IH1.
Qed.

(** ** Activation *)

Lemma activate_of_valid (s : RemoteSession.t) (now : Z) :
  is_valid s now = true →
  activate s now = (set_last_activity now (set_status active s), true).
Proof. intros V. unfold activate. by rewrite V. Qed.

Lemma activate_session_true (m : SessionManager.t) (id : string) (now again : Z) :
  (activate_session m id now again).2 = true ↔
  ∃ s, live m id now s ∧ user_connected s = true ∧ it_connected s = true.
Proof.
  unfold activate_session.
  destruct (get_session m id now) as [s|] eqn:G.
  - apply get_session_Some in G.
    destruct (user_connected s && it_connected s) eqn:F; simpl; split; try done.
    + intros _. exists s. by apply andb_true_iff in F.
    + intros (s' & [E' _] & Fu & Fi). destruct G as [E _].
      assert (s' = s) as -> by congruence.
      rewrite Fu, Fi in F. done.
  - simpl. split; [done|]. intros (s & L & _).
    by destruct (proj1 (get_session_None m id now) G s).
Qed.

(** What an activation that answers [True] leaves under the id: the session
    made active at the second clock value when it is still valid there, and
    the session as it was when it is not. *)
Lemma activate_session_stored (m : SessionManager.t) (id : string)
    (now again : Z) (s : RemoteSession.t) :
  live m id now s → user_connected s = true → it_connected s = true →
  activate_session m id now again
  = (store m id (if is_valid s again
                 then set_last_activity again (set_status active s) else s),
     true).
Proof.
  intros [E V] Fu Fi. unfold activate_session, get_session.
  rewrite E, V, Fu, Fi. simpl. unfold activate.
  by destruct (is_valid s again).
Qed.

(** A call leaves a session active only if it was active before, or if the
    call is an activation of that very id that answered [True]. *)
Lemma active_after_call (m : SessionManager.t) (c : Call) (now : Z)
    (id : string) (s' : RemoteSession.t) :
  sessions (call m c now) !! id = Some s' →
  status s' = active →
  (∃ s, sessions m !! id = Some s ∧ status s = active)
  ∨ (∃ again, c = ActivateSession id again
              ∧ (activate_session m id now again).2 = true).
Proof.
  intros E A. destruct c as [t u st f|i tok|i tok|i again|i|i|i|i|]; simpl in E.
  - left. unfold create_session in E; simpl in E.
    rewrite lookup_insert in E. case_decide as D.
    { injection E as <-. done. }
    destruct (ticket_sessions m !! t) as [old|]; [|by exists s'].
    unfold close_session in E.
    destruct (sessions m !! old) as [so|] eqn:Eo; simpl in E; [|by exists s'].
    rewrite lookup_insert in E. case_decide.
    { injection E as <-. done. }
    by exists s'.
  - left. unfold authenticate_user in E.
    destruct (get_session m i now) as [s|] eqn:G; [|by exists s'].
    apply get_session_Some in G as [Es _].
    case_bool_decide; [|by exists s']. simpl in E.
    rewrite lookup_insert in E. case_decide as D; [|by exists s'].
    subst i. injection E as <-. by exists s.
  - left. unfold authenticate_it_staff in E.
    destruct (get_session m i now) as [s|] eqn:G; [|by exists s'].
    apply get_session_Some in G as [Es _].
    case_bool_decide; [|by exists s']. simpl in E.
    rewrite lookup_insert in E. case_decide as D; [|by exists s'].
    subst i. injection E as <-. by exists s.
  - destruct (decide (i = id)) as [->|D].
    + destruct ((activate_session m id now again).2) eqn:R;
        [right; by exists again|].
      left. unfold activate_session in *.
      destruct (get_session m id now) as [s|]; [|by exists s'].
      destruct (user_connected s && it_connected s); [done|by exists s'].
    + left. unfold activate_session in E.
      destruct (get_session m i now) as [s|]; [|by exists s'].
      destruct (user_connected s && it_connected s); [|by exists s'].
      simpl in E. rewrite lookup_insert_ne in E by done. by exists s'.
  - left. unfold disconnect_user in E.
    destruct (get_session m i now) as [s|]; [|by exists s'].
    rewrite lookup_store in E. case_decide; [|by exists s'].
    injection E as <-. unfold demote in A. by case_bool_decide.
  - left. unfold disconnect_it_staff in E.
    destruct (get_session m i now) as [s|]; [|by exists s'].
    rewrite lookup_store in E. case_decide; [|by exists s'].
    injection E as <-. unfold demote in A. by case_bool_decide.
  - left. unfold update_session_activity in E.
    destruct (get_session m i now) as [s|] eqn:G; [|by exists s'].
    apply get_session_Some in G as [Es _].
    rewrite lookup_store in E. case_decide; [|by exists s'].
    subst i. injection E as <-. by exists s.
  - left. unfold close_session in E.
    destruct (sessions m !! i) as [s|]; simpl in E; [|by exists s'].
    rewrite lookup_insert in E. case_decide; [|by exists s'].
    injection E as <-. done.
  - left. unfold cleanup_expired_sessions in E.
    rewrite foldl_reap_sessions in E. case_decide; [done|]. by exists s'.
Qed.

Lemma run_snoc (m : SessionManager.t) (cs : list (Call * Z)) (c : Call) (now : Z) :
  run m (cs ++ [(c, now)]) = call (run m cs) c now.
Proof. unfold run. by rewrite foldl_app. Qed.

Lemma active_has_activation (cs : list (Call * Z)) (id : string)
    (s : RemoteSession.t) :
  sessions (run SessionManager.init cs) !! id = Some s →
  status s = active →
  ∃ pre now again post,
    cs = pre ++ (ActivateSession id again, now) :: post
    ∧ (activate_session (run SessionManager.init pre) id now again).2 = true.
Proof.
  revert s. induction cs as [|[c now] cs IH] using rev_ind; intros s E A.
  - done.
  - rewrite run_snoc in E.
    destruct (active_after_call _ _ _ _ _ E A) as [(s0 & E0 & A0)|(again & -> & R)].
    + destruct (IH s0 E0 A0) as (pre & n & ag & post & -> & R).
      exists pre, n, ag, (post ++ [(c, now)]). split; [|done].
      by rewrite <- app_assoc.
    + exists cs, now, again, []. done.
Qed.

(** C2.  [activate_session] answers [True] exactly when the id names a
    stored session that is neither closed nor expired when [get_session]
    looks, with both connected flags set, and a session is active only if
    the history holds such a call on its id.  But the answer does not say
    that the session was made active: [session.activate()] tests [is_valid]
    at its own reading of the clock and its flag is dropped.  On the sample
    session, joined by both parties, with the clock at [expires_at] for
    [get_session] and one microsecond later inside [activate()], the call
    answers [True] and the session stays pending; in general the session is
    made active exactly when it is still valid at the second reading. *)
Theorem activation_reported_but_not_made :
  ((activate_session Sample.both_joined "s1" two_hours (two_hours + 1)).2 = true
   ∧ status <$> sessions (activate_session Sample.both_joined "s1"
                            two_hours (two_hours + 1)).1 !! "s1"
     = Some pending
   ∧ (activate_session Sample.both_joined "s1" two_hours two_hours).2 = true
   ∧ status <$> sessions (activate_session Sample.both_joined "s1"
                            two_hours two_hours).1 !! "s1"
     = Some active)
  ∧ (∀ m id now again,
       (activate_session m id now again).2 = true ↔
       ∃ s, live m id now s ∧ user_connected s = true ∧ it_connected s = true)
  ∧ (∀ m id now again s,
       live m id now s → user_connected s = true → it_connected s = true →
       ∃ s', sessions (activate_session m id now again).1 !! id = Some s'
             ∧ status s' = (if is_valid s again then active else status s)
             ∧ last_activity s'
               = (if is_valid s again then again else last_activity s)
             ∧ user_connected s' = true ∧ it_connected s' = true)
  ∧ (∀ cs id s,
       sessions (run SessionManager.init cs) !! id = Some s →
       status s = active →
       ∃ pre now again post,
         cs = pre ++ (ActivateSession id again, now) :: post
         ∧ (activate_session (run SessionManager.init pre) id now again).2 = true).
Proof.
  split; [repeat split; vm_compute; reflexivity|].
  split; [exact activate_session_true|]. split; [|exact active_has_activation].
  intros m id now again s L Fu Fi.
  rewrite (activate_session_stored m id now again s L Fu Fi). simpl.
  eexists. rewrite lookup_insert_eq. split; [done|].
  by destruct (is_valid s again).
Qed.

(** ** A second session for the same ticket *)

(** C6, as stated, fails: after the second [create_session] for ticket 7 the
    first session, live until then, is still stored in [sessions] under its
    id, with status [closed]; it is the ticket dictionary alone that no
    longer names it. *)
Lemma old_session_remains_stored :
  let m := (create_session Sample.one_session 7 "alice" "bob" Sample.hour Sample.fresh2).1 in
  ticket_sessions Sample.one_session !! 7 = Some "s1"
  ∧ live Sample.one_session "s1" Sample.hour Sample.first_session
  ∧ sessions m !! "s1" = Some (close Sample.first_session)
  ∧ ticket_sessions m !! 7 = Some "s2".
Proof.
  cbv zeta. split; [|split; [split|split]]; vm_compute; reflexivity.
Qed.

(** C6, amended.  When the ticket dictionary names an old session for the
    ticket and the new id differs from the old one, [create_session] closes
    the old session and leaves it in [sessions] as closed, with both
    connected flags cleared; it stores the new pending session under the new
    id and points the ticket at the new id; from then on [get_session] on the
    old id gives nothing, at every clock value. *)
Theorem create_session_closes_prior
    (m : SessionManager.t) (ticket : Z) (user staff : string) (now : Z)
    (f : Fresh) (old : string) (s_old : RemoteSession.t) :
  ticket_sessions m !! ticket = Some old →
  sessions m !! old = Some s_old →
  uuid4 f ≠ old →
  let m' := (create_session m ticket user staff now f).1 in
  sessions m' !! old = Some (close s_old)
  ∧ status (close s_old) = closed
  ∧ user_connected (close s_old) = false
  ∧ it_connected (close s_old) = false
  ∧ sessions m' !! uuid4 f = Some (RemoteSession.init f ticket user staff now)
  ∧ ticket_sessions m' !! ticket = Some (uuid4 f)
  ∧ ∀ now', get_session m' old now' = None.
Proof.
  intros T E N m'.
  assert (Eo : sessions m' !! old = Some (close s_old)).
  { unfold m', create_session, close_session. rewrite T, E. simpl.
    rewrite lookup_insert_ne by done. apply lookup_insert_eq. }
  repeat split; try done.
  - unfold m', create_session. simpl. apply lookup_insert_eq.
  - unfold m', create_session. simpl. apply lookup_insert_eq.
  - intros now'. apply (not_live_get_session m' old now' _ Eo). by left.
Qed.

(** Witness of C6: the second session of the sample data. *)
Lemma create_session_closes_prior_witness :
  let m' := (create_session Sample.one_session 7 "alice" "bob" Sample.hour Sample.fresh2).1 in
  sessions m' !! "s1" = Some (close Sample.first_session)
  ∧ status (close Sample.first_session) = closed
  ∧ user_connected (close Sample.first_session) = false
  ∧ it_connected (close Sample.first_session) = false
  ∧ sessions m' !! "s2" = Some Sample.second_session
  ∧ ticket_sessions m' !! 7 = Some "s2"
  ∧ ∀ now', get_session m' "s1" now' = None.
Proof.
  apply (create_session_closes_prior
           Sample.one_session 7 "alice" "bob" Sample.hour Sample.fresh2
           "s1" Sample.first_session).
  - vm_compute. reflexivity.
  - vm_compute. reflexivity.
  - vm_compute. discriminate.
Defined.

(** ** The two dictionaries as a pair *)

(** C5 fails on the code.  [close_session] deletes the ticket's entry
    without looking at which session it names.  Once a second session exists
    for a ticket, closing the first one again, or sweeping it when it
    expires, deletes the entry of the second: that session is stored, neither
    closed nor expired, and its ticket is no longer in [ticket_sessions].  A
    third [create_session] for the ticket then finds nothing to close, and
    two live sessions of one ticket are stored side by side. *)
Theorem reverse_mapping_lost_for_live_session :
  (let m := run SessionManager.init Sample.stale_close in
   live m "s2" (Sample.hour + 1) Sample.second_session
   ∧ ticket_id Sample.second_session = 7
   ∧ ticket_sessions m !! 7 = None
   ∧ ¬ maps_consistent m (Sample.hour + 1))
  ∧
  (let m := run SessionManager.init Sample.late_sweep in
   let now := 2 * Sample.hour + 1 in
   live m "s2" now Sample.second_session
   ∧ sessions m !! "s1" = None
   ∧ ticket_sessions m !! 7 = None
   ∧ get_session_by_ticket m 7 now = None
   ∧ ¬ maps_consistent m now
   ∧ let m' := (create_session m 7 "alice" "bob" (now + 1) Sample.fresh3).1 in
     live m' "s2" (now + 1) Sample.second_session
     ∧ live m' "s3" (now + 1) Sample.third_session
     ∧ ticket_id Sample.second_session = ticket_id Sample.third_session).
Proof.
  assert (A : live (run SessionManager.init Sample.stale_close) "s2"
                (Sample.hour + 1) Sample.second_session).
  { split; vm_compute; reflexivity. }
  assert (B : live (run SessionManager.init Sample.late_sweep) "s2"
                (2 * Sample.hour + 1) Sample.second_session).
  { split; vm_compute; reflexivity. }
  split; cbv zeta.
  - split; [exact A|]. split; [reflexivity|]. split; [vm_compute; reflexivity|].
    intros C. specialize (C _ _ A). vm_compute in C. discriminate.
  - split; [exact B|]. do 3 (split; [vm_compute; reflexivity|]).
    split.
    + intros C. specialize (C _ _ B). vm_compute in C. discriminate.
    + split; [|split]; [split; vm_compute; reflexivity ..|reflexivity].
Qed.

(** ** Authorization of input *)

Import Py InputHandler Remap.

Lemma is_authorized_true (h : InputHandler.t) (id : string) :
  is_authorized h id = true ↔ id ∈ authorized_sessions h.
Proof. unfold is_authorized. apply bool_decide_eq_true. Qed.

Lemma is_authorized_false (h : InputHandler.t) (id : string) :
  is_authorized h id = false ↔ id ∉ authorized_sessions h.
Proof. unfold is_authorized. apply bool_decide_eq_false. Qed.

Lemma is_authorized_authorize (h : InputHandler.t) (id : string) :
  is_authorized (authorize_session h id) id = true.
Proof. apply is_authorized_true. unfold authorize_session; simpl. set_solver. Qed.

(** C3. For a connection id outside the authorized set, each of the six
    handlers answers [False] and hands nothing to [pyautogui].  After
    [authorize_session] on that id the id is authorized and each of the same
    calls runs the guarded body of its handler: what it answers is decided by
    the body alone. *)
Theorem unauthorized_input_is_rejected
    (lower : string → string) (delivers : InputAction → bool) (h : InputHandler.t) (id : string) (e : InputEvent) :
  id ∉ authorized_sessions h →
  (handle_mouse_move delivers h id (ev_x e) (ev_y e) (ev_width e) (ev_height e)
     = (false, [])
   ∧ handle_mouse_click delivers h id (ev_x e) (ev_y e) (ev_width e) (ev_height e)
       (ev_button e) (ev_click_type e) = (false, [])
   ∧ handle_mouse_scroll delivers h id (ev_x e) (ev_y e) (ev_width e) (ev_height e)
       (ev_delta e) = (false, [])
   ∧ handle_key_press lower delivers h id (ev_key e) (ev_action e) = (false, [])
   ∧ handle_key_combination lower delivers h id (ev_keys e) = (false, [])
   ∧ handle_text_input delivers h id (ev_text e) = (false, []))
  ∧
  (let h' := authorize_session h id in
   is_authorized h' id = true
   ∧ handle_mouse_move delivers h' id (ev_x e) (ev_y e) (ev_width e) (ev_height e)
     = attempt (mouse_move_body delivers h' (ev_x e) (ev_y e) (ev_width e) (ev_height e))
   ∧ handle_mouse_click delivers h' id (ev_x e) (ev_y e) (ev_width e) (ev_height e)
       (ev_button e) (ev_click_type e)
     = attempt (mouse_click_body delivers h' (ev_x e) (ev_y e) (ev_width e)
                  (ev_height e) (ev_button e) (ev_click_type e))
   ∧ handle_mouse_scroll delivers h' id (ev_x e) (ev_y e) (ev_width e) (ev_height e)
       (ev_delta e)
     = attempt (mouse_scroll_body delivers h' (ev_x e) (ev_y e) (ev_width e)
                  (ev_height e) (ev_delta e))
   ∧ handle_key_press lower delivers h' id (ev_key e) (ev_action e)
     = attempt (key_press_body lower delivers (ev_key e) (ev_action e))
   ∧ handle_key_combination lower delivers h' id (ev_keys e)
     = attempt (key_combination_body lower delivers (ev_keys e))
   ∧ handle_text_input delivers h' id (ev_text e)
     = attempt (text_input_body delivers (ev_text e))).
Proof.
  intros N. apply is_authorized_false in N. split.
  - unfold handle_mouse_move, handle_mouse_click, handle_mouse_scroll,
      handle_key_press, handle_key_combination, handle_text_input, rejected.
    rewrite N. done.
  - cbv zeta. pose proof (is_authorized_authorize h id) as A.
    unfold handle_mouse_move, handle_mouse_click, handle_mouse_scroll,
      handle_key_press, handle_key_combination, handle_text_input.
    rewrite A. done.
Qed.

(** Witness of C3: connection ["c1"] on the sample screen, before and after
    it is authorized. *)
Lemma unauthorized_input_is_rejected_witness :
  (handle_mouse_move Sample.always Sample.nobody "c1" 480 270 960 540 = (false, [])
   ∧ handle_mouse_click Sample.always Sample.nobody "c1" 480 270 960 540
       "left" "single" = (false, [])
   ∧ handle_mouse_scroll Sample.always Sample.nobody "c1" 480 270 960 540 3
     = (false, [])
   ∧ handle_key_press Sample.lower Sample.always Sample.nobody "c1" "Enter" "press" = (false, [])
   ∧ handle_key_combination Sample.lower Sample.always Sample.nobody "c1" ["Ctrl"; "C"]
     = (false, [])
   ∧ handle_text_input Sample.always Sample.nobody "c1" "hello" = (false, []))
  ∧
  (is_authorized Sample.desk "c1" = true
   ∧ handle_mouse_move Sample.always Sample.desk "c1" 480 270 960 540
     = attempt (mouse_move_body Sample.always Sample.desk 480 270 960 540)
   ∧ handle_mouse_click Sample.always Sample.desk "c1" 480 270 960 540
       "left" "single"
     = attempt (mouse_click_body Sample.always Sample.desk 480 270 960 540
                  "left" "single")
   ∧ handle_mouse_scroll Sample.always Sample.desk "c1" 480 270 960 540 3
     = attempt (mouse_scroll_body Sample.always Sample.desk 480 270 960 540 3)
   ∧ handle_key_press Sample.lower Sample.always Sample.desk "c1" "Enter" "press"
     = attempt (key_press_body Sample.lower Sample.always "Enter" "press")
   ∧ handle_key_combination Sample.lower Sample.always Sample.desk "c1" ["Ctrl"; "C"]
     = attempt (key_combination_body Sample.lower Sample.always ["Ctrl"; "C"])
   ∧ handle_text_input Sample.always Sample.desk "c1" "hello"
     = attempt (text_input_body Sample.always "hello")).
Proof.
  apply (unauthorized_input_is_rejected Sample.lower Sample.always Sample.nobody "c1" Sample.event).
  simpl. apply not_elem_of_empty.
Defined.

(** The six calls of the witness, once authorized, on an operating system
    that takes every action. *)
Example authorized_calls_are_dispatched :
  handle_mouse_move Sample.always Sample.desk "c1" 480 270 960 540
    = (true, [MoveTo 960 540])
  ∧ handle_mouse_click Sample.always Sample.desk "c1" 480 270 960 540 "left" "single"
    = (true, [Click 960 540 "left"])
  ∧ handle_mouse_scroll Sample.always Sample.desk "c1" 480 270 960 540 3
    = (true, [Scroll 3 960 540])
  ∧ handle_key_press Sample.lower Sample.always Sample.desk "c1" "Enter" "press"
    = (true, [Press "enter"])
  ∧ handle_key_combination Sample.lower Sample.always Sample.desk "c1" ["Ctrl"; "C"]
    = (true, [Hotkey ["ctrl"; "c"]])
  ∧ handle_text_input Sample.always Sample.desk "c1" "hello"
    = (true, [Write "hello"]).
Proof. repeat split; vm_compute; reflexivity. Qed.

(** ** Remapping of pointer coordinates *)

Lemma clamp_bounds (a local : Z) : 1 ≤ local → 0 ≤ clamp a local ≤ local - 1.
Proof. unfold clamp. lia. Qed.

(** ** Binary64 arithmetic: what rounding keeps *)

Lemma digits2_pos_bounds (p : positive) :
  2 ^ (Zpos (digits2_pos p) - 1) <= Zpos p < 2 ^ Zpos (digits2_pos p).
Proof.
  induction p as [p IH|p IH|]; simpl digits2_pos.
  - rewrite Pos2Z.inj_succ.
    replace (Z.succ (Zpos (digits2_pos p)) - 1) with (Z.succ (Zpos (digits2_pos p) - 1)) by lia.
    rewrite !Z.pow_succ_r by lia. lia.
  - rewrite Pos2Z.inj_succ.
    replace (Z.succ (Zpos (digits2_pos p)) - 1) with (Z.succ (Zpos (digits2_pos p) - 1)) by lia.
    rewrite !Z.pow_succ_r by lia. lia.
  - simpl. lia.
Qed.

Lemma Zdigits2_nonneg (m : Z) : 0 <= Zdigits2 m.
Proof. destruct m; simpl; lia. Qed.

Lemma Zdigits2_bounds (m : Z) :
  0 < m -> 2 ^ (Zdigits2 m - 1) <= m < 2 ^ Zdigits2 m.
Proof. destruct m as [|p|p]; try lia. intros _. apply digits2_pos_bounds. Qed.

Lemma Zdigits2_le (m k : Z) : 0 <= m < 2 ^ k -> 0 <= k -> Zdigits2 m <= k.
Proof.
  intros [M0 M] K. destruct (Z.eq_dec m 0) as [->|N]; [simpl; lia|].
  pose proof (Zdigits2_bounds m ltac:(lia)) as [L _].
  pose proof (Zdigits2_nonneg m).
  destruct (Z_le_gt_dec (Zdigits2 m) k) as [|G]; [done|].
  assert (2 ^ k <= 2 ^ (Zdigits2 m - 1)) by (apply Z.pow_le_mono_r; lia). lia.
Qed.

Lemma shr_m_shr_1 (mrs : shr_record) :
  0 <= shr_m mrs -> shr_m (shr_1 mrs) = shr_m mrs / 2.
Proof.
  destruct mrs as [m r s]. simpl. intros M.
  rewrite <- Z.div2_div.
  destruct m as [|[p|p|]|p]; try reflexivity. lia.
Qed.

Lemma shr_m_iter (n : positive) (mrs : shr_record) :
  0 <= shr_m mrs ->
  shr_m (SpecFloat.iter_pos shr_1 n mrs) = shr_m mrs / 2 ^ Zpos n.
Proof.
  revert mrs. induction n as [n IH|n IH|]; intros mrs M; simpl SpecFloat.iter_pos.
  - assert (M1 : 0 <= shr_m (shr_1 mrs)).
    { rewrite shr_m_shr_1 by done. apply Z.div_pos; lia. }
    assert (M2 : 0 <= shr_m (SpecFloat.iter_pos shr_1 n (shr_1 mrs))).
    { rewrite IH by done. apply Z.div_pos; [done|]. apply Z.pow_pos_nonneg; lia. }
    rewrite IH, IH, shr_m_shr_1 by done.
    rewrite !Z.div_div by (try apply Z.pow_pos_nonneg; lia).
    f_equal. rewrite <- Z.pow_add_r by lia.
    rewrite <- (Z.pow_1_r 2) at 1. rewrite <- Z.pow_add_r by lia.
    f_equal. lia.
  - assert (M2 : 0 <= shr_m (SpecFloat.iter_pos shr_1 n mrs)).
    { rewrite IH by done. apply Z.div_pos; [done|]. apply Z.pow_pos_nonneg; lia. }
    rewrite IH, IH by done.
    rewrite !Z.div_div by (try apply Z.pow_pos_nonneg; lia).
    f_equal. rewrite <- Z.pow_add_r by lia. f_equal. lia.
  - rewrite shr_m_shr_1 by done. reflexivity.
Qed.

Lemma shr_m_of_loc (m : Z) (l : location) : shr_m (shr_record_of_loc m l) = m.
Proof. by destruct l as [|[]]. Qed.

Lemma fexp_eq (x : Z) : fexp prec emax x = Z.max (x - 53) (-1074).
Proof. reflexivity. Qed.

(** [shr_fexp] cuts the low bits off until the exponent is the one of the
    format. *)
Lemma shr_fexp_eq (m e : Z) (l : location) :
  0 <= m ->
  exists mrs,
    shr_fexp prec emax m e l
    = (mrs, Z.max e (fexp prec emax (Zdigits2 m + e)))
    /\ shr_m mrs = m / 2 ^ (Z.max e (fexp prec emax (Zdigits2 m + e)) - e).
Proof.
  intros M. unfold shr_fexp, shr.
  destruct (fexp prec emax (Zdigits2 m + e) - e) as [|p|p] eqn:N.
  - eexists. split.
    + f_equal. lia.
    + rewrite shr_m_of_loc. replace (Z.max _ _ - e) with 0 by lia.
      by rewrite Z.pow_0_r, Z.div_1_r.
  - eexists. split.
    + f_equal. lia.
    + rewrite shr_m_iter by (by rewrite shr_m_of_loc).
      rewrite shr_m_of_loc. do 2 f_equal. lia.
  - eexists. split.
    + f_equal. lia.
    + rewrite shr_m_of_loc. replace (Z.max _ _ - e) with 0 by lia.
      by rewrite Z.pow_0_r, Z.div_1_r.
Qed.

Lemma round_nearest_even_bounds (m : Z) (l : location) :
  m <= round_nearest_even m l <= m + 1.
Proof. destruct l as [|[]]; simpl; try lia. destruct (Z.even m); lia. Qed.

Lemma pow2_pos (n : Z) : 0 <= n -> 0 < 2 ^ n.
Proof. intros. apply Z.pow_pos_nonneg; lia. Qed.

Lemma pow2_split (a b : Z) : 0 <= a -> 0 <= b -> 2 ^ (a + b) = 2 ^ a * 2 ^ b.
Proof. intros. by apply Z.pow_add_r. Qed.

(** The digits of a mantissa cut by [n] bits. *)
Lemma Zdigits2_div (m n : Z) :
  0 <= m -> 0 <= n -> Zdigits2 (m / 2 ^ n) <= Z.max (Zdigits2 m - n) 0.
Proof.
  intros M N. pose proof (pow2_pos n N) as P.
  destruct (Z.eq_dec m 0) as [->|M0].
  { rewrite Z.div_0_l by lia. simpl. lia. }
  pose proof (Zdigits2_bounds m ltac:(lia)) as [_ U].
  pose proof (Zdigits2_nonneg m) as D.
  apply Zdigits2_le; [|lia]. split; [apply Z.div_pos; lia|].
  apply Z.div_lt_upper_bound; [done|].
  destruct (Z_le_gt_dec n (Zdigits2 m)) as [L|G].
  - replace (Z.max (Zdigits2 m - n) 0) with (Zdigits2 m - n) by lia.
    rewrite <- pow2_split by lia. by replace (n + (Zdigits2 m - n)) with (Zdigits2 m) by lia.
  - replace (Z.max (Zdigits2 m - n) 0) with 0 by lia. rewrite Z.pow_0_r, Z.mul_1_r.
    assert (2 ^ Zdigits2 m <= 2 ^ n) by (apply Z.pow_le_mono_r; lia). lia.
Qed.

Lemma Zdigits2_succ (m m' : Z) :
  0 <= m' <= m + 1 -> 0 <= m -> Zdigits2 m' <= Zdigits2 m + 1.
Proof.
  intros B M. pose proof (Zdigits2_nonneg m) as D.
  apply Zdigits2_le; [|lia]. split; [lia|].
  rewrite Z.pow_add_r, Z.pow_1_r by lia.
  destruct (Z.eq_dec m 0) as [->|M0]; [simpl; lia|].
  pose proof (Zdigits2_bounds m ltac:(lia)). lia.
Qed.

(** One cut of [shr_fexp]: the exponent and the size stay within their
    bounds, and a binary64 number below the value stays below it. *)
Lemma shr_fexp_step (m e : Z) (l : location) (B E : Z) :
  0 <= m -> Zdigits2 m + e <= B -> e <= E -> -1074 <= B -> -1074 <= E ->
  exists mrs e',
    shr_fexp prec emax m e l = (mrs, e')
    /\ 0 <= shr_m mrs /\ shr_m mrs <= m
    /\ e <= e' /\ e' <= Z.max E (B - 53)
    /\ Zdigits2 (shr_m mrs) + e' <= B
    /\ forall K k z, 0 <= K < 2 ^ 53 -> -1074 <= k -> 0 <= k + z -> 0 <= e + z ->
         K * 2 ^ (k + z) <= m * 2 ^ (e + z) ->
         K * 2 ^ (k + z) <= shr_m mrs * 2 ^ (e' + z).
Proof.
  intros M D EE B0 E0.
  destruct (shr_fexp_eq m e l M) as (mrs & -> & S).
  rewrite fexp_eq in *.
  set (e' := Z.max e (Z.max (Zdigits2 m + e - 53) (-1074))) in *.
  assert (N : 0 <= e' - e) by lia.
  pose proof (pow2_pos (e' - e) N) as P.
  exists mrs, e'. split; [done|]. rewrite S.
  split; [apply Z.div_pos; lia|].
  split.
  { apply Z.div_le_upper_bound; [lia|].
    rewrite <- (Z.mul_1_l m) at 1. apply Z.mul_le_mono_nonneg_r; lia. }
  split; [lia|]. split; [lia|]. split.
  { pose proof (Zdigits2_div m (e' - e) M N).
    pose proof (Zdigits2_nonneg m). lia. }
  intros K k z [K0 K1] Kk Z1 Z2 L.
  destruct (Z.eq_dec e' e) as [Q|Q].
  { rewrite Q, Z.sub_diag, Z.pow_0_r, Z.div_1_r. done. }
  assert (e' = Z.max (Zdigits2 m + e - 53) (-1074)) as F by lia.
  destruct (Z_le_gt_dec e' k) as [C|C].
  - (* the lower number is a multiple of the new unit *)
    replace (k + z) with ((k - e') + (e' + z)) by lia.
    rewrite pow2_split, Z.mul_assoc by lia.
    apply Z.mul_le_mono_nonneg_r; [apply Z.pow_nonneg; lia|].
    apply Z.div_le_lower_bound; [done|].
    replace (k + z) with ((k - e') + ((e' - e) + (e + z))) in L by lia.
    rewrite !pow2_split, !Z.mul_assoc in L by lia.
    apply Z.mul_le_mono_pos_r in L; [lia|apply pow2_pos; lia].
  - (* the cut mantissa is a full one *)
    assert (e' = Zdigits2 m + e - 53) as F' by lia.
    assert (m <> 0) as M0.
    { intros ->. simpl in F'. lia. }
    pose proof (Zdigits2_bounds m ltac:(lia)) as [L0 _].
    assert (2 ^ 52 <= m / 2 ^ (e' - e)) as T.
    { apply Z.div_le_lower_bound; [done|].
      rewrite Z.mul_comm, <- pow2_split by lia.
      replace (52 + (e' - e)) with (Zdigits2 m - 1) by lia. done. }
    replace (e' + z) with ((e' - k - 1) + (1 + (k + z))) by lia.
    rewrite (pow2_split (e' - k - 1)), (pow2_split 1), Z.pow_1_r by lia.
    pose proof (pow2_pos (k + z) Z1). pose proof (pow2_pos (e' - k - 1) ltac:(lia)).
    set (u := 2 ^ (k + z)) in *. set (v := 2 ^ (e' - k - 1)) in *.
    assert (K * u <= 2 ^ 52 * (1 * (2 * u))) by nia.
    etrans; [done|]. apply Z.mul_le_mono_nonneg; try lia.
    apply Z.mul_le_mono_nonneg; lia.
Qed.

(** Rounding to nearest: the result is a zero or a finite number of the
    sign given, its exponent and size within bounds that exclude an
    infinity, and a binary64 number below the exact value is below the
    rounded one. *)
Lemma binary_round_aux_bounds (sx : bool) (m e : Z) (l : location) (B E : Z) :
  0 <= m -> Zdigits2 m + e <= B -> e <= E -> -1074 <= B -> -1074 <= E ->
  Z.max E (B - 52) <= 971 ->
  exists m' e',
    binary_round_aux prec emax sx m e l = repr sx m' e'
    /\ 0 <= m' /\ e <= e' /\ e' <= Z.max E (B - 52)
    /\ Zdigits2 m' + e' <= B + 1
    /\ forall K k z, 0 <= K < 2 ^ 53 -> -1074 <= k -> 0 <= k + z -> 0 <= e + z ->
         K * 2 ^ (k + z) <= m * 2 ^ (e + z) ->
         K * 2 ^ (k + z) <= m' * 2 ^ (e' + z).
Proof.
  intros M D EE B0 E0 R.
  destruct (shr_fexp_step m e l B E M D EE B0 E0)
    as (mrs1 & e1 & S1 & M1 & _ & E1 & E1' & D1 & L1).
  pose proof (round_nearest_even_bounds (shr_m mrs1) (loc_of_shr_record mrs1)) as [R0 R1].
  set (m2 := round_nearest_even (shr_m mrs1) (loc_of_shr_record mrs1)) in *.
  assert (D2 : Zdigits2 m2 + e1 <= B + 1).
  { pose proof (Zdigits2_succ (shr_m mrs1) m2 ltac:(lia) M1). lia. }
  destruct (shr_fexp_step m2 e1 loc_Exact (B + 1) (Z.max E (B - 53))
              ltac:(lia) D2 E1' ltac:(lia) ltac:(lia))
    as (mrs2 & e2 & S2 & M2 & _ & E2 & E2' & D3 & L2).
  exists (shr_m mrs2), e2.
  split.
  { unfold binary_round_aux. rewrite S1. fold m2. rewrite S2.
    destruct (shr_m mrs2) as [|p|p] eqn:Q; simpl; [done| |lia].
    replace (e2 <=? emax - prec) with true; [done|].
    symmetry. apply Z.leb_le. change (emax - prec) with 971. lia. }
  split; [done|]. split; [lia|]. split; [lia|]. split; [lia|].
  intros K k z KK Kk Z1 Z2 L.
  apply L2; try done; [lia|].
  etrans; [apply (L1 K k z); done|].
  apply Z.mul_le_mono_nonneg_r; [apply Z.pow_nonneg; lia|done].
Qed.

Lemma repr_not_infinity (s : bool) (m e : Z) (A : Type) (a : exn) (k : float -> result A) :
  0 <= m ->
  match repr s m e with
  | S754_infinity _ => Raise a
  | f => k f
  end = k (repr s m e).
Proof. by destruct m. Qed.

Lemma iter_xO (m d : positive) : Zpos (Pos.iter xO m d) = Zpos m * 2 ^ Zpos d.
Proof.
  induction d as [|d IH] using Pos.peano_ind.
  - simpl. lia.
  - rewrite Pos.iter_succ, Pos2Z.inj_succ, Z.pow_succ_r by lia.
    rewrite Pos2Z.inj_xO, IH. lia.
Qed.

(** The integer quotient that [SFdiv] rounds. *)
Lemma SFdiv_core_bounds (a b : positive) :
  exists q e l,
    SFdiv_core_binary prec emax (Zpos a) 0 (Zpos b) 0 = (q, e, l)
    /\ 0 <= q /\ -1074 <= e <= 0
    /\ Zdigits2 q + e <= Zdigits2 (Zpos a)
    /\ (Zpos b <= Zpos a -> 2 ^ (- e) <= q).
Proof.
  unfold SFdiv_core_binary. cbv zeta.
  rewrite !Z.add_0_r, Z.sub_0_r, fexp_eq.
  set (e := Z.min (Z.max (Zdigits2 (Zpos a) - Zdigits2 (Zpos b) - 53) (-1074)) 0).
  assert (E : -1074 <= e <= 0) by lia.
  assert (S : match 0 - e with
              | 0 => Zpos a
              | Zpos _ => Z.shiftl (Zpos a) (0 - e)
              | Zneg _ => 0
              end = Zpos a * 2 ^ (- e)).
  { rewrite Z.sub_0_l. destruct (- e) as [|p|p] eqn:N; [lia| |lia].
    by rewrite Z.shiftl_mul_pow2. }
  rewrite S. pose proof (pow2_pos (- e) ltac:(lia)) as P.
  destruct (Z.div_eucl (Zpos a * 2 ^ (- e)) (Zpos b)) as [q r] eqn:DE.
  assert (Q : q = Zpos a * 2 ^ (- e) / Zpos b) by (unfold Z.div; by rewrite DE).
  exists q, e, (new_location (Zpos b) r).
  split; [done|].
  assert (Q0 : 0 <= q) by (rewrite Q; apply Z.div_pos; lia).
  split; [done|]. split; [done|]. split.
  - pose proof (Zdigits2_bounds (Zpos a) ltac:(lia)) as [_ U].
    pose proof (Zdigits2_nonneg (Zpos a)) as D.
    assert (Zdigits2 q <= Zdigits2 (Zpos a) + - e); [|lia].
    apply Zdigits2_le; [|lia]. split; [done|].
    rewrite Q. apply Z.div_lt_upper_bound; [lia|].
    rewrite pow2_split by lia.
    pose proof (Pos2Z.is_pos b) as PB.
    generalize dependent (2 ^ (- e)). generalize dependent (2 ^ Zdigits2 (Zpos a)).
    intros v U u _ P _ _.
    apply Z.lt_le_trans with (v * u); [apply Z.mul_lt_mono_pos_r; lia|].
    rewrite <- (Z.mul_1_l (v * u)) at 1.
    apply Z.mul_le_mono_nonneg_r; [|lia]. apply Z.mul_nonneg_nonneg; lia.
  - intros L. rewrite Q. apply Z.div_le_lower_bound; [lia|].
    apply Z.mul_le_mono_nonneg_r; lia.
Qed.

(** [a / b] for a divisor of at least 1: a zero or a finite number of the
    sign of [a], and at least 1.0 when [b] is not above [|a|]. *)
Lemma int_truediv_bounds (a b A : Z) :
  a <> 0 -> 1 <= b -> Z.abs a < 2 ^ A -> 0 <= A <= 1022 ->
  exists m e,
    int_truediv a b = Ok (repr (a <? 0) m e)
    /\ 0 <= m /\ -1074 <= e <= Z.max 0 (A - 52)
    /\ Zdigits2 m + e <= A + 1
    /\ (b <= Z.abs a -> forall z, 1074 <= z -> 2 ^ z <= m * 2 ^ (e + z)).
Proof.
  intros A0 B0 AA AB.
  destruct (SFdiv_core_bounds (Z.to_pos (Z.abs a)) (Z.to_pos (Z.abs b)))
    as (q & e & l & C & Q0 & E & D & L).
  rewrite !Z2Pos.id in * by lia.
  assert (DA : Zdigits2 (Z.abs a) <= A) by (apply Zdigits2_le; lia).
  destruct (binary_round_aux_bounds (a <? 0) q e l A 0
              Q0 ltac:(lia) ltac:(lia) ltac:(lia) ltac:(lia) ltac:(lia))
    as (m' & e' & R & M' & E1 & E2 & D' & K).
  exists m', e'.
  split.
  { unfold int_truediv. destruct b as [|pb|pb]; [lia| |lia].
    destruct a as [|pa|pa]; [lia| |].
    - change (Z.abs (Z.pos pa)) with (Z.pos pa) in *.
      change (Z.abs (Z.pos pb)) with (Z.pos pb) in *.
      change (Z.to_pos (Z.pos pa)) with pa. change (Z.to_pos (Z.pos pb)) with pb.
      unfold SFdiv.
      rewrite C. change (Z.pos pb <? 0) with false. rewrite xorb_false_r, R.
      by apply (repr_not_infinity _ _ _ _ _ Ok).
    - change (Z.abs (Z.neg pa)) with (Z.pos pa) in *.
      change (Z.abs (Z.pos pb)) with (Z.pos pb) in *.
      change (Z.to_pos (Z.pos pa)) with pa. change (Z.to_pos (Z.pos pb)) with pb.
      unfold SFdiv.
      rewrite C. change (Z.pos pb <? 0) with false. rewrite xorb_false_r, R.
      by apply (repr_not_infinity _ _ _ _ _ Ok). }
  split; [done|]. split; [lia|]. split; [lia|].
  intros BA z Z.
  specialize (K 1 0 z ltac:(lia) ltac:(lia) ltac:(lia) ltac:(lia)).
  rewrite Z.add_0_l, !Z.mul_1_l in K. apply K.
  replace z with (- e + (e + z)) at 1 by lia.
  rewrite pow2_split by lia.
  apply Z.mul_le_mono_nonneg_r; [apply Z.pow_nonneg; lia|].
  apply L. lia.
Qed.

(** [float(n)] for a positive [n]: a zero or a finite positive number, and
    not below [n] when [n] has at most 53 bits. *)
Lemma float_of_int_bounds (n A : Z) :
  1 <= n < 2 ^ A -> 0 <= A <= 1022 ->
  exists m e,
    float_of_int n = Ok (repr false m e)
    /\ 0 <= m /\ -1074 <= e <= Z.max 0 (A - 52)
    /\ Zdigits2 m + e <= A + 1
    /\ (n < 2 ^ 53 -> forall z, 1074 <= z -> n * 2 ^ z <= m * 2 ^ (e + z)).
Proof.
  intros [N0 N1] AB. destruct n as [|p|p]; [lia| |lia].
  pose proof (Zdigits2_nonneg (Zpos p)) as D0.
  assert (DA : Zdigits2 (Zpos p) <= A) by (apply Zdigits2_le; lia).
  assert (exists mz ez,
             shl_align p 0 (fexp prec emax (Zpos (digits2_pos p) + 0)) = (mz, ez)
             /\ -1074 <= ez <= 0 /\ Zpos mz = Zpos p * 2 ^ (- ez))
    as (mz & ez & S & EZ & V).
  { unfold shl_align. rewrite fexp_eq, Z.add_0_r, Z.sub_0_r.
    change (Zpos (digits2_pos p)) with (Zdigits2 (Zpos p)).
    destruct (Z.max (Zdigits2 (Zpos p) - 53) (-1074)) as [|d|d] eqn:F.
    - exists p, 0. split; [done|]. split; [lia|]. simpl. lia.
    - exists p, 0. split; [done|]. split; [lia|]. simpl. lia.
    - eexists _, _. split; [done|]. split; [lia|]. apply iter_xO. }
  pose proof (pow2_pos (- ez) ltac:(lia)) as P.
  assert (DZ : Zdigits2 (Zpos mz) + ez <= A).
  { assert (Zdigits2 (Zpos mz) <= A + - ez); [|lia].
    apply Zdigits2_le; [|lia]. split; [lia|].
    rewrite V, pow2_split by lia. apply Z.mul_lt_mono_pos_r; lia. }
  destruct (binary_round_aux_bounds false (Zpos mz) ez loc_Exact A 0
              ltac:(lia) DZ ltac:(lia) ltac:(lia) ltac:(lia) ltac:(lia))
    as (m' & e' & R & M' & E1 & E2 & D' & K).
  exists m', e'. split.
  { unfold float_of_int, binary_normalize, binary_round. rewrite S, R.
    by apply (repr_not_infinity _ _ _ _ _ Ok). }
  split; [done|]. split; [lia|]. split; [lia|].
  intros N z Z.
  specialize (K (Zpos p) 0 z ltac:(lia) ltac:(lia) ltac:(lia) ltac:(lia)).
  rewrite Z.add_0_l in K. apply K.
  rewrite V. replace z with (- ez + (ez + z)) at 1 by lia.
  rewrite pow2_split by lia. lia.
Qed.

Lemma Zdigits2_mul (a b : Z) :
  0 <= a -> 0 <= b -> Zdigits2 (a * b) <= Zdigits2 a + Zdigits2 b.
Proof.
  intros A B. pose proof (Zdigits2_nonneg a). pose proof (Zdigits2_nonneg b).
  destruct (Z.eq_dec a 0) as [->|A0]; [simpl; lia|].
  destruct (Z.eq_dec b 0) as [->|B0]; [rewrite Z.mul_0_r; simpl; lia|].
  pose proof (Zdigits2_bounds a ltac:(lia)) as [_ UA].
  pose proof (Zdigits2_bounds b ltac:(lia)) as [_ UB].
  apply Zdigits2_le; [|lia]. split; [apply Z.mul_nonneg_nonneg; lia|].
  rewrite pow2_split by lia. apply Z.mul_lt_mono_nonneg; lia.
Qed.

(** The product of two numbers that are zero or finite: zero or finite
    again, of the sign of the two; and when the first is at least 1.0 and
    the second at least [n], the product is at least [n]. *)
Lemma SFmul_bounds (s1 s2 : bool) (m1 e1 m2 e2 B1 B2 E1 E2 : Z) :
  0 <= m1 -> 0 <= m2 ->
  -1074 <= e1 <= E1 -> -1074 <= e2 <= E2 ->
  Zdigits2 m1 + e1 <= B1 -> Zdigits2 m2 + e2 <= B2 ->
  Z.max (E1 + E2) (B1 + B2 - 52) <= 971 ->
  exists m e,
    SFmul prec emax (repr s1 m1 e1) (repr s2 m2 e2) = repr (xorb s1 s2) m e
    /\ 0 <= m /\ -2148 <= e
    /\ forall n, 0 <= n < 2 ^ 53 ->
         (forall z, 1074 <= z -> 2 ^ z <= m1 * 2 ^ (e1 + z)) ->
         (forall z, 1074 <= z -> n * 2 ^ z <= m2 * 2 ^ (e2 + z)) ->
         n * 2 ^ 2148 <= m * 2 ^ (e + 2148).
Proof.
  intros M1 M2 EE1 EE2 D1 D2 R.
  pose proof (Zdigits2_nonneg m1) as N1. pose proof (Zdigits2_nonneg m2) as N2.
  destruct (Z.eq_dec m1 0) as [->|Z1].
  { exists 0, 0. split; [by destruct m2|]. split; [done|]. split; [lia|].
    intros n _ L _. specialize (L 1074 ltac:(lia)).
    pose proof (pow2_pos 1074 ltac:(lia)). lia. }
  destruct (Z.eq_dec m2 0) as [->|Z2].
  { exists 0, 0. split; [by destruct m1|]. split; [done|]. split; [lia|].
    intros n N _ L. specialize (L 1074 ltac:(lia)).
    pose proof (pow2_pos 1074 ltac:(lia)).
    assert (n = 0) as -> by nia. lia. }
  destruct (binary_round_aux_bounds (xorb s1 s2) (m1 * m2) (e1 + e2) loc_Exact
              (Z.max (B1 + B2) (-1074)) (Z.max (E1 + E2) (-1074)))
    as (m & e & Q & M & E & E' & D & K).
  { apply Z.mul_nonneg_nonneg; lia. }
  { pose proof (Zdigits2_mul m1 m2 M1 M2). lia. }
  { lia. }
  { lia. }
  { lia. }
  { lia. }
  exists m, e. split.
  { destruct m1 as [|p1|p1]; [lia| |lia]. destruct m2 as [|p2|p2]; [lia| |lia].
    exact Q. }
  split; [done|]. split; [lia|].
  intros n N L1 L2.
  specialize (K n 0 2148 N ltac:(lia) ltac:(lia) ltac:(lia)).
  rewrite Z.add_0_l in K. apply K.
  specialize (L1 1074 ltac:(lia)). specialize (L2 1074 ltac:(lia)).
  replace 2148 with (1074 + 1074) at 1 by lia.
  replace (e1 + e2 + 2148) with ((e1 + 1074) + (e2 + 1074)) by lia.
  rewrite (pow2_split 1074 1074), (pow2_split (e1 + 1074)) by lia.
  pose proof (pow2_pos 1074 ltac:(lia)) as P.
  pose proof (pow2_pos (e1 + 1074) ltac:(lia)) as P1.
  pose proof (pow2_pos (e2 + 1074) ltac:(lia)) as P2.
  generalize dependent (2 ^ 1074). generalize dependent (2 ^ (e1 + 1074)).
  generalize dependent (2 ^ (e2 + 1074)). intros w2 L2 w1 L1 u.
  intros. 
  replace (n * (u * u)) with (u * (n * u)) by lia.
  replace (m1 * m2 * (w1 * w2)) with ((m1 * w1) * (m2 * w2)) by lia.
  apply Z.mul_le_mono_nonneg; lia.
Qed.

(** [int] of a zero or a finite number: a number of its sign, whose
    size is not below a whole number that the float is not below. *)
Lemma int_of_float_repr (s : bool) (m e : Z) :
  0 <= m ->
  exists a,
    int_of_float (repr s m e) = Ok (if s then - a else a)
    /\ 0 <= a
    /\ forall n z, 0 <= z -> 0 <= e + z -> n * 2 ^ z <= m * 2 ^ (e + z) -> n <= a.
Proof.
  intros M. destruct m as [|p|p]; [| |lia].
  - exists 0. split; [by destruct s|]. split; [done|].
    intros n z Z _ L. pose proof (pow2_pos z Z). nia.
  - exists (match e with
            | Zneg q => Z.shiftr (Zpos p) (Zpos q)
            | _ => Z.shiftl (Zpos p) e
            end).
    split; [done|].
    destruct e as [|q|q].
    + rewrite Z.shiftl_0_r. split; [lia|]. intros n z Z _ L.
      rewrite Z.add_0_l in L. pose proof (pow2_pos z Z).
      apply Z.mul_le_mono_pos_r in L; lia.
    + rewrite Z.shiftl_mul_pow2 by lia.
      pose proof (pow2_pos (Zpos q) ltac:(lia)).
      split; [apply Z.mul_nonneg_nonneg; lia|].
      intros n z Z _ L. pose proof (pow2_pos z Z).
      rewrite pow2_split, Z.mul_assoc in L by lia.
      apply Z.mul_le_mono_pos_r in L; lia.
    + rewrite Z.shiftr_div_pow2 by lia.
      pose proof (pow2_pos (Zpos q) ltac:(lia)).
      split; [apply Z.div_pos; lia|]. intros n z Z Z' L.
      apply Z.div_le_lower_bound; [lia|].
      replace z with (Zpos q + (Zneg q + z)) in L at 1 by lia.
      rewrite pow2_split, Z.mul_assoc in L by lia.
      apply Z.mul_le_mono_pos_r in L; [lia|apply pow2_pos; lia].
Qed.

(** A coordinate at or beyond the source extent is scaled to the local
    extent or beyond. *)
Lemma scale_beyond (y sh H : Z) :
  1 <= sh <= y -> y < 2 ^ 64 -> 1 <= H < 2 ^ 53 ->
  exists a, scale y sh H = Ok a /\ H <= a.
Proof.
  intros [S Y] Y' HH.
  destruct (int_truediv_bounds y sh 64 ltac:(lia) S ltac:(lia) ltac:(lia))
    as (m1 & e1 & Q & M1 & E1 & D1 & L1).
  destruct (float_of_int_bounds H 53 HH ltac:(lia))
    as (m2 & e2 & F & M2 & E2 & D2 & L2).
  destruct (SFmul_bounds (y <? 0) false m1 e1 m2 e2 65 54 12 1
              M1 M2 ltac:(lia) ltac:(lia) D1 D2 ltac:(lia))
    as (m & e & P & M & E & L).
  destruct (int_of_float_repr (xorb (y <? 0) false) m e M) as (a & I & A & LA).
  replace (y <? 0) with false in * by (symmetry; apply Z.ltb_ge; lia).
  exists a. split.
  { unfold scale. rewrite Q. simpl. unfold float_mul_int. rewrite F. simpl.
    rewrite P. exact I. }
  apply (LA H 2148); [lia|lia|].
  apply L; [lia| |].
  - apply L1. lia.
  - apply L2. lia.
Qed.

(** A coordinate left of or above the source is scaled to a number that
    is not positive. *)
Lemma scale_negative (x sw W : Z) :
  - 2 ^ 64 < x < 0 -> 1 <= sw -> 1 <= W < 2 ^ 53 ->
  exists a, scale x sw W = Ok a /\ a <= 0.
Proof.
  intros [X' X] S WW.
  destruct (int_truediv_bounds x sw 64 ltac:(lia) S ltac:(lia) ltac:(lia))
    as (m1 & e1 & Q & M1 & E1 & D1 & L1).
  destruct (float_of_int_bounds W 53 WW ltac:(lia))
    as (m2 & e2 & F & M2 & E2 & D2 & L2).
  destruct (SFmul_bounds (x <? 0) false m1 e1 m2 e2 65 54 12 1
              M1 M2 ltac:(lia) ltac:(lia) D1 D2 ltac:(lia))
    as (m & e & P & M & E & L).
  destruct (int_of_float_repr (xorb (x <? 0) false) m e M) as (a & I & A & LA).
  replace (x <? 0) with true in * by (symmetry; apply Z.ltb_lt; lia).
  exists (- a). split; [|lia].
  unfold scale. rewrite Q. simpl. unfold float_mul_int. rewrite F. simpl.
  rewrite P. exact I.
Qed.

(** What an authorized [handle_mouse_move] does, by the outcome of the two
    scalings. *)
Lemma handle_mouse_move_authorized
    (delivers : InputAction → bool) (h : InputHandler.t) (id : string)
    (x y sw sh : Z) :
  id ∈ authorized_sessions h →
  handle_mouse_move delivers h id x y sw sh =
  match scale x sw (screen_width h), scale y sh (screen_height h) with
  | Ok ax, Ok ay =>
      let a := MoveTo (clamp ax (screen_width h)) (clamp ay (screen_height h)) in
      if delivers a then (true, [a]) else (false, [])
  | _, _ => (false, [])
  end.
Proof.
  intros A. apply is_authorized_true in A.
  unfold handle_mouse_move, mouse_move_body, dispatch. rewrite A. simpl.
  destruct (scale x sw (screen_width h)) as [ax|]; simpl; [|done].
  destruct (scale y sh (screen_height h)) as [ay|]; simpl; [|done].
  by destruct (delivers _).
Qed.

(** C4, as stated, fails.  On the 1920 x 1080 sample screen the point
    (1, 1) of a 1000 x 1000 view is moved to column 1, where rounding 1.92
    gives 2; and with the source size equal to the screen size the point
    (123, 39) is moved to (122, 38), because the binary64 products fall just
    below 123 and 39 and [int] cuts them.  The corner sentence fails on a
    screen too high for binary64: with H = 5 * 2^53 + 2 the quotient
    (H + 5) / H is 1.0 and [float(H)] is H - 2, so the call with (-5, H + 5)
    moves to row H - 2, not H - 1. *)
Lemma move_truncates_instead_of_rounding :
  handle_mouse_move Sample.always Sample.desk "c1" 1 1 1000 1000
    = (true, [MoveTo 1 1])
  ∧ clamp (spec_rounded 1 1000 (screen_width Sample.desk)) (screen_width Sample.desk) = 2
  ∧ handle_mouse_move Sample.always Sample.desk "c1" 123 39 1920 1080
    = (true, [MoveTo 122 38])
  ∧ clamp (spec_rounded 123 1920 (screen_width Sample.desk)) (screen_width Sample.desk)
    = 123
  ∧ clamp (spec_rounded 39 1080 (screen_height Sample.desk)) (screen_height Sample.desk)
    = 39
  ∧ handle_mouse_move Sample.always Sample.towering "c1"
      (-5) (screen_height Sample.towering + 5)
      (screen_width Sample.towering) (screen_height Sample.towering)
    = (true, [MoveTo 0 (screen_height Sample.towering - 2)]).
Proof. repeat split; vm_compute; reflexivity. Qed.

(** C4, amended.  For an authorized [handle_mouse_move] on a screen of at
    least 1 x 1, each coordinate is [int((value / sourceDim) * localDim)],
    the binary64 quotient and product cut towards zero, then clamped to
    [0, localDim - 1]; the move is handed over at that point, which lies on
    the screen.  When a scaling raises (a source dimension is 0) the call
    answers [False] and nothing is moved.  On a screen whose sides are
    below 2^53, the sizes binary64 holds exactly, the call with (-5, H + 5)
    and the screen's own size moves to (0, H - 1).  Equal source and screen
    sizes do not always give the point back: on 1920 x 1080, (123, 39) is
    moved to (122, 38). *)
Theorem move_scales_truncates_and_clamps
    (delivers : InputAction → bool) (h : InputHandler.t) (id : string)
    (x y sw sh : Z) :
  id ∈ authorized_sessions h →
  1 ≤ screen_width h →
  1 ≤ screen_height h →
  handle_mouse_move delivers h id x y sw sh =
    match scale x sw (screen_width h), scale y sh (screen_height h) with
    | Ok ax, Ok ay =>
        let a := MoveTo (clamp ax (screen_width h)) (clamp ay (screen_height h)) in
        if delivers a then (true, [a]) else (false, [])
    | _, _ => (false, [])
    end
  ∧ (∀ a, a ∈ (handle_mouse_move delivers h id x y sw sh).2 →
          ∃ p, position a = Some p ∧ on_screen h p)
  ∧ (sw = 0 ∨ sh = 0 → handle_mouse_move delivers h id x y sw sh = (false, []))
  ∧ (screen_width h < 2 ^ 53 →
     screen_height h < 2 ^ 53 →
     delivers (MoveTo 0 (screen_height h - 1)) = true →
     handle_mouse_move delivers h id (-5) (screen_height h + 5)
       (screen_width h) (screen_height h)
     = (true, [MoveTo 0 (screen_height h - 1)]))
  ∧ handle_mouse_move Sample.always Sample.desk "c1" 123 39 1920 1080
    = (true, [MoveTo 122 38]).
Proof.
  intros A W H.
  split; [by apply handle_mouse_move_authorized|].
  split; [|split; [|split; [|vm_compute; reflexivity]]].
  - rewrite (handle_mouse_move_authorized _ _ _ _ _ _ _ A).
    intros a. destruct (scale x sw _) as [ax|]; [|by intros ?%elem_of_nil].
    destruct (scale y sh _) as [ay|]; [|by intros ?%elem_of_nil].
    cbv zeta. destruct (delivers _); [|by intros ?%elem_of_nil].
    intros ->%list_elem_of_singleton. eexists. split; [reflexivity|].
    split; simpl; by apply clamp_bounds.
  - rewrite (handle_mouse_move_authorized _ _ _ _ _ _ _ A).
    intros [-> | ->].
    + reflexivity.
    + destruct (scale x sw _); reflexivity.
  - intros BW BH D.
    rewrite (handle_mouse_move_authorized _ _ _ _ _ _ _ A).
    destruct (scale_negative (-5) (screen_width h) (screen_width h))
      as (ax & -> & L); [lia | done | lia |].
    destruct (scale_beyond (screen_height h + 5) (screen_height h) (screen_height h))
      as (ay & -> & B); [lia | lia | lia |].
    cbv zeta. unfold clamp.
    replace (Z.max 0 (Z.min ax (screen_width h - 1))) with 0 by lia.
    replace (Z.max 0 (Z.min ay (screen_height h - 1)))
      with (screen_height h - 1) by lia.
    by rewrite D.
Qed.

(** Witness of C4: the middle of a 960 x 540 view on the sample screen. *)
Lemma move_scales_truncates_and_clamps_witness :
  handle_mouse_move Sample.always Sample.desk "c1" 480 270 960 540 =
    match scale 480 960 (screen_width Sample.desk),
          scale 270 540 (screen_height Sample.desk) with
    | Ok ax, Ok ay =>
        let a := MoveTo (clamp ax (screen_width Sample.desk))
                   (clamp ay (screen_height Sample.desk)) in
        if Sample.always a then (true, [a]) else (false, [])
    | _, _ => (false, [])
    end
  ∧ (∀ a, a ∈ (handle_mouse_move Sample.always Sample.desk "c1" 480 270 960 540).2 →
          ∃ p, position a = Some p ∧ on_screen Sample.desk p)
  ∧ (960 = 0 ∨ 540 = 0 →
     handle_mouse_move Sample.always Sample.desk "c1" 480 270 960 540 = (false, []))
  ∧ (screen_width Sample.desk < 2 ^ 53 →
     screen_height Sample.desk < 2 ^ 53 →
     Sample.always (MoveTo 0 (screen_height Sample.desk - 1)) = true →
     handle_mouse_move Sample.always Sample.desk "c1" (-5)
       (screen_height Sample.desk + 5)
       (screen_width Sample.desk) (screen_height Sample.desk)
     = (true, [MoveTo 0 (screen_height Sample.desk - 1)]))
  ∧ handle_mouse_move Sample.always Sample.desk "c1" 123 39 1920 1080
    = (true, [MoveTo 122 38]).
Proof.
  apply (move_scales_truncates_and_clamps
           Sample.always Sample.desk "c1" 480 270 960 540).
  - vm_compute. set_solver.
  - vm_compute. discriminate.
  - vm_compute. discriminate.
Defined.

(** ** Scrolling *)

Lemma handle_mouse_scroll_authorized
    (delivers : InputAction → bool) (h : InputHandler.t) (id : string)
    (x y sw sh delta : Z) :
  id ∈ authorized_sessions h →
  handle_mouse_scroll delivers h id x y sw sh delta =
  match scale x sw (screen_width h), scale y sh (screen_height h) with
  | Ok ax, Ok ay =>
      let a := Scroll delta ax ay in
      if delivers a then (true, [a]) else (false, [])
  | _, _ => (false, [])
  end.
Proof.
  intros A. apply is_authorized_true in A.
  unfold handle_mouse_scroll, mouse_scroll_body, dispatch. rewrite A. simpl.
  destruct (scale x sw (screen_width h)) as [ax|]; simpl; [|done].
  destruct (scale y sh (screen_height h)) as [ay|]; simpl; [|done].
  by destruct (delivers _).
Qed.

Lemma attempt_dispatch (delivers : InputAction → bool) (a b : InputAction) :
  b ∈ (attempt (dispatch delivers a)).2 → b = a.
Proof.
  unfold attempt, dispatch. destruct (delivers a); simpl.
  - by intros ->%list_elem_of_singleton.
  - by intros ?%elem_of_nil.
Qed.

(** Whatever [handle_mouse_move] hands over lies on the screen. *)
Lemma move_on_screen
    (delivers : InputAction → bool) (h : InputHandler.t) (id : string)
    (x y sw sh : Z) (a : InputAction) :
  1 ≤ screen_width h → 1 ≤ screen_height h →
  a ∈ (handle_mouse_move delivers h id x y sw sh).2 →
  ∃ p, position a = Some p ∧ on_screen h p.
Proof.
  intros W H. unfold handle_mouse_move, rejected, mouse_move_body.
  destruct (is_authorized h id); simpl; [|by intros ?%elem_of_nil].
  destruct (scale x sw _) as [ax|]; simpl; [|by intros ?%elem_of_nil].
  destruct (scale y sh _) as [ay|]; simpl; [|by intros ?%elem_of_nil].
  intros ->%attempt_dispatch. eexists. split; [reflexivity|].
  split; simpl; by apply clamp_bounds.
Qed.

(** Whatever [handle_mouse_click] hands over lies on the screen. *)
Lemma click_on_screen
    (delivers : InputAction → bool) (h : InputHandler.t) (id : string)
    (x y sw sh : Z) (button click_type : string) (a : InputAction) :
  1 ≤ screen_width h → 1 ≤ screen_height h →
  a ∈ (handle_mouse_click delivers h id x y sw sh button click_type).2 →
  ∃ p, position a = Some p ∧ on_screen h p.
Proof.
  intros W H. unfold handle_mouse_click, rejected, mouse_click_body.
  destruct (is_authorized h id); simpl; [|by intros ?%elem_of_nil].
  destruct (scale x sw _) as [ax|]; simpl; [|by intros ?%elem_of_nil].
  destruct (scale y sh _) as [ay|]; simpl; [|by intros ?%elem_of_nil].
  pose proof (clamp_bounds ax _ W). pose proof (clamp_bounds ay _ H).
  repeat case_bool_decide;
    try (intros ->%attempt_dispatch; eexists; split; [reflexivity|]; by split).
  by intros ?%elem_of_nil.
Qed.

(** C10.  An authorized [handle_mouse_scroll] hands the scroll over at
    [int((x / sourceWidth) * localWidth)], [int((y / sourceHeight) *
    localHeight)]: the quotient of the two integers, the product with the
    local size and the cut towards zero, in binary64, with no clamping; it
    answers [False] when one of them raises or the operating system refuses.
    On the 1920 x 1080 sample screen: 2000 of 1000 scrolls at column 3840,
    off the screen, where [handle_mouse_move] and [handle_mouse_click] with
    the same arguments end at column 1919; (-5, 1085) of the screen's own
    size scrolls at (-5, 1085); (1, 1) of a 1000 x 1000 view scrolls at
    (1, 1), the products 1.92 and 1.08 being cut; (-7, 7) of a 3 x -3 view
    scrolls at (-4480, -2520); and a source width of 0 answers [False].
    Whatever [handle_mouse_move] and [handle_mouse_click] hand over lies on
    the screen. *)
Theorem scroll_is_not_clamped :
  (∀ delivers h id x y sw sh delta,
     id ∈ authorized_sessions h →
     handle_mouse_scroll delivers h id x y sw sh delta =
     match (q ← int_truediv x sw; p ← float_mul_int q (screen_width h);
            int_of_float p),
           (q ← int_truediv y sh; p ← float_mul_int q (screen_height h);
            int_of_float p) with
     | Ok ax, Ok ay =>
         if delivers (Scroll delta ax ay)
         then (true, [Scroll delta ax ay]) else (false, [])
     | _, _ => (false, [])
     end)
  ∧ (handle_mouse_scroll Sample.always Sample.desk "c1" 2000 500 1000 1000 3
     = (true, [Scroll 3 3840 540])
     ∧ handle_mouse_move Sample.always Sample.desk "c1" 2000 500 1000 1000
       = (true, [MoveTo 1919 540])
     ∧ handle_mouse_click Sample.always Sample.desk "c1" 2000 500 1000 1000
         "left" "single"
       = (true, [Click 1919 540 "left"])
     ∧ handle_mouse_scroll Sample.always Sample.desk "c1" (-5) 1085 1920 1080 3
       = (true, [Scroll 3 (-5) 1085])
     ∧ handle_mouse_scroll Sample.always Sample.desk "c1" 1 1 1000 1000 3
       = (true, [Scroll 3 1 1])
     ∧ handle_mouse_scroll Sample.always Sample.desk "c1" 123 39 1920 1080 (-2)
       = (true, [Scroll (-2) 122 38])
     ∧ handle_mouse_scroll Sample.always Sample.desk "c1" (-7) 7 3 (-3) 3
       = (true, [Scroll 3 (-4480) (-2520)])
     ∧ handle_mouse_scroll Sample.always Sample.desk "c1" 10 10 0 1000 3
       = (false, []))
  ∧ (∃ h id x y sw sh delta a p,
       id ∈ authorized_sessions h
       ∧ sw < x
       ∧ handle_mouse_scroll Sample.always h id x y sw sh delta = (true, [a])
       ∧ position a = Some p
       ∧ ¬ (0 ≤ p.1 ≤ screen_width h - 1)
       ∧ handle_mouse_move Sample.always h id x y sw sh
         = (true, [MoveTo (screen_width h - 1) p.2])
       ∧ handle_mouse_click Sample.always h id x y sw sh "left" "single"
         = (true, [Click (screen_width h - 1) p.2 "left"]))
  ∧ (∀ delivers h id x y sw sh button click_type a,
       1 ≤ screen_width h → 1 ≤ screen_height h →
       a ∈ (handle_mouse_move delivers h id x y sw sh).2
       ∨ a ∈ (handle_mouse_click delivers h id x y sw sh button click_type).2 →
       ∃ p, position a = Some p ∧ on_screen h p).
Proof.
  split; [|split; [|split]].
  - intros delivers h id x y sw sh delta A.
    by rewrite (handle_mouse_scroll_authorized _ _ _ _ _ _ _ _ A).
  - repeat split; vm_compute; reflexivity.
  - exists Sample.desk, "c1"%string, 2000, 500, 1000, 1000, 3,
      (Scroll 3 3840 540), (3840, 540).
    split; [vm_compute; set_solver|].
    split; [lia|].
    split; [vm_compute; reflexivity|].
    split; [reflexivity|].
    split; [vm_compute; intros [_ ?]; done|].
    split; vm_compute; reflexivity.
  - intros delivers h id x y sw sh button click_type a W H [M|C].
    + by eapply move_on_screen.
    + by eapply click_on_screen.
Qed.

(** ** Readers of the capture service *)

Import ScreenCapture Viewers.

Lemma running_add_client (c : ScreenCapture.t) (id : string) :
  running (add_client c id) = true.
Proof.
  unfold add_client, start_capture; simpl.
  destruct (running c) eqn:R; simpl; rewrite ?R; done.
Qed.

Lemma clients_add_client (c : ScreenCapture.t) (id : string) :
  clients (add_client c id) = {[id]} ∪ clients c.
Proof.
  unfold add_client, start_capture; simpl.
  destruct (running c) eqn:R; simpl; rewrite ?R; done.
Qed.

Lemma clients_remove_client (c : ScreenCapture.t) (id : string) :
  clients (remove_client c id) = clients c ∖ {[id]}.
Proof.
  unfold remove_client, stop_capture; simpl.
  by destruct (bool_decide _ && running c).
Qed.

Lemma running_remove_client (c : ScreenCapture.t) (id : string) :
  running (remove_client c id)
  = running c && negb (bool_decide (clients c ∖ {[id]} = ∅)).
Proof.
  unfold remove_client, stop_capture; simpl.
  case_bool_decide; destruct (running c) eqn:R; simpl; rewrite ?R; done.
Qed.

Lemma frame_data_add_client (c : ScreenCapture.t) (id : string) :
  frame_data (add_client c id) = frame_data c.
Proof.
  unfold add_client, start_capture; simpl.
  destruct (running c) eqn:R; simpl; rewrite ?R; done.
Qed.

Lemma frame_data_remove_client (c : ScreenCapture.t) (id : string) :
  frame_data (remove_client c id) = frame_data c.
Proof.
  unfold remove_client, stop_capture; simpl.
  by destruct (bool_decide _ && running c).
Qed.

Lemma counted_step (c : ScreenCapture.t) (e : Event) :
  counted c → counted (step c e).
Proof.
  unfold counted. intros I. destruct e as [id|id|o]; simpl.
  - rewrite running_add_client, clients_add_client. split; [|done].
    intros _. apply union_positive_l_alt_L, non_empty_singleton_L.
  - rewrite running_remove_client, clients_remove_client.
    rewrite andb_true_iff, negb_true_iff, bool_decide_eq_false.
    split; [tauto|]. intros N. split; [|done]. apply I.
    intros E. apply N. rewrite E. apply empty_difference_L.
  - destruct (loop_alive c); [|done].
    unfold capture_cycle. by destruct (capture o).
Qed.

Lemma counted_play (es : list Event) (c : ScreenCapture.t) :
  counted c → counted (play c es).
Proof.
  revert c. induction es as [|e es IH]; intros c I; [done|].
  apply (IH (step c e)). by apply counted_step.
Qed.

Lemma no_frame_play (es : list Event) (c : ScreenCapture.t) :
  Forall (λ e, completed e = false) es →
  frame_data c = None →
  frame_data (play c es) = None.
Proof.
  revert c. induction es as [|e es IH]; intros c F N; [done|].
  apply Forall_cons in F as [Fe F]. apply (IH (step c e) F).
  destruct e as [id|id|o]; simpl.
  - by rewrite frame_data_add_client.
  - by rewrite frame_data_remove_client.
  - destruct (loop_alive c); [|done].
    unfold capture_cycle. simpl in Fe. by destruct (capture o).
Qed.

Lemma fps_step (c : ScreenCapture.t) (e : Event) : fps (step c e) = fps c.
Proof.
  destruct e as [id|id|o]; simpl.
  - unfold add_client, start_capture; simpl.
    destruct (running c) eqn:R; simpl; rewrite ?R; done.
  - unfold remove_client, stop_capture; simpl.
    by destruct (bool_decide _ && running c).
  - destruct (loop_alive c); [|done].
    unfold capture_cycle. by destruct (capture o).
Qed.

Lemma fps_play (es : list Event) (c : ScreenCapture.t) : fps (play c es) = fps c.
Proof.
  revert c. induction es as [|e es IH]; intros c; [done|].
  change (play c (e :: es)) with (play (step c e) es).
  by rewrite IH, fps_step.
Qed.

(** C8.  [add_client] leaves the loop running, in particular from no
    reader; [remove_client] that takes the last reader away leaves it
    stopped; after any sequence of arrivals, departures and loop turns on a
    new [ScreenCapture] the [running] flag is set exactly when the set of
    readers is not empty (and, the frame time being computable, exactly then
    the thread takes turns); and as long as no turn has completed a capture,
    [get_frame] gives nothing. *)
Theorem capture_runs_iff_some_reader :
  (∀ c id, running (add_client c id) = true ∧ id ∈ clients (add_client c id))
  ∧ (∀ c id, clients c ∖ {[id]} = ∅ →
             running (remove_client c id) = false
             ∧ clients (remove_client c id) = ∅)
  ∧ (∀ q f es,
       running (play (ScreenCapture.init q f) es) = true
       ↔ clients (play (ScreenCapture.init q f) es) ≠ ∅)
  ∧ (∀ q f es ft,
       frame_time (ScreenCapture.init q f) = Ok ft →
       loop_alive (play (ScreenCapture.init q f) es) = true
       ↔ clients (play (ScreenCapture.init q f) es) ≠ ∅)
  ∧ (∀ q f es,
       Forall (λ e, completed e = false) es →
       get_frame (play (ScreenCapture.init q f) es) = None).
Proof.
  assert (I : ∀ q f es, counted (play (ScreenCapture.init q f) es)).
  { intros q f es. apply (counted_play es). unfold counted; simpl. done. }
  split; [|split; [|split; [|split]]].
  - intros c id. rewrite running_add_client, clients_add_client.
    split; [done|set_solver].
  - intros c id E. rewrite running_remove_client, clients_remove_client.
    split; [|done]. rewrite bool_decide_true by done. apply andb_false_r.
  - exact I.
  - intros q f es ft T. unfold loop_alive, frame_time in *.
    rewrite fps_play. simpl in *. rewrite T, andb_true_r. apply I.
  - intros q f es F. unfold get_frame. by apply no_frame_play.
Qed.

(** ** A failed capture *)

(** When the body of the [try] raises: in the grab, in the scaling of the
    size, or in the encoding. *)
Lemma capture_raises (o : Cycle) (e : exn) :
  capture o = Raise e ↔
  grabbed o = Raise e
  ∨ (∃ w h, grabbed o = Ok (w, h) ∧ target_size w h = Raise e)
  ∨ (∃ w h d, grabbed o = Ok (w, h) ∧ target_size w h = Ok d ∧ encoded o = Raise e).
Proof.
  unfold capture.
  destruct (grabbed o) as [[w h]|e1] eqn:G; simpl.
  - destruct (target_size w h) as [[fw fh]|e2] eqn:T; simpl.
    + destruct (encoded o) as [img|e3] eqn:C; simpl; split.
      * done.
      * intros [?|[(?&?&?&?)|(?&?&?&?&?&?)]]; simplify_eq; congruence.
      * intros [= ->]. right; right. by exists w, h, (fw, fh).
      * intros [?|[(?&?&?&?)|(?&?&?&?&?&?)]]; simplify_eq; congruence.
    + split.
      * intros [= ->]. right; left. by exists w, h.
      * intros [?|[(?&?&?&?)|(?&?&?&?&?&?)]]; simplify_eq; congruence.
  - split.
    + intros [= ->]. by left.
    + intros [?|[(?&?&?&?)|(?&?&?&?&?&?)]]; simplify_eq; congruence.
Qed.

(** C9.  When the capture of a turn raises, the turn logs the error and
    changes nothing: the stored frame, and what [get_frame] gives, are as
    before.  The loop does not end on it: while its thread is alive
    ([running] holds and the frame time could be computed) it goes on with
    the following turns from the same state, the log line of the failed turn
    being the only trace of it. *)
Theorem failed_capture_is_skipped (c : ScreenCapture.t) (o : Cycle) (e : exn) :
  capture o = Raise e →
  capture_cycle c o = (c, [LogError e])
  ∧ get_frame (capture_cycle c o).1 = get_frame c
  ∧ ∀ os,
      loop_alive c = true →
      ∃ c' l,
        _capture_loop c os = Ok (c', l)
        ∧ _capture_loop c (o :: os) = Ok (c', LogError e :: l).
Proof.
  intros R.
  assert (E : capture_cycle c o = (c, [LogError e])).
  { unfold capture_cycle. by rewrite R. }
  split; [done|]. split; [by rewrite E|].
  intros os [Run F]%andb_true_iff.
  unfold _capture_loop. destruct (frame_time c) as [ft|]; [|done]. simpl.
  rewrite Run, E. destruct (turns c os) as [c2 l2]. by exists c2, l2.
Qed.

(** Witness of C9: a turn whose grab raises, with one reader watching at 15
    frames per second. *)
Lemma failed_capture_is_skipped_witness :
  capture_cycle Sample.watching Sample.bad_turn = (Sample.watching, [LogError ExternalError])
  ∧ get_frame (capture_cycle Sample.watching Sample.bad_turn).1
    = get_frame Sample.watching
  ∧ ∀ os,
      loop_alive Sample.watching = true →
      ∃ c' l,
        _capture_loop Sample.watching os = Ok (c', l)
        ∧ _capture_loop Sample.watching (Sample.bad_turn :: os)
          = Ok (c', LogError ExternalError :: l).
Proof.
  apply (failed_capture_is_skipped Sample.watching Sample.bad_turn ExternalError).
  reflexivity.
Defined.

(** After the failed turn the next good turn stores its frame, scaled from
    2560 x 1440 to 1920 x 1080; a loop started with a frame rate of 0 ends
    at once. *)
Example good_turn_after_failed_turn :
  loop_alive Sample.watching = true
  ∧ _capture_loop Sample.watching [Sample.bad_turn]
    = Ok (Sample.watching, [LogError ExternalError])
  ∧ get_frame Sample.watching = None
  ∧ (∃ c, _capture_loop Sample.watching [Sample.bad_turn; Sample.good_turn]
          = Ok (c, [LogError ExternalError])
          ∧ get_frame c = Some Sample.good_frame)
  ∧ _capture_loop (add_client (ScreenCapture.init 70 0) "c1") [Sample.good_turn]
    = Raise ZeroDivisionError.
Proof.
  split; [vm_compute; reflexivity|].
  split; [vm_compute; reflexivity|].
  split; [reflexivity|].
  split; [|vm_compute; reflexivity].
  eexists. split; vm_compute; reflexivity.
Qed.

(** * Further properties of the registry, the handlers and the application *)
(** ** What a call leaves alone *)

Lemma same_identity_refl (s : RemoteSession.t) : same_identity s s.
Proof. by repeat split. Qed.

Lemma same_identity_close (s : RemoteSession.t) : same_identity s (close s).
Proof. by repeat split. Qed.

Lemma call_absent (m : SessionManager.t) (c : Call) (now : Z) (id : string) :
  sessions m !! id = None →
  creates c ≠ Some id →
  sessions (call m c now) !! id = None.
Proof.
  intros E N. destruct c as [t u st f|i tok|i tok|i|i|i|i|i|]; simpl.
  - unfold create_session; simpl. simpl in N.
    rewrite lookup_insert_ne by congruence.
    destruct (ticket_sessions m !! t) as [old|]; [|done].
    unfold close_session. destruct (sessions m !! old) as [so|] eqn:Eo; simpl; [|done].
    rewrite lookup_insert_ne; [done | congruence].
  - unfold authenticate_user, get_session.
    destruct (sessions m !! i) as [s|] eqn:Ei; [|done].
    destruct (is_valid s now); [|done]. case_bool_decide; [|done]. simpl.
    rewrite lookup_insert_ne; [done | congruence].
  - unfold authenticate_it_staff, get_session.
    destruct (sessions m !! i) as [s|] eqn:Ei; [|done].
    destruct (is_valid s now); [|done]. case_bool_decide; [|done]. simpl.
    rewrite lookup_insert_ne; [done | congruence].
  - unfold activate_session, get_session.
    destruct (sessions m !! i) as [s|] eqn:Ei; [|done].
    destruct (is_valid s now); [|done].
    destruct (user_connected s && it_connected s); [|done]. simpl.
    rewrite lookup_insert_ne; [done | congruence].
  - unfold disconnect_user, get_session.
    destruct (sessions m !! i) as [s|] eqn:Ei; [|done].
    destruct (is_valid s now); [|done]. simpl.
    rewrite lookup_insert_ne; [done | congruence].
  - unfold disconnect_it_staff, get_session.
    destruct (sessions m !! i) as [s|] eqn:Ei; [|done].
    destruct (is_valid s now); [|done]. simpl.
    rewrite lookup_insert_ne; [done | congruence].
  - unfold update_session_activity, get_session.
    destruct (sessions m !! i) as [s|] eqn:Ei; [|done].
    destruct (is_valid s now); [|done]. simpl.
    rewrite lookup_insert_ne; [done | congruence].
  - unfold close_session.
    destruct (sessions m !! i) as [s|] eqn:Ei; [|done]. simpl.
    rewrite lookup_insert_ne; [done | congruence].
  - unfold cleanup_expired_sessions. rewrite foldl_reap_sessions. by case_decide.
Qed.

Lemma elem_of_expired_sessions (m : SessionManager.t) (now : Z) (id : string) :
  id ∈ expired_sessions m now ↔
  ∃ s, sessions m !! id = Some s ∧ is_expired s now = true.
Proof.
  unfold expired_sessions. rewrite list_elem_of_fmap. split.
  - intros ([i s] & -> & [Hx Hs%elem_of_map_to_list]%list_elem_of_filter).
    by exists s.
  - intros (s & Hs & Hx). exists (id, s). split; [done|].
    apply list_elem_of_filter. split; [done|]. by apply elem_of_map_to_list.
Qed.

(** What the sweep leaves in the registry: the unexpired entries, each as
    it was. *)
Lemma cleanup_sessions (m : SessionManager.t) (now : Z) (id : string) :
  sessions (cleanup_expired_sessions m now) !! id =
  match sessions m !! id with
  | Some s => if is_expired s now then None else Some s
  | None => None
  end.
Proof.
  unfold cleanup_expired_sessions. rewrite foldl_reap_sessions.
  destruct (decide (id ∈ expired_sessions m now)) as [H|H].
  - apply elem_of_expired_sessions in H as (s & -> & ->). done.
  - destruct (sessions m !! id) as [s|] eqn:E; [|done].
    destruct (is_expired s now) eqn:X; [|done].
    destruct H. apply elem_of_expired_sessions. by exists s.
Qed.

(** The session stored under [id] after a call that does not create under
    [id]: gone, or one of the few rewritings of the session stored before. *)
Lemma call_stored (m : SessionManager.t) (c : Call) (now : Z) (id : string)
    (s : RemoteSession.t) :
  sessions m !! id = Some s →
  creates c ≠ Some id →
  (sessions (call m c now) !! id = None
   ∧ c = CleanupExpiredSessions ∧ is_expired s now = true)
  ∨ sessions (call m c now) !! id = Some s
  ∨ sessions (call m c now) !! id = Some (close s)
  ∨ (is_valid s now = true ∧
     ∃ again s', sessions (call m c now) !! id = Some s'
           ∧ s' ∈ [update_activity (set_user_connected true s) now;
                   update_activity (set_it_connected true s) now;
                   (activate s again).1;
                   demote (set_user_connected false s);
                   demote (set_it_connected false s);
                   update_activity s now]).
Proof.
  intros E N.
  assert (G : ∀ i so, get_session m i now = Some so → i = id → so = s ∧ is_valid s now = true).
  { intros i so [Ei V]%get_session_Some ->. split; congruence. }
  destruct c as [t u st f|i tok|i tok|i again|i|i|i|i|]; simpl.
  - unfold create_session; simpl. simpl in N.
    rewrite lookup_insert_ne by congruence.
    destruct (ticket_sessions m !! t) as [old|]; [|by right; left].
    unfold close_session. destruct (sessions m !! old) as [so|] eqn:Eo; simpl;
      [|by right; left].
    destruct (decide (old = id)) as [->|D].
    + rewrite lookup_insert_eq. right; right; left. congruence.
    + rewrite lookup_insert_ne by done. by right; left.
  - unfold authenticate_user.
    destruct (get_session m i now) as [so|] eqn:Gi; [|by right; left].
    case_bool_decide; [|by right; left]. simpl.
    destruct (decide (i = id)) as [D|D].
    + destruct (G _ _ Gi D) as [-> V]. subst i. rewrite lookup_insert_eq.
      right; right; right. split; [done|]. exists now. eexists. split; [done|]. repeat constructor.
    + rewrite lookup_insert_ne by done. by right; left.
  - unfold authenticate_it_staff.
    destruct (get_session m i now) as [so|] eqn:Gi; [|by right; left].
    case_bool_decide; [|by right; left]. simpl.
    destruct (decide (i = id)) as [D|D].
    + destruct (G _ _ Gi D) as [-> V]. subst i. rewrite lookup_insert_eq.
      right; right; right. split; [done|]. exists now. eexists. split; [done|]. repeat constructor.
    + rewrite lookup_insert_ne by done. by right; left.
  - unfold activate_session.
    destruct (get_session m i now) as [so|] eqn:Gi; [|by right; left].
    destruct (user_connected so && it_connected so); [|by right; left]. simpl.
    destruct (decide (i = id)) as [D|D].
    + destruct (G _ _ Gi D) as [-> V]. subst i. rewrite lookup_insert_eq.
      right; right; right. split; [done|]. exists again. eexists. split; [done|]. repeat constructor.
    + rewrite lookup_insert_ne by done. by right; left.
  - unfold disconnect_user.
    destruct (get_session m i now) as [so|] eqn:Gi; [|by right; left]. simpl.
    destruct (decide (i = id)) as [D|D].
    + destruct (G _ _ Gi D) as [-> V]. subst i. rewrite lookup_insert_eq.
      right; right; right. split; [done|]. exists now. eexists. split; [done|]. repeat constructor.
    + rewrite lookup_insert_ne by done. by right; left.
  - unfold disconnect_it_staff.
    destruct (get_session m i now) as [so|] eqn:Gi; [|by right; left]. simpl.
    destruct (decide (i = id)) as [D|D].
    + destruct (G _ _ Gi D) as [-> V]. subst i. rewrite lookup_insert_eq.
      right; right; right. split; [done|]. exists now. eexists. split; [done|]. repeat constructor.
    + rewrite lookup_insert_ne by done. by right; left.
  - unfold update_session_activity.
    destruct (get_session m i now) as [so|] eqn:Gi; [|by right; left]. simpl.
    destruct (decide (i = id)) as [D|D].
    + destruct (G _ _ Gi D) as [-> V]. subst i. rewrite lookup_insert_eq.
      right; right; right. split; [done|]. exists now. eexists. split; [done|]. repeat constructor.
    + rewrite lookup_insert_ne by done. by right; left.
  - unfold close_session.
    destruct (sessions m !! i) as [so|] eqn:Ei; [|by right; left]. simpl.
    destruct (decide (i = id)) as [->|D].
    + rewrite lookup_insert_eq. right; right; left. congruence.
    + rewrite lookup_insert_ne by done. by right; left.
  - rewrite cleanup_sessions, E.
    destruct (is_expired s now) eqn:X; [by left | by right; left].
Qed.

Lemma call_evolves (m : SessionManager.t) (c : Call) (now : Z) (id : string)
    (s s' : RemoteSession.t) :
  sessions m !! id = Some s →
  creates c ≠ Some id →
  sessions (call m c now) !! id = Some s' →
  same_identity s s' ∧ (status s = closed → status s' = closed).
Proof.
  intros E N E'.
  destruct (call_stored m c now id s E N)
    as [(H & _)|[H|[H|(V & ag & s1 & H & M)]]]; rewrite H in E'; try done.
  - injection E' as <-. split; [apply same_identity_refl | done].
  - injection E' as <-. split; [apply same_identity_close | done].
  - injection E' as <-.
    assert (C : status s ≠ closed).
    { unfold is_valid in V. apply andb_true_iff in V as [_ V].
      by apply negb_true_iff, bool_decide_eq_false in V. }
    unfold activate in M. unfold demote in M.
    split; [|intros ?; by destruct C].
    repeat (apply elem_of_cons in M as [->|M]); [..|by apply elem_of_nil in M];
      unfold demote; try case_bool_decide; try destruct (is_valid s ag);
      by repeat split.
Qed.

(** X1.  No call of the registry changes the id, the ticket, the two names,
    the creation and expiry times, the two tokens or the connection key of a
    stored session: as long as the session is stored under its id (and no
    creation draws that same id again), only its status, its two connected
    flags and the time of its last activity can differ. *)
Theorem call_keeps_identity (m : SessionManager.t) (c : Call) (now : Z)
    (id : string) (s s' : RemoteSession.t) :
  sessions m !! id = Some s →
  creates c ≠ Some id →
  sessions (call m c now) !! id = Some s' →
  same_identity s s'.
Proof. intros E N E'. by destruct (call_evolves m c now id s s' E N E'). Qed.

(** Witness of X1: the user of the sample session authenticates. *)
Lemma call_keeps_identity_witness :
  same_identity Sample.first_session
    (update_activity (set_user_connected true Sample.first_session) 5).
Proof.
  apply (call_keeps_identity Sample.one_session (AuthenticateUser "s1" "u1") 5 "s1").
  - vm_compute. reflexivity.
  - discriminate.
  - vm_compute. reflexivity.
Defined.

(** The calls of a history that could store a new session under [id]. *)
Lemma run_cons (m : SessionManager.t) (c : Call) (now : Z) (cs : list (Call * Z)) :
  run m ((c, now) :: cs) = run (call m c now) cs.
Proof. done. Qed.

Lemma run_absent (cs : list (Call * Z)) (m : SessionManager.t) (id : string) :
  sessions m !! id = None →
  Forall (λ cn, creates cn.1 ≠ Some id) cs →
  sessions (run m cs) !! id = None.
Proof.
  revert m. induction cs as [|[c t] cs IH]; intros m E F; [done|].
  apply Forall_cons in F as [N F]. rewrite run_cons.
  apply IH; [|done]. by apply call_absent.
Qed.

(** X2.  What [get_session] refuses it refuses for good: once a stored
    session is closed, or the clock value asked about lies after its
    [expires_at], no later history of calls makes [get_session] find it at
    that clock value (a creation that draws the same id again aside).  In
    particular no call extends the life of a session. *)
Theorem not_found_after (cs : list (Call * Z)) (m : SessionManager.t) (id : string)
    (s : RemoteSession.t) (now : Z) :
  sessions m !! id = Some s →
  status s = closed ∨ expires_at s < now →
  Forall (λ cn, creates cn.1 ≠ Some id) cs →
  get_session (run m cs) id now = None.
Proof.
  revert m s. induction cs as [|[c t] cs IH]; intros m s E D F.
  - by apply (not_live_get_session m id now s).
  - apply Forall_cons in F as [N F]. simpl in N. rewrite run_cons.
    destruct (sessions (call m c t) !! id) as [s'|] eqn:E'.
    + destruct (call_evolves m c t id s s' E N E') as [I C].
      apply (IH _ s' E'); [|done].
      destruct D as [D|D]; [left; auto|right].
      destruct I as (_ & _ & _ & _ & _ & -> & _). done.
    + unfold get_session. by rewrite (run_absent cs _ id E' F).
Qed.

(** Witness of X2: the sample session, three hours after its creation,
    after both parties have tried to authenticate and activate in time. *)
Lemma not_found_after_witness :
  get_session (run Sample.one_session Sample.busy) "s1" (3 * Sample.hour) = None.
Proof.
  apply (not_found_after Sample.busy Sample.one_session "s1" Sample.first_session).
  - vm_compute. reflexivity.
  - right. vm_compute. reflexivity.
  - repeat constructor; discriminate.
Defined.

(** ** Invariants of the two dictionaries *)

Lemma call_created (m : SessionManager.t) (c : Call) (now : Z) (id : string) :
  creates c = Some id →
  ∃ s, sessions (call m c now) !! id = Some s ∧ session_id s = id.
Proof.
  destruct c as [t u st f| | | | | | | |]; try done. intros [= <-].
  eexists. split; [apply lookup_insert_eq | done].
Qed.

Lemma keyed_call (m : SessionManager.t) (c : Call) (now : Z) :
  map_Forall (λ id s, session_id s = id) (sessions m) →
  map_Forall (λ id s, session_id s = id) (sessions (call m c now)).
Proof.
  intros K id s' E'.
  destruct (decide (creates c = Some id)) as [C|C].
  - destruct (call_created m c now id C) as (s & E & <-). congruence.
  - destruct (sessions m !! id) as [s|] eqn:E.
    + destruct (call_evolves m c now id s s' E C E') as [(-> & _) _].
      by apply (K id s).
    + rewrite (call_absent m c now id E C) in E'. done.
Qed.

Lemma keyed_run (cs : list (Call * Z)) :
  map_Forall (λ id s, session_id s = id)
    (sessions (run SessionManager.init cs)).
Proof.
  induction cs as [|[c now] cs IH] using rev_ind.
  - apply map_Forall_empty.
  - rewrite run_snoc. by apply keyed_call.
Qed.

(** X3.  Along every history of calls from the empty registry, a session
    found under an id carries that id as its [session_id]: the key of the
    dictionary and the attribute never part. *)
Theorem sessions_keyed_by_their_id (cs : list (Call * Z)) (id : string)
    (s : RemoteSession.t) :
  sessions (run SessionManager.init cs) !! id = Some s →
  session_id s = id.
Proof. apply keyed_run. Qed.

(** Witness of X3: the second session after the late sweep. *)
Lemma sessions_keyed_by_their_id_witness :
  sessions (run SessionManager.init Sample.late_sweep) !! "s2"
    = Some Sample.second_session
  ∧ session_id Sample.second_session = "s2"%string.
Proof.
  assert (E : sessions (run SessionManager.init Sample.late_sweep) !! "s2"
              = Some Sample.second_session) by (vm_compute; reflexivity).
  split; [exact E|].
  exact (sessions_keyed_by_their_id Sample.late_sweep "s2" Sample.second_session E).
Defined.

Lemma status_variant (s s' : RemoteSession.t) (now again : Z) :
  is_valid s now = true →
  s' ∈ [update_activity (set_user_connected true s) now;
        update_activity (set_it_connected true s) now;
        (activate s again).1;
        demote (set_user_connected false s);
        demote (set_it_connected false s);
        update_activity s now] →
  ticket_id s' = ticket_id s ∧ status s' ≠ closed.
Proof.
  intros V M.
  assert (C : status s ≠ closed).
  { unfold is_valid in V. apply andb_true_iff in V as [_ V].
    by apply negb_true_iff, bool_decide_eq_false in V. }
  unfold activate in M. unfold demote in M.
  repeat (apply elem_of_cons in M as [->|M]); [..|by apply elem_of_nil in M];
    try case_bool_decide; try destruct (is_valid s again); by split.
Qed.

Lemma sound_reap (m : SessionManager.t) (i : string) :
  ticket_map_sound m → ticket_map_sound (reap m i).
Proof.
  intros J t id T. rewrite reap_ticket_sessions in T.
  rewrite reap_sessions.
  destruct (sessions m !! i) as [s|] eqn:E.
  - apply lookup_delete_Some in T as [D T].
    destruct (J t id T) as (s' & E' & <- & C).
    destruct (decide (i = id)) as [->|N]; [congruence|]. by exists s'.
  - destruct (J t id T) as (s' & E' & <- & C).
    destruct (decide (i = id)) as [->|N]; [congruence|]. by exists s'.
Qed.

Lemma sound_sweep (l : list string) (m : SessionManager.t) :
  ticket_map_sound m → ticket_map_sound (foldl reap m l).
Proof.
  revert m. induction l as [|i l IH]; intros m J; [done|].
  simpl. apply IH. by apply sound_reap.
Qed.

Lemma sound_call (m : SessionManager.t) (c : Call) (now : Z) :
  (∀ id, creates c = Some id → sessions m !! id = None) →
  ticket_map_sound m → ticket_map_sound (call m c now).
Proof.
  intros F J.
  assert (W : ∀ i s1,
    (∃ s, sessions m !! i = Some s ∧ ticket_id s1 = ticket_id s ∧ status s1 ≠ closed) →
    ticket_map_sound (store m i s1)).
  { intros i s1 (s & E & Tk & C) t id T. simpl in T.
    destruct (J t id T) as (s' & E' & <- & C'). rewrite lookup_store.
    destruct (decide (i = id)) as [->|N]; [|by exists s'].
    exists s1. split; [done|]. split; [|done]. congruence. }
  assert (G : ∀ i so s1 again, get_session m i now = Some so →
    s1 ∈ [update_activity (set_user_connected true so) now;
          update_activity (set_it_connected true so) now;
          (activate so again).1;
          demote (set_user_connected false so);
          demote (set_it_connected false so);
          update_activity so now] →
    ticket_map_sound (store m i s1)).
  { intros i so s1 again [E V]%get_session_Some M. apply W. exists so.
    destruct (status_variant so s1 now again V M). done. }
  destruct c as [t u st f|i tok|i tok|i again|i|i|i|i|]; simpl.
  - specialize (F (uuid4 f) eq_refl).
    intros t' id T. unfold create_session in *; simpl in *.
    destruct (decide (t = t')) as [<-|Nt].
    + rewrite lookup_insert_eq in T. injection T as <-.
      rewrite lookup_insert_eq. by eexists.
    + rewrite lookup_insert_ne in T by done.
      destruct (ticket_sessions m !! t) as [old|] eqn:To.
      * destruct (J t old To) as (so & Eo & Tko & Co).
        unfold close_session in *. rewrite Eo in *. simpl in *.
        apply lookup_delete_Some in T as [D T].
        destruct (J t' id T) as (s' & E' & Tk' & C').
        rewrite lookup_insert_ne by congruence.
        rewrite lookup_insert_ne by congruence. by exists s'.
      * destruct (J t' id T) as (s' & E' & Tk' & C').
        rewrite lookup_insert_ne by congruence. by exists s'.
  - unfold authenticate_user.
    destruct (get_session m i now) as [so|] eqn:Gi; [|done].
    case_bool_decide; [|done]. simpl. apply (G i so _ now); [done|]. repeat constructor.
  - unfold authenticate_it_staff.
    destruct (get_session m i now) as [so|] eqn:Gi; [|done].
    case_bool_decide; [|done]. simpl. apply (G i so _ now); [done|]. repeat constructor.
  - unfold activate_session.
    destruct (get_session m i now) as [so|] eqn:Gi; [|done].
    destruct (user_connected so && it_connected so); [|done]. simpl.
    apply (G i so _ again); [done|]. repeat constructor.
  - unfold disconnect_user.
    destruct (get_session m i now) as [so|] eqn:Gi; [|done].
    apply (G i so _ now); [done|]. repeat constructor.
  - unfold disconnect_it_staff.
    destruct (get_session m i now) as [so|] eqn:Gi; [|done].
    apply (G i so _ now); [done|]. repeat constructor.
  - unfold update_session_activity.
    destruct (get_session m i now) as [so|] eqn:Gi; [|done].
    apply (G i so _ now); [done|]. repeat constructor.
  - unfold close_session.
    destruct (sessions m !! i) as [s|] eqn:E; [|done]. simpl.
    intros t id T. simpl in *.
    apply lookup_delete_Some in T as [D T].
    destruct (J t id T) as (s' & E' & <- & C).
    rewrite lookup_insert_ne by congruence. by exists s'.
  - by apply sound_sweep.
Qed.

Lemma sound_init : ticket_map_sound SessionManager.init.
Proof. intros t id T. simpl in T. by rewrite lookup_empty in T. Qed.

Lemma sound_run (cs : list (Call * Z)) (m : SessionManager.t) :
  ticket_map_sound m → fresh_history m cs → ticket_map_sound (run m cs).
Proof.
  revert m. induction cs as [|[c now] cs IH]; intros m J F; [done|].
  destruct F as [F1 F2]. rewrite run_cons. apply IH; [|done].
  by apply sound_call.
Qed.

(** X4.  Along every history from the empty registry whose creations draw
    unused ids, each entry of the ticket dictionary names a session that is
    stored, belongs to that ticket and is not closed: the dictionary never
    points at a closed session or at a session of another ticket. *)
Theorem ticket_entries_name_open_sessions (cs : list (Call * Z)) :
  fresh_history SessionManager.init cs →
  ticket_map_sound (run SessionManager.init cs).
Proof. apply sound_run, sound_init. Qed.

(** Witness of X4: the history of the sample with the late sweep. *)
Lemma ticket_entries_name_open_sessions_witness :
  fresh_history SessionManager.init Sample.late_sweep
  ∧ ticket_map_sound (run SessionManager.init Sample.late_sweep).
Proof.
  assert (F : fresh_history SessionManager.init Sample.late_sweep).
  { simpl. repeat split; intros id [= <-]; vm_compute; reflexivity. }
  split; [exact F|].
  exact (ticket_entries_name_open_sessions Sample.late_sweep F).
Defined.

(** ** The sweep, closing and the statistics *)

Lemma reap_tickets_subseteq (l : list string) (m : SessionManager.t) :
  ticket_sessions (foldl reap m l) ⊆ ticket_sessions m.
Proof.
  revert m. induction l as [|i l IH]; intros m; [done|].
  simpl. etrans; [apply IH|]. rewrite reap_ticket_sessions.
  destruct (sessions m !! i); [apply delete_subseteq | done].
Qed.

(** X5.  After [cleanup_expired_sessions] the registry holds exactly the
    sessions that have not expired, each as it was; the ticket dictionary
    has lost entries at most; and a second sweep at the same clock value
    changes nothing. *)
Theorem sweep_removes_exactly_the_expired (m : SessionManager.t) (now : Z) :
  (∀ id,
     sessions (cleanup_expired_sessions m now) !! id =
     match sessions m !! id with
     | Some s => if is_expired s now then None else Some s
     | None => None
     end)
  ∧ ticket_sessions (cleanup_expired_sessions m now) ⊆ ticket_sessions m
  ∧ cleanup_expired_sessions (cleanup_expired_sessions m now) now
    = cleanup_expired_sessions m now.
Proof.
  split; [apply cleanup_sessions|]. split; [apply reap_tickets_subseteq|].
  assert (N : expired_sessions (cleanup_expired_sessions m now) now = []).
  { apply elem_of_nil_inv. intros id (s & E & X)%elem_of_expired_sessions.
    rewrite cleanup_sessions in E.
    destruct (sessions m !! id) as [s0|]; [|done].
    destruct (is_expired s0 now) eqn:X0; [done|]. congruence. }
  unfold cleanup_expired_sessions at 1. by rewrite N.
Qed.

(** X6.  [close_session] answers [True] exactly when the id is stored,
    closed and expired sessions included; afterwards [get_session] on the id
    gives nothing at any clock value, and every other session is as it
    was. *)
Theorem close_session_is_final (m : SessionManager.t) (id : string) :
  ((close_session m id).2 = true ↔ is_Some (sessions m !! id))
  ∧ (∀ now, get_session (close_session m id).1 id now = None)
  ∧ (∀ j, j ≠ id →
          sessions (close_session m id).1 !! j = sessions m !! j).
Proof.
  unfold close_session. destruct (sessions m !! id) as [s|] eqn:E; simpl.
  - split; [by split; [eauto|]|]. split.
    + intros now. apply (not_live_get_session _ id now (close s)); [|by left].
      simpl. apply lookup_insert_eq.
    + intros j N. by rewrite lookup_insert_ne.
  - split; [split; [done | by intros [? ?]]|]. split; [|done].
    intros now. unfold get_session. by rewrite E.
Qed.

Lemma count_by_status (l : list RemoteSession.t) :
  length l =
  (length (filter (λ s, status s = active) l)
   + length (filter (λ s, status s = pending) l)
   + length (filter (λ s, status s = closed) l))%nat.
Proof.
  induction l as [|s l IH]; [done|].
  rewrite !filter_cons. simpl. rewrite IH.
  destruct (status s); repeat case_decide; try done; simpl; lia.
Qed.

(** X7.  In the dictionary of [get_session_stats] the total is the sum of
    the active, pending and closed counts; expired sessions that have not
    been swept are counted under their status. *)
Theorem session_stats_add_up (m : SessionManager.t) :
  total_sessions (get_session_stats m) =
  (active_sessions (get_session_stats m)
   + pending_sessions (get_session_stats m)
   + closed_sessions (get_session_stats m))%nat.
Proof.
  unfold get_session_stats; simpl.
  rewrite <- count_by_status. unfold stored.
  by rewrite length_fmap, length_map_to_list.
Qed.

(** ** From creation to activation *)

Lemma is_valid_init (f : Fresh) (ticket : Z) (user staff : string) (t0 now : Z) :
  now ≤ t0 + two_hours →
  is_valid (RemoteSession.init f ticket user staff t0) now = true.
Proof.
  intros B. unfold is_valid, is_expired; simpl.
  apply andb_true_intro. split; [|done].
  apply negb_true_iff, Z.ltb_ge. lia.
Qed.




(** ** Disconnecting *)

(** X9.  When one party of a live session is disconnected, the session is
    stored without that party's flag and never as active, and
    [activate_session] answers [False] at every clock value and changes
    nothing until that party authenticates again; the other party's flag and
    the time of the last activity stay as they were. *)
Theorem disconnect_blocks_activation (m : SessionManager.t) (id : string)
    (now : Z) (s : RemoteSession.t) :
  get_session m id now = Some s →
  let mu := disconnect_user m id now in
  let mi := disconnect_it_staff m id now in
  sessions mu !! id = Some (demote (set_user_connected false s))
  ∧ sessions mi !! id = Some (demote (set_it_connected false s))
  ∧ status (demote (set_user_connected false s)) ≠ active
  ∧ status (demote (set_it_connected false s)) ≠ active
  ∧ it_connected (demote (set_user_connected false s)) = it_connected s
  ∧ user_connected (demote (set_it_connected false s)) = user_connected s
  ∧ last_activity (demote (set_user_connected false s)) = last_activity s
  ∧ last_activity (demote (set_it_connected false s)) = last_activity s
  ∧ (∀ now' again, activate_session mu id now' again = (mu, false))
  ∧ (∀ now' again, activate_session mi id now' again = (mi, false)).
Proof.
  intros G mu mi.
  assert (Eu : sessions mu !! id = Some (demote (set_user_connected false s))).
  { unfold mu, disconnect_user. rewrite G. simpl. apply lookup_insert_eq. }
  assert (Ei : sessions mi !! id = Some (demote (set_it_connected false s))).
  { unfold mi, disconnect_it_staff. rewrite G. simpl. apply lookup_insert_eq. }
  split; [exact Eu|]. split; [exact Ei|].
  split; [unfold demote; case_bool_decide; simpl in *; congruence|].
  split; [unfold demote; case_bool_decide; simpl in *; congruence|].
  split; [unfold demote; by case_bool_decide|].
  split; [unfold demote; by case_bool_decide|].
  split; [unfold demote; by case_bool_decide|].
  split; [unfold demote; by case_bool_decide|].
  split.
  - intros now' again. unfold activate_session, get_session. rewrite Eu.
    destruct (is_valid _ now'); [|done].
    unfold demote; by case_bool_decide.
  - intros now' again. unfold activate_session, get_session. rewrite Ei.
    destruct (is_valid _ now'); [|done].
    unfold demote; case_bool_decide; simpl; by rewrite andb_false_r.
Qed.

(** Witness of X9: the registry of the sample after both parties have
    joined and the session has been activated and used; the user leaves. *)
Lemma disconnect_blocks_activation_witness :
  get_session (run Sample.one_session Sample.busy) "s1" (Sample.hour + 1)
  = Some (set_last_activity Sample.hour
            (set_status active
               (set_it_connected true
                  (set_user_connected true Sample.first_session))))
  ∧ activate_session
      (disconnect_user (run Sample.one_session Sample.busy) "s1" (Sample.hour + 1))
      "s1" (Sample.hour + 2) (Sample.hour + 3)
    = (disconnect_user (run Sample.one_session Sample.busy) "s1" (Sample.hour + 1),
       false).
Proof.
  assert (G : get_session (run Sample.one_session Sample.busy) "s1" (Sample.hour + 1)
              = Some (set_last_activity Sample.hour
                        (set_status active
                           (set_it_connected true
                              (set_user_connected true Sample.first_session)))))
    by (vm_compute; reflexivity).
  split; [exact G|].
  exact (proj1 (proj2 (proj2 (proj2 (proj2 (proj2 (proj2 (proj2 (proj2
           (disconnect_blocks_activation _ _ _ _ G)))))))))
         (Sample.hour + 2) (Sample.hour + 3)).
Defined.

(** ** Looking a session up by its ticket *)

(** X10.  Along a history from the empty registry whose creations draw
    unused ids, what [get_session_by_ticket] finds for a ticket is a session
    of that ticket, neither closed nor expired, stored under its own id, and
    the one [get_session] finds under that id. *)
Theorem by_ticket_finds_session_of_ticket (cs : list (Call * Z)) (ticket : Z)
    (now : Z) (s : RemoteSession.t) :
  fresh_history SessionManager.init cs →
  get_session_by_ticket (run SessionManager.init cs) ticket now = Some s →
  ticket_id s = ticket
  ∧ is_valid s now = true
  ∧ ticket_sessions (run SessionManager.init cs) !! ticket = Some (session_id s)
  ∧ get_session (run SessionManager.init cs) (session_id s) now = Some s.
Proof.
  intros F G. unfold get_session_by_ticket in G.
  destruct (ticket_sessions _ !! ticket) as [id|] eqn:T; [|done].
  case_bool_decide; [done|].
  pose proof (sound_run cs _ sound_init F ticket id T) as (s' & E & K & _).
  pose proof G as G'. apply get_session_Some in G' as [E' V].
  assert (s' = s) as -> by congruence.
  pose proof (keyed_run cs id s E) as I. simpl in I.
  rewrite I. by repeat split.
Qed.

(** Witness of X10: ticket 7 after the late sweep of the sample, once a
    third session has been made for it. *)
Lemma by_ticket_finds_session_of_ticket_witness :
  fresh_history SessionManager.init
    (Sample.late_sweep ++ [(CreateSession 7 "alice" "bob" Sample.fresh3,
                            2 * Sample.hour + 2)])
  ∧ ticket_id Sample.third_session = 7.
Proof.
  assert (F : fresh_history SessionManager.init
                (Sample.late_sweep ++ [(CreateSession 7 "alice" "bob" Sample.fresh3,
                                        2 * Sample.hour + 2)])).
  { simpl. repeat split; intros id [= <-]; vm_compute; reflexivity. }
  split; [exact F|].
  refine (proj1 (by_ticket_finds_session_of_ticket _ 7 (3 * Sample.hour)
                   Sample.third_session F _)).
  vm_compute. reflexivity.
Defined.

(** X11.  The lookup by ticket right after a creation: when the id drawn is
    not the empty string, [get_session_by_ticket] on the ticket gives the
    new session at every clock value within its two hours, whatever the
    registry held before. *)
Theorem by_ticket_after_create (m : SessionManager.t) (ticket : Z)
    (user staff : string) (f : Fresh) (t0 now : Z) :
  uuid4 f ≠ EmptyString →
  now ≤ t0 + two_hours →
  get_session_by_ticket (create_session m ticket user staff t0 f).1 ticket now
  = Some (create_session m ticket user staff t0 f).2.
Proof.
  intros N B. unfold get_session_by_ticket, get_session, create_session.
  simpl. rewrite lookup_insert_eq, bool_decide_eq_false_2 by done.
  rewrite lookup_insert_eq. by rewrite is_valid_init.
Qed.

(** Witness of X11: ticket 7 in the empty registry, asked for after an
    hour. *)
Lemma by_ticket_after_create_witness :
  ("s1"%string ≠ EmptyString ∧ Sample.hour ≤ 0 + two_hours)
  ∧ get_session_by_ticket Sample.one_session 7 Sample.hour
    = Some Sample.first_session.
Proof.
  assert (N : uuid4 Sample.fresh1 ≠ EmptyString) by discriminate.
  assert (B : Sample.hour ≤ 0 + two_hours) by (vm_compute; discriminate).
  split; [by split|].
  exact (by_ticket_after_create SessionManager.init 7 "alice" "bob"
           Sample.fresh1 0 Sample.hour N B).
Defined.

(** ** What holds of every stored session *)

Lemma coherent_init (f : Fresh) (ticket : Z) (user staff : string) (now : Z) :
  coherent (RemoteSession.init f ticket user staff now).
Proof. by repeat split. Qed.

Lemma coherent_close (s : RemoteSession.t) : coherent s → coherent (close s).
Proof. intros (E & K & _ & _). by repeat split. Qed.

Lemma live_not_closed (m : SessionManager.t) (id : string) (now : Z)
    (s : RemoteSession.t) :
  get_session m id now = Some s → status s ≠ closed.
Proof.
  intros [_ V]%get_session_Some. unfold is_valid in V.
  apply andb_true_iff in V as [_ V].
  by apply negb_true_iff, bool_decide_eq_false in V.
Qed.

Lemma coherent_store (m : SessionManager.t) (id : string) (s : RemoteSession.t) :
  map_Forall (λ _ s, coherent s) (sessions m) →
  coherent s →
  map_Forall (λ _ s, coherent s) (sessions (store m id s)).
Proof. intros I C. by apply map_Forall_insert_2. Qed.

Lemma coherent_close_session (m : SessionManager.t) (id : string) :
  map_Forall (λ _ s, coherent s) (sessions m) →
  map_Forall (λ _ s, coherent s) (sessions (close_session m id).1).
Proof.
  intros I. unfold close_session.
  destruct (sessions m !! id) as [s|] eqn:E; [|done]. simpl.
  apply map_Forall_insert_2; [|done]. apply coherent_close, (I id s E).
Qed.

Lemma coherent_reap (m : SessionManager.t) (id : string) :
  map_Forall (λ _ s, coherent s) (sessions m) →
  map_Forall (λ _ s, coherent s) (sessions (reap m id)).
Proof.
  intros I. unfold reap; simpl.
  by apply map_Forall_delete, coherent_close_session.
Qed.

Lemma coherent_sweep (l : list string) (m : SessionManager.t) :
  map_Forall (λ _ s, coherent s) (sessions m) →
  map_Forall (λ _ s, coherent s) (sessions (foldl reap m l)).
Proof.
  revert m. induction l as [|i l IH]; intros m I; [done|].
  simpl. by apply IH, coherent_reap.
Qed.

Lemma coherent_call (m : SessionManager.t) (c : Call) (now : Z) :
  map_Forall (λ _ s, coherent s) (sessions m) →
  map_Forall (λ _ s, coherent s) (sessions (call m c now)).
Proof.
  intros I. destruct c; simpl.
  - unfold create_session; simpl.
    apply map_Forall_insert_2; [apply coherent_init|].
    destruct (ticket_sessions m !! ticket); [|done].
    by apply coherent_close_session.
  - unfold authenticate_user.
    destruct (get_session m id now) as [s|] eqn:G; [|done].
    case_bool_decide; [|done]. simpl.
    pose proof (live_not_closed _ _ _ _ G) as C.
    apply get_session_Some in G as [E _].
    destruct (I id s E) as (X & K & HA & HC).
    apply map_Forall_insert_2; [|done].
    split; [done|]. split; [done|]. split; simpl; [|done].
    intros S. by destruct (HA S) as [_ ->].
  - unfold authenticate_it_staff.
    destruct (get_session m id now) as [s|] eqn:G; [|done].
    case_bool_decide; [|done]. simpl.
    pose proof (live_not_closed _ _ _ _ G) as C.
    apply get_session_Some in G as [E _].
    destruct (I id s E) as (X & K & HA & HC).
    apply map_Forall_insert_2; [|done].
    split; [done|]. split; [done|]. split; simpl; [|done].
    intros S. by destruct (HA S) as [-> _].
  - unfold activate_session.
    destruct (get_session m id now) as [s|] eqn:G; [|done].
    destruct (user_connected s && it_connected s) eqn:B; [|done]. simpl.
    apply andb_true_iff in B as [U T].
    apply get_session_Some in G as [E V].
    destruct (I id s E) as (X & K & HA & HC).
    apply map_Forall_insert_2; [|done].
    unfold activate. destruct (is_valid s again); simpl; [by repeat split|].
    exact (I id s E).
  - unfold disconnect_user.
    destruct (get_session m id now) as [s|] eqn:G; [|done].
    pose proof (live_not_closed _ _ _ _ G) as C.
    apply get_session_Some in G as [E _].
    destruct (I id s E) as (X & K & HA & HC).
    apply map_Forall_insert_2; [|done].
    unfold demote; case_bool_decide; simpl in *;
      (split; [done|]; split; [done|]; split; intros S; simpl in S; congruence).
  - unfold disconnect_it_staff.
    destruct (get_session m id now) as [s|] eqn:G; [|done].
    pose proof (live_not_closed _ _ _ _ G) as C.
    apply get_session_Some in G as [E _].
    destruct (I id s E) as (X & K & HA & HC).
    apply map_Forall_insert_2; [|done].
    unfold demote; case_bool_decide; simpl in *;
      (split; [done|]; split; [done|]; split; intros S; simpl in S; congruence).
  - unfold update_session_activity.
    destruct (get_session m id now) as [s|] eqn:G; [|done].
    apply get_session_Some in G as [E _].
    apply map_Forall_insert_2; [|done]. apply (I id s E).
  - by apply coherent_close_session.
  - by apply coherent_sweep.
Qed.

Lemma coherent_run (cs : list (Call * Z)) (m : SessionManager.t) :
  map_Forall (λ _ s, coherent s) (sessions m) →
  map_Forall (λ _ s, coherent s) (sessions (run m cs)).
Proof.
  revert m. induction cs as [|[c now] cs IH]; intros m I; [done|].
  rewrite run_cons. by apply IH, coherent_call.
Qed.

(** X12.  Whatever calls have been made on a registry that started empty,
    every stored session expires two hours after its creation, has no
    connection key, is active only with both parties connected and, once
    closed, has neither party connected. *)
Theorem stored_sessions_are_coherent (cs : list (Call * Z)) (id : string)
    (s : RemoteSession.t) :
  sessions (run SessionManager.init cs) !! id = Some s →
  coherent s.
Proof.
  apply (coherent_run cs SessionManager.init). apply map_Forall_empty.
Qed.

(** Witness of X12: the session of the sample after both parties have
    joined and it has been activated and used. *)
Lemma stored_sessions_are_coherent_witness :
  sessions (run SessionManager.init
              ((CreateSession 7 "alice" "bob" Sample.fresh1, 0) :: Sample.busy))
    !! "s1"
  = Some (set_last_activity Sample.hour
            (set_status active
               (set_it_connected true
                  (set_user_connected true Sample.first_session))))
  ∧ coherent (set_last_activity Sample.hour
                (set_status active
                   (set_it_connected true
                      (set_user_connected true Sample.first_session)))).
Proof.
  assert (E : sessions (run SessionManager.init
                ((CreateSession 7 "alice" "bob" Sample.fresh1, 0) :: Sample.busy))
                !! "s1"
              = Some (set_last_activity Sample.hour
                        (set_status active
                           (set_it_connected true
                              (set_user_connected true Sample.first_session)))))
    by (vm_compute; reflexivity).
  split; [exact E|].
  exact (stored_sessions_are_coherent _ _ _ E).
Defined.

(** ** Authorizing and revoking connections *)

Lemma is_authorized_revoke (h : InputHandler.t) (id : string) :
  is_authorized (revoke_session h id) id = false.
Proof.
  apply is_authorized_false. unfold revoke_session; simpl.
  intros [_ N]%elem_of_difference. apply N. by apply elem_of_singleton.
Qed.

Lemma is_authorized_other (h : InputHandler.t) (id j : string) :
  j ≠ id →
  is_authorized (authorize_session h id) j = is_authorized h j
  ∧ is_authorized (revoke_session h id) j = is_authorized h j.
Proof.
  intros N. unfold is_authorized, authorize_session, revoke_session; simpl.
  split; apply bool_decide_ext.
  - rewrite elem_of_union, elem_of_singleton. tauto.
  - rewrite elem_of_difference, elem_of_singleton. tauto.
Qed.

(** X13.  After [revoke_session] on a connection id each of the six
    handlers answers [False] for it and hands nothing to [pyautogui],
    whether or not the id had been authorized; neither [revoke_session] nor
    [authorize_session] changes what any other id may do, nor the screen
    size the coordinates are scaled to. *)
Theorem revoke_ends_input
    (lower : string → string) (delivers : InputAction → bool) (h : InputHandler.t) (id : string)
    (e : InputEvent) :
  let h' := revoke_session h id in
  (handle_mouse_move delivers h' id (ev_x e) (ev_y e) (ev_width e) (ev_height e)
     = (false, [])
   ∧ handle_mouse_click delivers h' id (ev_x e) (ev_y e) (ev_width e) (ev_height e)
       (ev_button e) (ev_click_type e) = (false, [])
   ∧ handle_mouse_scroll delivers h' id (ev_x e) (ev_y e) (ev_width e) (ev_height e)
       (ev_delta e) = (false, [])
   ∧ handle_key_press lower delivers h' id (ev_key e) (ev_action e) = (false, [])
   ∧ handle_key_combination lower delivers h' id (ev_keys e) = (false, [])
   ∧ handle_text_input delivers h' id (ev_text e) = (false, []))
  ∧ (∀ j, j = id ∨
          (is_authorized h' j = is_authorized h j
           ∧ is_authorized (authorize_session h id) j = is_authorized h j))
  ∧ (screen_width h', screen_height h') = (screen_width h, screen_height h)
  ∧ (screen_width (authorize_session h id), screen_height (authorize_session h id))
    = (screen_width h, screen_height h).
Proof.
  cbv zeta. pose proof (is_authorized_revoke h id) as R. split; [|split; [|done]].
  - unfold handle_mouse_move, handle_mouse_click, handle_mouse_scroll,
      handle_key_press, handle_key_combination, handle_text_input, rejected.
    by rewrite R.
  - intros j. destruct (decide (j = id)) as [->|N]; [by left|right].
    by destruct (is_authorized_other h id j N).
Qed.

(** X14.  The count in the statistics of the input handler is the number
    of distinct authorized connection ids: authorizing adds one exactly when
    the id was not authorized, revoking takes one away exactly when it was;
    and the pointer position in the statistics is [(0, 0)] when
    [pyautogui.position()] raises. *)
Theorem authorized_count_tracks_connections (h : InputHandler.t) (id : string)
    (pointer : result (Z * Z)) (e : exn) :
  authorized_count (InputHandler.get_stats (authorize_session h id) pointer)
    = (if is_authorized h id
       then authorized_count (InputHandler.get_stats h pointer)
       else S (authorized_count (InputHandler.get_stats h pointer)))
  ∧ authorized_count (InputHandler.get_stats (revoke_session h id) pointer)
    = (if is_authorized h id
       then pred (authorized_count (InputHandler.get_stats h pointer))
       else authorized_count (InputHandler.get_stats h pointer))
  ∧ (is_authorized h id = true ∨ authorized_count (InputHandler.get_stats h pointer)
       = authorized_count (InputHandler.get_stats (revoke_session (authorize_session h id) id)
                             pointer))
  ∧ mouse_position (InputHandler.get_stats h (Raise e)) = (0, 0).
Proof.
  unfold InputHandler.get_stats, authorize_session, revoke_session; simpl.
  destruct (is_authorized h id) eqn:A.
  - apply is_authorized_true in A.
    split; [|split; [|split; [by left|done]]].
    + f_equal. by apply subseteq_union_1_L, singleton_subseteq_l.
    + rewrite size_difference by (by apply singleton_subseteq_l).
      rewrite size_singleton. lia.
  - apply is_authorized_false in A.
    assert (D : authorized_sessions h ∖ {[id]} = authorized_sessions h)
      by (by apply difference_disjoint_L, disjoint_singleton_r).
    split; [|split; [|split; [right|done]]].
    + rewrite size_union by (by apply disjoint_singleton_l).
      by rewrite size_singleton.
    + by rewrite D.
    + by rewrite difference_union_distr_l_L, difference_diag_L,
        (left_id_L ∅ (∪)), D.
Qed.

(** ** Kinds of click and key action the handlers do not know *)

(** X15.  An authorized [handle_key_press] whose action is none of
    ['press'], ['down'], ['up'], and an authorized [handle_mouse_click]
    whose click type is none of ['single'], ['double'], ['down'], ['up'] and
    whose coordinates can be scaled, answer [True] although nothing is
    handed to [pyautogui], whatever the operating system would take. *)
Theorem unknown_kind_reports_success
    (lower : string → string) (delivers : InputAction → bool)
    (h : InputHandler.t) (id : string)
    (x y sw sh ax ay : Z) (button click_type key action : string) :
  id ∈ authorized_sessions h →
  action ∉ ["press"; "down"; "up"]%string →
  click_type ∉ ["single"; "double"; "down"; "up"]%string →
  scale x sw (screen_width h) = Ok ax →
  scale y sh (screen_height h) = Ok ay →
  handle_key_press lower delivers h id key action = (true, [])
  ∧ handle_mouse_click delivers h id x y sw sh button click_type = (true, []).
Proof.
  intros A KA KC SX SY. apply is_authorized_true in A.
  unfold handle_key_press, handle_mouse_click, key_press_body, mouse_click_body.
  rewrite A, SX, SY. simpl.
  rewrite !bool_decide_eq_false_2; [done|..];
    intros ->;
    solve [apply KA; repeat constructor | apply KC; repeat constructor].
Qed.

(** Witness of X15: a key action ['single'], which is a kind of click, and
    a click type ['press'], which is a key action, on the sample screen. *)
Lemma unknown_kind_reports_success_witness :
  handle_key_press Sample.lower Sample.always Sample.desk "c1" "Enter" "single"
    = (true, [])
  ∧ handle_mouse_click Sample.always Sample.desk "c1" 480 270 960 540
      "left" "press" = (true, []).
Proof.
  apply (unknown_kind_reports_success Sample.lower Sample.always Sample.desk "c1"
           480 270 960 540 960 540 "left" "press" "Enter" "single").
  - apply is_authorized_true. vm_compute. reflexivity.
  - intros M. repeat (apply elem_of_cons in M as [M|M]; [discriminate M|]).
    by apply elem_of_nil in M.
  - intros M. repeat (apply elem_of_cons in M as [M|M]; [discriminate M|]).
    by apply elem_of_nil in M.
  - vm_compute. reflexivity.
  - vm_compute. reflexivity.
Defined.

(** ** Key names *)

Lemma ascii_lower_idemp (c : ascii) : ascii_lower (ascii_lower c) = ascii_lower c.
Proof. destruct c as [[] [] [] [] [] [] [] []]; reflexivity. Qed.

Lemma lower_ascii_idemp (s : string) : lower_ascii (lower_ascii s) = lower_ascii s.
Proof.
  induction s as [|c s IH]; [done|].
  simpl. by rewrite ascii_lower_idemp, IH.
Qed.

Lemma ascii_lower_no_upper (c : ascii) :
  negb (Nat.leb 65 (nat_of_ascii (ascii_lower c))
        && Nat.leb (nat_of_ascii (ascii_lower c)) 90) = true.
Proof. destruct c as [[] [] [] [] [] [] [] []]; reflexivity. Qed.

Lemma ascii_lower_is_ascii (c : ascii) :
  Nat.ltb (nat_of_ascii c) 128 = true →
  Nat.ltb (nat_of_ascii (ascii_lower c)) 128 = true.
Proof. destruct c as [[] [] [] [] [] [] [] []]; intros H; try done; reflexivity. Qed.

Lemma no_upper_lower_ascii (s : string) : no_upper (lower_ascii s) = true.
Proof.
  induction s as [|c s IH]; [done|].
  change (negb (Nat.leb 65 (nat_of_ascii (ascii_lower c))
                && Nat.leb (nat_of_ascii (ascii_lower c)) 90)
          && no_upper (lower_ascii s) = true).
  by rewrite ascii_lower_no_upper, IH.
Qed.

Lemma is_ascii_lower_ascii (s : string) :
  is_ascii s = true → is_ascii (lower_ascii s) = true.
Proof.
  induction s as [|c s IH]; [done|].
  change (Nat.ltb (nat_of_ascii c) 128 && is_ascii s = true →
          Nat.ltb (nat_of_ascii (ascii_lower c)) 128
          && is_ascii (lower_ascii s) = true).
  intros [Hc Hs]%andb_true_iff.
  by rewrite (ascii_lower_is_ascii c Hc), (IH Hs).
Qed.

Lemma assoc_elem_of (k v : string) (l : list (string * string)) :
  assoc k l = Some v → (k, v) ∈ l.
Proof.
  induction l as [|[k' v'] l IH]; [done|]. simpl.
  case_bool_decide as E.
  - intros [= ->]. subst. by left.
  - intros A. right. by apply IH.
Qed.

(** The names of the table: every key has an upper-case letter, every value
    is ASCII text without one. *)
Lemma key_mapping_names :
  Forall (λ kv, lower_ascii kv.1 ≠ kv.1
                ∧ no_upper kv.2 = true ∧ is_ascii kv.2 = true) key_mapping.
Proof.
  unfold key_mapping.
  repeat constructor; simpl; first [discriminate | reflexivity].
Qed.

Lemma convert_key_cases (lower : string → string) (key : string) :
  convert_key lower key ∈ ["ctrl"; "alt"; "shift"; "win"]%string
  ∨ (convert_key lower key = lower key
     ∧ lower key ∉ ["ctrl"; "alt"; "shift"; "win"; "cmd"]%string).
Proof.
  unfold convert_key.
  case_bool_decide as E1; [left; repeat constructor|].
  case_bool_decide as E2; [left; repeat constructor|].
  case_bool_decide as E3; [left; repeat constructor|].
  case_bool_decide as E4; [left; repeat constructor|].
  case_bool_decide as E5; [left; repeat constructor|].
  right. simpl. split; [done|]. intros M.
  repeat (apply elem_of_cons in M as [M|M]; [done|]).
  by apply elem_of_nil in M.
Qed.

(** X16.  Key names of ASCII text, with [str.lower] doing on ASCII text
    what the Unicode tables fix there.  The key chosen by [handle_key_press]
    and each key converted by [handle_key_combination] hold none of the
    letters [A] to [Z].  The table of special keys is matched on the exact
    spelling only: ['Escape'] is pressed as ['esc'], but ['escape'] and
    ['ESCAPE'] as ['escape'], and in general a name given in lower case is
    passed on unchanged.  The conversion of a combination ignores case
    (['CMD'] and ['Win'] both give ['win']), and converting twice changes
    nothing. *)
Theorem key_names_are_lower_case (lower : string → string) (key : string) :
  lowers_ascii lower →
  is_ascii key = true →
  no_upper (actual_key lower key) = true
  ∧ actual_key lower (lower key) = lower key
  ∧ no_upper (convert_key lower key) = true
  ∧ convert_key lower (lower key) = convert_key lower key
  ∧ convert_key lower (convert_key lower key) = convert_key lower key
  ∧ (actual_key lower "Escape", actual_key lower "escape", actual_key lower "ESCAPE")
    = ("esc", "escape", "escape")%string
  ∧ (convert_key lower "CMD", convert_key lower "Win", convert_key lower "Ctrl",
     convert_key lower "C")
    = ("win", "win", "ctrl", "c")%string.
Proof.
  intros L A.
  pose proof key_mapping_names as F. rewrite Forall_forall in F.
  assert (Lk : lower key = lower_ascii key) by (by apply L).
  assert (Ll : lower (lower key) = lower key).
  { rewrite Lk, (L _ (is_ascii_lower_ascii key A)). apply lower_ascii_idemp. }
  assert (Nl : no_upper (lower key) = true).
  { rewrite Lk. apply no_upper_lower_ascii. }
  split; [|split; [|split; [|split; [|split; [|split]]]]].
  - unfold actual_key. destruct (assoc key key_mapping) as [v|] eqn:E; simpl.
    + apply assoc_elem_of in E. by destruct (F _ E) as (_ & N & _).
    + exact Nl.
  - unfold actual_key.
    destruct (assoc (lower key) key_mapping) as [v|] eqn:E; [|exact Ll].
    apply assoc_elem_of in E. destruct (F _ E) as (N & _). simpl in N.
    rewrite Lk, lower_ascii_idemp in N. done.
  - destruct (convert_key_cases lower key) as [M|[-> _]]; [|exact Nl].
    repeat (apply elem_of_cons in M as [->|M]); [done..|].
    by apply elem_of_nil in M.
  - unfold convert_key. by rewrite Ll.
  - destruct (convert_key_cases lower key) as [M|[E N]].
    + assert (C : ∀ k, is_ascii k = true →
                       convert_key lower k = convert_key lower_ascii k).
      { intros k Ak. unfold convert_key. by rewrite (L k Ak). }
      repeat (apply elem_of_cons in M as [->|M]);
        [by rewrite C..|by apply elem_of_nil in M].
    + rewrite E. unfold convert_key. rewrite Ll.
      rewrite !bool_decide_eq_false_2; [done|..];
        intros X; apply N; rewrite X; repeat constructor.
  - unfold actual_key. simpl. by rewrite !L.
  - unfold convert_key. by rewrite !L.
Qed.

(** Witness of X16: the key ['Escape'], lower-cased as ASCII text. *)
Lemma key_names_are_lower_case_witness :
  (lowers_ascii Sample.lower ∧ is_ascii "Escape" = true)
  ∧ no_upper (actual_key Sample.lower "Escape") = true
  ∧ actual_key Sample.lower (Sample.lower "Escape") = Sample.lower "Escape".
Proof.
  assert (L : lowers_ascii Sample.lower) by (intros s _; reflexivity).
  assert (A : is_ascii "Escape" = true) by reflexivity.
  split; [by split|].
  pose proof (key_names_are_lower_case Sample.lower "Escape" L A)
    as (H1 & H2 & _).
  by split.
Defined.

(** ** The turns of the capture loop *)

Lemma last_captured_from (os : list Cycle) (acc : option Frame) :
  foldl (λ acc o, match capture o with Ok fr => Some fr | Raise _ => acc end) acc os
  = match last_captured os with Some fr => Some fr | None => acc end.
Proof.
  unfold last_captured. revert acc.
  induction os as [|o os IH] using rev_ind; intros acc; [done|].
  rewrite !foldl_app. simpl. destruct (capture o); [done|]. apply IH.
Qed.

Lemma last_captured_cons (o : Cycle) (os : list Cycle) :
  last_captured (o :: os)
  = match last_captured os with
    | Some fr => Some fr
    | None => match capture o with Ok fr => Some fr | Raise _ => None end
    end.
Proof. unfold last_captured at 1. simpl. apply last_captured_from. Qed.

Lemma turns_state (c : ScreenCapture.t) (os : list Cycle) :
  running c = true →
  (turns c os).1
  = set_frame_data
      (match last_captured os with Some fr => Some fr | None => frame_data c end) c
  ∧ length (turns c os).2 = failures os.
Proof.
  revert c. induction os as [|o os IH]; intros c R.
  - split; [by destruct c|done].
  - simpl. rewrite R. unfold capture_cycle, failures. rewrite filter_cons.
    assert (Fo : failed o = match capture o with Ok _ => false | Raise _ => true end)
      by done.
    rewrite last_captured_cons.
    destruct (capture o) as [fr|e] eqn:C.
    + destruct (IH (set_frame_data (Some fr) c) R) as [I1 I2].
      destruct (turns (set_frame_data (Some fr) c) os) as [c2 l2]. simpl in *.
      split; [|by rewrite decide_False by (by rewrite Fo)].
      rewrite I1. by destruct (last_captured os).
    + destruct (IH c R) as [I1 I2].
      destruct (turns c os) as [c2 l2]. simpl in *.
      split; [rewrite I1; by destruct (last_captured os)|].
      rewrite decide_True by done. simpl. by rewrite I2.
Qed.

(** X17.  While [running] is set, a series of turns of the loop leaves in
    [frame_data] the frame of the last turn whose capture went through, or
    the frame that was there when none did; it writes one log record for
    each turn that raised, and touches no other attribute. *)
Theorem turns_keep_the_latest_capture (c : ScreenCapture.t) (os : list Cycle) :
  running c = true →
  (turns c os).1
  = set_frame_data
      (match last_captured os with Some fr => Some fr | None => frame_data c end) c
  ∧ frame_data (turns c os).1
    = (match last_captured os with Some fr => Some fr | None => frame_data c end)
  ∧ running (turns c os).1 = true
  ∧ clients (turns c os).1 = clients c
  ∧ (fps (turns c os).1, quality (turns c os).1, capture_thread (turns c os).1)
    = (fps c, quality c, capture_thread c)
  ∧ length (turns c os).2 = failures os.
Proof.
  intros R. destruct (turns_state c os R) as [S L].
  split; [exact S|]. rewrite S. simpl. by rewrite R.
Qed.

(** Witness of X17: a failed turn, a good turn and a failed turn again, with
    one reader. *)
Lemma turns_keep_the_latest_capture_witness :
  running Sample.watching = true
  ∧ (turns Sample.watching [Sample.bad_turn; Sample.good_turn; Sample.bad_turn]).1
    = set_frame_data (Some Sample.good_frame) Sample.watching
  ∧ length (turns Sample.watching
              [Sample.bad_turn; Sample.good_turn; Sample.bad_turn]).2 = 2%nat.
Proof.
  assert (R : running Sample.watching = true) by reflexivity.
  split; [exact R|].
  pose proof (turns_keep_the_latest_capture Sample.watching
                [Sample.bad_turn; Sample.good_turn; Sample.bad_turn] R)
    as (H1 & _ & _ & _ & _ & H2).
  split; [|exact H2].
  rewrite H1. f_equal.
Defined.

(** ** A frame rate of zero *)

Lemma frame_data_step (c : ScreenCapture.t) (e : Event) :
  completed e = false → frame_data (step c e) = frame_data c.
Proof.
  destruct e as [id|id|o]; simpl; intros N.
  - apply frame_data_add_client.
  - apply frame_data_remove_client.
  - destruct (loop_alive c); [|done].
    unfold capture_cycle. by destruct (capture o).
Qed.

Lemma frame_data_kept (es : list Event) (c : ScreenCapture.t) :
  Forall (λ e, completed e = false) es →
  frame_data (play c es) = frame_data c.
Proof.
  revert c. induction es as [|e es IH]; intros c F; [done|].
  apply Forall_cons in F as [Fe F].
  change (play c (e :: es)) with (play (step c e) es).
  by rewrite IH, frame_data_step.
Qed.

Lemma frame_data_stays (es : list Event) (c : ScreenCapture.t) :
  is_Some (frame_data c) → is_Some (frame_data (play c es)).
Proof.
  revert c. induction es as [|e es IH]; intros c S; [done|].
  change (play c (e :: es)) with (play (step c e) es). apply IH.
  destruct e as [id|id|o]; simpl.
  - by rewrite frame_data_add_client.
  - by rewrite frame_data_remove_client.
  - destruct (loop_alive c); [|done].
    unfold capture_cycle. by destruct (capture o).
Qed.

(** X18.  With [fps = 0] the loop raises [ZeroDivisionError] on its first
    line, outside the [try], so the thread of [start_capture] takes no turn:
    [add_client] still sets [running], and whatever readers come and go and
    whatever the screen would give, [get_frame] keeps answering what it
    answered before. *)
Theorem zero_fps_never_captures (c : ScreenCapture.t) (os : list Cycle)
    (es : list Event) (id : string) :
  fps c = 0 →
  _capture_loop c os = Raise ZeroDivisionError
  ∧ running (add_client c id) = true
  ∧ loop_alive (add_client c id) = false
  ∧ get_frame (play c es) = get_frame c.
Proof.
  intros Z0.
  assert (L : ∀ c', fps c' = 0 → loop_alive c' = false).
  { intros c' Z'. unfold loop_alive, frame_time. rewrite Z'.
    apply andb_false_r. }
  split; [unfold _capture_loop, frame_time; by rewrite Z0|].
  split; [apply running_add_client|].
  split; [apply L; exact (eq_trans (fps_step c (AddClient id)) Z0)|].
  unfold get_frame. revert c Z0.
  induction es as [|e es IH]; intros c Z0; [done|].
  change (play c (e :: es)) with (play (step c e) es).
  rewrite IH by (by rewrite fps_step).
  destruct e as [i|i|o]; simpl.
  - apply frame_data_add_client.
  - apply frame_data_remove_client.
  - by rewrite (L c Z0).
Qed.

(** Witness of X18: a service made with [fps = 0], a reader and a turn the
    screen would have answered. *)
Lemma zero_fps_never_captures_witness :
  fps (ScreenCapture.init 70 0) = 0
  ∧ get_frame (play (ScreenCapture.init 70 0)
                 [AddClient "c1"; Turn Sample.good_turn]) = None.
Proof.
  assert (Z0 : fps (ScreenCapture.init 70 0) = 0) by reflexivity.
  split; [exact Z0|].
  exact (proj2 (proj2 (proj2
           (zero_fps_never_captures (ScreenCapture.init 70 0) []
              [AddClient "c1"; Turn Sample.good_turn] "c1" Z0)))).
Defined.

(** ** The stored frame *)

(** X19.  A stored frame is never taken away: once [get_frame] gives a
    frame it gives one after any readers have come and gone and any turns
    have been taken, and it gives the very same frame as long as no capture
    has gone through, also when the last reader has left and the loop has
    been stopped and started again. *)
Theorem frame_outlives_readers (c : ScreenCapture.t) (es : list Event)
    (fr : Frame) :
  get_frame c = Some fr →
  is_Some (get_frame (play c es))
  ∧ (Forall (λ e, completed e = false) es → get_frame (play c es) = Some fr).
Proof.
  unfold get_frame. intros G. split.
  - apply frame_data_stays. by rewrite G.
  - intros F. by rewrite frame_data_kept.
Qed.

(** Witness of X19: after a good turn the only reader leaves, another one
    arrives and the next capture fails. *)
Lemma frame_outlives_readers_witness :
  get_frame (play Sample.watching [Turn Sample.good_turn]) = Some Sample.good_frame
  ∧ get_frame (play (play Sample.watching [Turn Sample.good_turn])
                 [RemoveClient "c1"; AddClient "c2"; Turn Sample.bad_turn])
    = Some Sample.good_frame.
Proof.
  assert (G : get_frame (play Sample.watching [Turn Sample.good_turn])
              = Some Sample.good_frame) by (vm_compute; reflexivity).
  split; [exact G|].
  apply (frame_outlives_readers _ _ _ G).
  repeat constructor.
Defined.

Lemma resized_width_checked :
  forallb resized_width_ok (seqZ 1921 (widest - 1920)) = true.
Proof. vm_compute. reflexivity. Qed.

Lemma target_size_width (w h nw nh : Z) :
  1920 < w ≤ widest →
  target_size w h = Ok (nw, nh) →
  1919 ≤ nw ≤ 1920.
Proof.
  intros B T.
  pose proof resized_width_checked as F. rewrite forallb_forall in F.
  assert (K : resized_width_ok w = true).
  { apply F, list_elem_of_In, elem_of_seqZ. lia. }
  unfold resized_width_ok in K.
  destruct (target_size w 1) as [[nw1 nh1]|] eqn:T1; [|done].
  assert (nw1 = nw) as ->.
  { unfold target_size in T, T1.
    assert (W : (1920 <? w) = true) by (apply Z.ltb_lt; lia).
    rewrite W in T, T1.
    destruct (int_truediv 1920 w) as [sc|]; [|done].
    unfold mbind, result_bind in T, T1.
    destruct (float_mul_int sc w) as [pw|]; [|done].
    destruct (int_of_float pw) as [n|]; [|done].
    destruct (float_mul_int sc h) as [ph|]; [|done].
    destruct (int_of_float ph); [|done].
    destruct (float_mul_int sc 1) as [p1|]; [|done].
    destruct (int_of_float p1); [|done].
    congruence. }
  apply andb_true_iff in K as [K1 K2]. lia.
Qed.

(** X20.  The width of a stored frame.  A grabbed screen at most 1920 wide
    is stored with its own size.  A wider one (checked up to a width of
    4096) is stored 1919 or 1920 wide: the product [width * (1920 / width)]
    is cut by [int], so the frame is never wider than 1920 but can be one
    column narrower. *)
Theorem stored_frame_width (o : Cycle) (w h : Z) (fr : Frame) :
  grabbed o = Ok (w, h) →
  w ≤ widest →
  capture o = Ok fr →
  (w ≤ 1920 → ScreenCapture.width fr = w ∧ ScreenCapture.height fr = h)
  ∧ (1920 < w → 1919 ≤ ScreenCapture.width fr ≤ 1920).
Proof.
  intros G B C. unfold capture in C. rewrite G in C. simpl in C.
  destruct (target_size w h) as [[fw fh]|] eqn:T; [|done]. simpl in C.
  destruct (encoded o) as [img|]; [|done]. simpl in C.
  injection C as <-. simpl. split.
  - intros S. unfold target_size in T.
    assert (W : (1920 <? w) = false) by (apply Z.ltb_ge; lia).
    rewrite W in T. by injection T as <- <-.
  - intros L. apply (target_size_width w h fw fh); [lia|done].
Qed.

(** Witness of X20: the 2148 x 1208 screen of the sample is stored 1919
    wide. *)
Lemma stored_frame_width_witness :
  (grabbed Sample.odd_turn = Ok (2148, 1208) ∧ 2148 ≤ widest)
  ∧ capture Sample.odd_turn
    = Ok {| image := "CCCC"; ScreenCapture.width := 1919;
            ScreenCapture.height := 1079; timestamp := S754_zero false |}
  ∧ 1919 ≤ 1919 ≤ 1920.
Proof.
  assert (G : grabbed Sample.odd_turn = Ok (2148, 1208)) by reflexivity.
  assert (B : 2148 ≤ widest) by (vm_compute; discriminate).
  assert (C : capture Sample.odd_turn
              = Ok {| image := "CCCC"; ScreenCapture.width := 1919;
                      ScreenCapture.height := 1079; timestamp := S754_zero false |})
    by (vm_compute; reflexivity).
  split; [by split|]. split; [exact C|].
  apply (proj2 (stored_frame_width Sample.odd_turn 2148 1208 _ G B C)).
  lia.
Defined.

(** X21.  The statistics of the capture service count distinct readers:
    [add_client] adds one exactly when the id was not a reader and always
    leaves the service running; [remove_client] takes one away exactly when
    it was; frame rate and quality are never changed by either. *)
Theorem capture_stats_count_readers (c : ScreenCapture.t) (id : string) :
  stat_clients (ScreenCapture.get_stats (add_client c id))
    = (if bool_decide (id ∈ clients c)
       then stat_clients (ScreenCapture.get_stats c) else S (stat_clients (ScreenCapture.get_stats c)))
  ∧ stat_running (ScreenCapture.get_stats (add_client c id)) = true
  ∧ stat_clients (ScreenCapture.get_stats (remove_client c id))
    = (if bool_decide (id ∈ clients c)
       then pred (stat_clients (ScreenCapture.get_stats c)) else stat_clients (ScreenCapture.get_stats c))
  ∧ (stat_fps (ScreenCapture.get_stats (add_client c id)), stat_quality (ScreenCapture.get_stats (add_client c id)))
    = (stat_fps (ScreenCapture.get_stats c), stat_quality (ScreenCapture.get_stats c))
  ∧ (stat_fps (ScreenCapture.get_stats (remove_client c id)),
     stat_quality (ScreenCapture.get_stats (remove_client c id)))
    = (stat_fps (ScreenCapture.get_stats c), stat_quality (ScreenCapture.get_stats c)).
Proof.
  unfold ScreenCapture.get_stats; simpl.
  rewrite running_add_client, clients_add_client, clients_remove_client.
  split; [|split; [done|split; [|split]]].
  - case_bool_decide as A.
    + f_equal. by apply subseteq_union_1_L, singleton_subseteq_l.
    + rewrite size_union by (by apply disjoint_singleton_l).
      by rewrite size_singleton.
  - case_bool_decide as A.
    + rewrite size_difference by (by apply singleton_subseteq_l).
      rewrite size_singleton. lia.
    + f_equal. by apply difference_disjoint_L, disjoint_singleton_r.
  - unfold add_client, start_capture; simpl.
    destruct (running c) eqn:R; simpl; rewrite ?R; done.
  - unfold remove_client, stop_capture; simpl.
    by destruct (bool_decide _ && running c).
Qed.

(** ** The application: connections, readers and the registry *)

Lemma serve_inputs_capture (lower : string → string) (delivers : InputAction → bool) (srv : Server.t)
    (r : Server.Request) (now : Z) :
  authorized_sessions (Server.inputs srv) = clients (Server.capture srv) →
  authorized_sessions (Server.inputs (Server.serve lower delivers srv r now))
  = clients (Server.capture (Server.serve lower delivers srv r now)).
Proof.
  intros I.
  destruct r as
    [sid sn token type again|sid|sid|sid sn x y sw sh|sid sn x y sw sh button kind|
     sid sn x y sw sh delta|sid sn key action|sid sn keys|sid sn text|l tid fresh|
     l sn|sn token again|l sn token again| |o];
    simpl; try done.
  - unfold Server.handle_join_session.
    destruct (get_session _ _ _); [|done].
    case_bool_decide.
    { destruct (authenticate_user _ _ _ _) as [m1 []]; done. }
    case_bool_decide; [|done].
    destruct (authenticate_it_staff _ _ _ _) as [m1 []]; [|done].
    simpl. by rewrite clients_add_client, I.
  - by rewrite clients_remove_client, I.
  - unfold Server.handle_mouse_move, Server.after_input. by destruct (_.1).
  - unfold Server.handle_mouse_click, Server.after_input. by destruct (_.1).
  - unfold Server.handle_mouse_scroll, Server.after_input. by destruct (_.1).
  - unfold Server.handle_key_press, Server.after_input. by destruct (_.1).
  - unfold Server.handle_key_combination, Server.after_input. by destruct (_.1).
  - unfold Server.handle_text_input, Server.after_input. by destruct (_.1).
  - unfold Server.start_remote_session, Server.login_required.
    destruct l; try done.
    destruct (Server.tickets srv !! _) as [tk|]; [|done].
    by destruct (negb _).
  - unfold Server.remote_session_setup, Server.login_required.
    destruct l; try done. by destruct (get_session _ _ _).
  - unfold Server.remote_client.
    destruct (get_session _ _ _); [|done].
    destruct (authenticate_user _ _ _ _) as [m1 []]; done.
  - unfold Server.remote_viewer, Server.login_required.
    destruct l; try done.
    destruct (get_session _ _ _); [|done].
    destruct (authenticate_it_staff _ _ _ _) as [m1 []]; done.
  - destruct (loop_alive _); [|done].
    unfold capture_cycle. by destruct (capture o).
Qed.

Lemma serve_all_snoc (lower : string → string) (delivers : InputAction → bool) (srv : Server.t)
    (rs : list (Server.Request * Z)) (r : Server.Request) (now : Z) :
  Server.serve_all lower delivers srv (rs ++ [(r, now)])
  = Server.serve lower delivers (Server.serve_all lower delivers srv rs) r now.
Proof. unfold Server.serve_all. by rewrite foldl_app. Qed.

Lemma serve_capture (lower : string → string) (delivers : InputAction → bool) (srv : Server.t)
    (r : Server.Request) (now : Z) :
  Server.capture (Server.serve lower delivers srv r now) = Server.capture srv
  ∨ ∃ e, Server.capture (Server.serve lower delivers srv r now)
         = step (Server.capture srv) e.
Proof.
  destruct r as
    [sid sn token type again|sid|sid|sid sn x y sw sh|sid sn x y sw sh button kind|
     sid sn x y sw sh delta|sid sn key action|sid sn keys|sid sn text|l tid fresh|
     l sn|sn token again|l sn token again| |o];
    simpl; try by left.
  - unfold Server.handle_join_session.
    destruct (get_session _ _ _); [|by left].
    case_bool_decide.
    { destruct (authenticate_user _ _ _ _) as [m1 []]; by left. }
    case_bool_decide; [|by left].
    destruct (authenticate_it_staff _ _ _ _) as [m1 []]; [|by left].
    right. by exists (AddClient sid).
  - right. by exists (RemoveClient sid).
  - unfold Server.handle_mouse_move, Server.after_input. destruct (_.1); by left.
  - unfold Server.handle_mouse_click, Server.after_input. destruct (_.1); by left.
  - unfold Server.handle_mouse_scroll, Server.after_input. destruct (_.1); by left.
  - unfold Server.handle_key_press, Server.after_input. destruct (_.1); by left.
  - unfold Server.handle_key_combination, Server.after_input. destruct (_.1); by left.
  - unfold Server.handle_text_input, Server.after_input. destruct (_.1); by left.
  - unfold Server.start_remote_session, Server.login_required.
    destruct l; try by left.
    destruct (Server.tickets srv !! _) as [tk|]; [|by left].
    destruct (negb _); by left.
  - unfold Server.remote_session_setup, Server.login_required.
    destruct l; try by left. destruct (get_session _ _ _); by left.
  - unfold Server.remote_client.
    destruct (get_session _ _ _); [|by left].
    destruct (authenticate_user _ _ _ _) as [m1 []]; by left.
  - unfold Server.remote_viewer, Server.login_required.
    destruct l; try by left.
    destruct (get_session _ _ _); [|by left].
    destruct (authenticate_it_staff _ _ _ _) as [m1 []]; by left.
  - right. by exists (Turn o).
Qed.

Lemma serve_screen (lower : string → string) (delivers : InputAction → bool) (srv : Server.t)
    (r : Server.Request) (now : Z) :
  screen_width (Server.inputs (Server.serve lower delivers srv r now))
    = screen_width (Server.inputs srv)
  ∧ screen_height (Server.inputs (Server.serve lower delivers srv r now))
    = screen_height (Server.inputs srv).
Proof.
  destruct r as
    [sid sn token type again|sid|sid|sid sn x y sw sh|sid sn x y sw sh button kind|
     sid sn x y sw sh delta|sid sn key action|sid sn keys|sid sn text|l tid fresh|
     l sn|sn token again|l sn token again| |o];
    simpl; try done.
  - unfold Server.handle_join_session.
    destruct (get_session _ _ _); [|done].
    case_bool_decide.
    { destruct (authenticate_user _ _ _ _) as [m1 []]; done. }
    case_bool_decide; [|done].
    destruct (authenticate_it_staff _ _ _ _) as [m1 []]; done.
  - unfold Server.handle_mouse_move, Server.after_input. by destruct (_.1).
  - unfold Server.handle_mouse_click, Server.after_input. by destruct (_.1).
  - unfold Server.handle_mouse_scroll, Server.after_input. by destruct (_.1).
  - unfold Server.handle_key_press, Server.after_input. by destruct (_.1).
  - unfold Server.handle_key_combination, Server.after_input. by destruct (_.1).
  - unfold Server.handle_text_input, Server.after_input. by destruct (_.1).
  - unfold Server.start_remote_session, Server.login_required.
    destruct l; try done.
    destruct (Server.tickets srv !! _) as [tk|]; [|done].
    by destruct (negb _).
  - unfold Server.remote_session_setup, Server.login_required.
    destruct l; try done. by destruct (get_session _ _ _).
  - unfold Server.remote_client.
    destruct (get_session _ _ _); [|done].
    destruct (authenticate_user _ _ _ _) as [m1 []]; done.
  - unfold Server.remote_viewer, Server.login_required.
    destruct l; try done.
    destruct (get_session _ _ _); [|done].
    destruct (authenticate_it_staff _ _ _ _) as [m1 []]; done.
Qed.

(** X22.  Whatever requests the application has served since import, the
    connections authorized for input are exactly the readers of the capture
    service, the capture loop runs exactly when there is such a connection,
    and the screen size the input is scaled to is the one found at
    import. *)
Theorem authorized_are_the_readers (lower : string → string) (delivers : InputAction → bool)
    (table : gmap Z Ticket.t) (w h : Z) (rs : list (Server.Request * Z)) :
  let srv := Server.serve_all lower delivers (Server.init table w h) rs in
  authorized_sessions (Server.inputs srv) = clients (Server.capture srv)
  ∧ (running (Server.capture srv) = true ↔ clients (Server.capture srv) ≠ ∅)
  ∧ (screen_width (Server.inputs srv), screen_height (Server.inputs srv)) = (w, h).
Proof.
  cbv zeta. induction rs as [|[r now] rs IH] using rev_ind.
  - split; [done|]. split; [|done]. simpl. split; [done|]. by intros [].
  - rewrite serve_all_snoc. destruct IH as (I1 & I2 & I3).
    split; [by apply serve_inputs_capture|]. split.
    + destruct (serve_capture lower delivers
                  (Server.serve_all lower delivers (Server.init table w h) rs) r now)
        as [->|[e ->]]; [done|].
      by apply counted_step.
    + destruct (serve_screen lower delivers
                  (Server.serve_all lower delivers (Server.init table w h) rs) r now)
        as [-> ->]. done.
Qed.

(** ** The registry seen from the application *)

Lemma serve_manager (lower : string → string) (delivers : InputAction → bool)
    (srv : Server.t)
    (r : Server.Request) (now : Z) :
  Server.manager (Server.serve lower delivers srv r now) = Server.manager srv
  ∨ ∃ c t, Server.app_call c = true
           ∧ Server.manager (Server.serve lower delivers srv r now)
             = call (Server.manager srv) c t.
Proof.
  destruct r as
    [sid sn token type again|sid|sid|sid sn x y sw sh|sid sn x y sw sh button kind|
     sid sn x y sw sh delta|sid sn key action|sid sn keys|sid sn text|l tid fresh|
     l sn|sn token again|l sn token again| |o];
    simpl; try by left.
  - unfold Server.handle_join_session.
    destruct (get_session _ _ _); [|by left].
    case_bool_decide.
    { right. exists (AuthenticateUser sn token), again. split; [done|]. simpl.
      destruct (authenticate_user _ _ _ _) as [m1 []]; done. }
    case_bool_decide; [|by left].
    right. exists (AuthenticateItStaff sn token), again. split; [done|]. simpl.
    destruct (authenticate_it_staff _ _ _ _) as [m1 []]; done.
  - unfold Server.handle_mouse_move, Server.after_input.
    destruct (_.1); [right|by left].
    by exists (UpdateSessionActivity sn), now.
  - unfold Server.handle_mouse_click, Server.after_input.
    destruct (_.1); [right|by left].
    by exists (UpdateSessionActivity sn), now.
  - unfold Server.handle_mouse_scroll, Server.after_input.
    destruct (_.1); [right|by left].
    by exists (UpdateSessionActivity sn), now.
  - unfold Server.handle_key_press, Server.after_input.
    destruct (_.1); [right|by left].
    by exists (UpdateSessionActivity sn), now.
  - unfold Server.handle_key_combination, Server.after_input.
    destruct (_.1); [right|by left].
    by exists (UpdateSessionActivity sn), now.
  - unfold Server.handle_text_input, Server.after_input.
    destruct (_.1); [right|by left].
    by exists (UpdateSessionActivity sn), now.
  - unfold Server.start_remote_session, Server.login_required.
    destruct l; try by left.
    destruct (Server.tickets srv !! _) as [tk|]; [|by left].
    destruct (negb _); [by left|]. right.
    by exists (CreateSession tid (Ticket.user_name tk) username fresh), now.
  - unfold Server.remote_session_setup, Server.login_required.
    destruct l; try by left. destruct (get_session _ _ _); by left.
  - unfold Server.remote_client.
    destruct (get_session _ _ _); [|by left].
    right. exists (AuthenticateUser sn token), again. split; [done|]. simpl.
    destruct (authenticate_user _ _ _ _) as [m1 []]; done.
  - unfold Server.remote_viewer, Server.login_required.
    destruct l; try by left.
    destruct (get_session _ _ _); [|by left].
    right. exists (AuthenticateItStaff sn token), again. split; [done|]. simpl.
    destruct (authenticate_it_staff _ _ _ _) as [m1 []]; done.
  - right. by exists CleanupExpiredSessions, now.
Qed.

Lemma serve_all_manager (lower : string → string) (delivers : InputAction → bool)
    (table : gmap Z Ticket.t) (w h : Z) (rs : list (Server.Request * Z)) :
  ∃ cs, Server.manager (Server.serve_all lower delivers (Server.init table w h) rs)
        = run SessionManager.init cs
        ∧ Forall (λ cn, Server.app_call cn.1 = true) cs.
Proof.
  induction rs as [|[r now] rs IH] using rev_ind.
  - by exists [].
  - rewrite serve_all_snoc. destruct IH as (cs & E & F).
    destruct (serve_manager lower delivers
                (Server.serve_all lower delivers (Server.init table w h) rs) r now)
      as [->|(c & t & A & ->)].
    + by exists cs.
    + exists (cs ++ [(c, t)]). rewrite run_snoc, E. split; [done|].
      apply Forall_app. split; [done|]. by apply Forall_singleton.
Qed.

Lemma filter_none {A} (P : A → Prop) `{∀ x, Decision (P x)} (l : list A) :
  Forall (λ x, ¬ P x) l → filter P l = [].
Proof.
  induction 1 as [|x l N F IH]; [done|].
  by rewrite filter_cons, decide_False.
Qed.

(** X23.  The registry of the running application is always one reached
    from the empty registry by creations, authentications, refreshes of the
    last activity and sweeps: no route or socket handler calls
    [activate_session], [close_session] or a disconnect of the registry.  So
    no stored session is ever active: [get_active_sessions] is empty and the
    statistics count no active session, whatever has been served. *)
Theorem app_never_activates (lower : string → string)
    (delivers : InputAction → bool)
    (table : gmap Z Ticket.t) (w h : Z) (rs : list (Server.Request * Z)) :
  let m :=
    Server.manager (Server.serve_all lower delivers (Server.init table w h) rs) in
  (∃ cs, m = run SessionManager.init cs
         ∧ Forall (λ cn, Server.app_call cn.1 = true) cs)
  ∧ get_active_sessions m = []
  ∧ active_sessions (get_session_stats m) = 0%nat.
Proof.
  cbv zeta.
  destruct (serve_all_manager lower delivers table w h rs) as (cs & E & F).
  assert (N : Forall (λ s, ¬ status s = active)
                (stored (Server.manager
                   (Server.serve_all lower delivers (Server.init table w h) rs)))).
  { rewrite E. apply Forall_forall. intros s M A.
    unfold stored in M. apply list_elem_of_fmap in M as ([id s'] & -> & M).
    apply elem_of_map_to_list in M. simpl in A.
    destruct (active_has_activation cs id s' M A)
      as (pre & n & ag & post & -> & _).
    apply Forall_app in F as [_ F]. apply Forall_cons in F as [F _]. done. }
  split; [by exists cs|].
  unfold get_session_stats, get_active_sessions; simpl.
  by rewrite (filter_none _ _ N).
Qed.

(** ** Joining a session *)

Lemma set_manager_same (srv : Server.t) :
  Server.set_manager (Server.manager srv) srv = srv.
Proof. by destruct srv. Qed.

Lemma authenticate_user_false (m m1 : SessionManager.t) (id token : string)
    (now : Z) :
  authenticate_user m id token now = (m1, false) → m1 = m.
Proof.
  unfold authenticate_user. destruct (get_session m id now); [|congruence].
  case_bool_decide; congruence.
Qed.

Lemma authenticate_it_staff_false (m m1 : SessionManager.t) (id token : string)
    (now : Z) :
  authenticate_it_staff m id token now = (m1, false) → m1 = m.
Proof.
  unfold authenticate_it_staff. destruct (get_session m id now); [|congruence].
  case_bool_decide; congruence.
Qed.



(** X25.  A join that fails.  Whenever [handle_join_session] answers with
    an error, that error is all it sends and nothing has changed: neither
    the registry, nor the authorized connections, nor the readers of the
    capture service. *)
Theorem failed_join_changes_nothing (srv : Server.t)
    (sid session_id token type : string) (now again : Z) (message : string) :
  Server.EmitError sid message
    ∈ (Server.handle_join_session srv sid session_id token type now again).2 →
  Server.handle_join_session srv sid session_id token type now again
  = (srv, [Server.EmitError sid message]).
Proof.
  unfold Server.handle_join_session.
  destruct (get_session _ _ _) as [s|].
  2:{ simpl. by intros ->%list_elem_of_singleton. }
  case_bool_decide.
  { destruct (authenticate_user _ _ _ _) as [m1 []] eqn:A; simpl.
    - intros M. repeat (apply elem_of_cons in M as [M|M]; [discriminate M|]).
      by apply elem_of_nil in M.
    - apply authenticate_user_false in A as ->. rewrite set_manager_same.
      by intros ->%list_elem_of_singleton. }
  case_bool_decide.
  { destruct (authenticate_it_staff _ _ _ _) as [m1 []] eqn:A; simpl.
    - intros M. repeat (apply elem_of_cons in M as [M|M]; [discriminate M|]).
      by apply elem_of_nil in M.
    - apply authenticate_it_staff_false in A as ->. rewrite set_manager_same.
      by intros ->%list_elem_of_singleton. }
  simpl. by intros ->%list_elem_of_singleton.
Qed.

(** Witness of X25: the user's token presented as IT staff. *)
Lemma failed_join_changes_nothing_witness :
  Server.handle_join_session
    (Server.serve Sample.lower Sample.always Sample.office
       (Server.StartRemoteSession (Server.LoggedIn "bob") 7 Sample.fresh1) 0)
    "c1" "s1" "u1" "it_staff" 5 6
  = (Server.serve Sample.lower Sample.always Sample.office
       (Server.StartRemoteSession (Server.LoggedIn "bob") 7 Sample.fresh1) 0,
     [Server.EmitError "c1" "Authentication failed"]).
Proof.
  apply failed_join_changes_nothing.
  vm_compute. constructor.
Defined.

(** ** Input events *)

Lemma serve_keeps_authorized (lower : string → string) (delivers : InputAction → bool) (srv : Server.t)
    (r : Server.Request) (now : Z) (sid : string) :
  r ≠ Server.Disconnect sid →
  sid ∈ authorized_sessions (Server.inputs srv) →
  sid ∈ authorized_sessions (Server.inputs (Server.serve lower delivers srv r now)).
Proof.
  intros N A.
  destruct r as
    [c sn token type again|c|c|c sn x y sw sh|c sn x y sw sh button kind|
     c sn x y sw sh delta|c sn key action|c sn keys|c sn text|l tid fresh|
     l sn|sn token again|l sn token again| |o];
    simpl; try done.
  - unfold Server.handle_join_session.
    destruct (get_session _ _ _); [|done].
    case_bool_decide.
    { destruct (authenticate_user _ _ _ _) as [m1 []]; done. }
    case_bool_decide; [|done].
    destruct (authenticate_it_staff _ _ _ _) as [m1 []]; [|done].
    simpl. by apply elem_of_union_r.
  - apply elem_of_difference. split; [done|].
    intros ->%elem_of_singleton. done.
  - unfold Server.handle_mouse_move, Server.after_input. by destruct (_.1).
  - unfold Server.handle_mouse_click, Server.after_input. by destruct (_.1).
  - unfold Server.handle_mouse_scroll, Server.after_input. by destruct (_.1).
  - unfold Server.handle_key_press, Server.after_input. by destruct (_.1).
  - unfold Server.handle_key_combination, Server.after_input. by destruct (_.1).
  - unfold Server.handle_text_input, Server.after_input. by destruct (_.1).
  - unfold Server.start_remote_session, Server.login_required.
    destruct l; try done.
    destruct (Server.tickets srv !! _) as [tk|]; [|done].
    by destruct (negb _).
  - unfold Server.remote_session_setup, Server.login_required.
    destruct l; try done. by destruct (get_session _ _ _).
  - unfold Server.remote_client.
    destruct (get_session _ _ _); [|done].
    destruct (authenticate_user _ _ _ _) as [m1 []]; done.
  - unfold Server.remote_viewer, Server.login_required.
    destruct l; try done.
    destruct (get_session _ _ _); [|done].
    destruct (authenticate_it_staff _ _ _ _) as [m1 []]; done.
Qed.

(** X26.  The authorization of a connection ends with the disconnect of
    that connection and with nothing else: not with the expiry, the closing
    by a newer session or the sweep of the session it joined.  Until then
    its text input is handed to [pyautogui], whatever session id the event
    names. *)
Theorem authorization_outlives_session (lower : string → string) (delivers : InputAction → bool)
    (srv : Server.t) (rs : list (Server.Request * Z)) (sid : string) :
  sid ∈ authorized_sessions (Server.inputs srv) →
  Forall (λ rn, rn.1 ≠ Server.Disconnect sid) rs →
  sid ∈ authorized_sessions (Server.inputs (Server.serve_all lower delivers srv rs))
  ∧ ∀ session_id text now,
      delivers (Write text) = true →
      (Server.handle_text_input delivers (Server.serve_all lower delivers srv rs)
         sid session_id text now).2
      = [Server.Dispatch (Write text)].
Proof.
  intros A F.
  assert (A' : sid ∈ authorized_sessions
                 (Server.inputs (Server.serve_all lower delivers srv rs))).
  { induction rs as [|[r now] rs IH] using rev_ind; [done|].
    apply Forall_app in F as [F Fr]. apply Forall_cons in Fr as [Fr _].
    rewrite serve_all_snoc. apply serve_keeps_authorized; [exact Fr|]. by apply IH. }
  split; [done|]. intros sn text now D.
  apply is_authorized_true in A'.
  unfold Server.handle_text_input, Server.after_input,
    InputHandler.handle_text_input, text_input_body, dispatch.
  by rewrite A', D.
Qed.

(** Witness of X26: bob's connection after the sweep has deleted the
    session it joined. *)
Lemma authorization_outlives_session_witness :
  sessions (Server.manager (Server.serve_all Sample.lower Sample.always Sample.office Sample.visit))
    !! "s1" = None
  ∧ (Server.handle_text_input Sample.always
       (Server.serve_all Sample.lower Sample.always Sample.office Sample.visit)
       "c1" "s1" "hello" (3 * Sample.hour + 1)).2
    = [Server.Dispatch (Write "hello")].
Proof.
  split; [vm_compute; reflexivity|].
  assert (A : "c1" ∈ authorized_sessions
                (Server.inputs
                   (Server.serve_all Sample.lower Sample.always Sample.office
                      [(Server.StartRemoteSession (Server.LoggedIn "bob") 7
                          Sample.fresh1, 0);
                       (Server.JoinSession "c1" "s1" "o1" "it_staff" 6, 5)]))).
  { apply is_authorized_true. vm_compute. reflexivity. }
  assert (F : Forall (λ rn : Server.Request * Z, rn.1 ≠ Server.Disconnect "c1")
                [(Server.Sweep, 3 * Sample.hour)]).
  { repeat constructor. discriminate. }
  exact (proj2 (authorization_outlives_session Sample.lower Sample.always _ _ "c1" A F)
           "s1" "hello" (3 * Sample.hour + 1) eq_refl).
Defined.

(** X27.  An input event from a connection that is not authorized changes
    nothing in the application and hands nothing to [pyautogui], for each
    of the six events: the registry is not touched either. *)
Theorem unauthorized_event_changes_nothing (lower : string → string) (delivers : InputAction → bool)
    (srv : Server.t) (sid session_id : string) (e : InputEvent) (now : Z) :
  sid ∉ authorized_sessions (Server.inputs srv) →
  Server.handle_mouse_move delivers srv sid session_id
    (ev_x e) (ev_y e) (ev_width e) (ev_height e) now = (srv, [])
  ∧ Server.handle_mouse_click delivers srv sid session_id
      (ev_x e) (ev_y e) (ev_width e) (ev_height e) (ev_button e) (ev_click_type e)
      now = (srv, [])
  ∧ Server.handle_mouse_scroll delivers srv sid session_id
      (ev_x e) (ev_y e) (ev_width e) (ev_height e) (ev_delta e) now = (srv, [])
  ∧ Server.handle_key_press lower delivers srv sid session_id (ev_key e) (ev_action e) now
    = (srv, [])
  ∧ Server.handle_key_combination lower delivers srv sid session_id (ev_keys e) now
    = (srv, [])
  ∧ Server.handle_text_input delivers srv sid session_id (ev_text e) now = (srv, []).
Proof.
  intros N. apply is_authorized_false in N.
  unfold Server.handle_mouse_move, Server.handle_mouse_click,
    Server.handle_mouse_scroll, Server.handle_key_press,
    Server.handle_key_combination, Server.handle_text_input, Server.after_input,
    InputHandler.handle_mouse_move, InputHandler.handle_mouse_click,
    InputHandler.handle_mouse_scroll, InputHandler.handle_key_press,
    InputHandler.handle_key_combination, InputHandler.handle_text_input, rejected.
  by rewrite N.
Qed.

(** Witness of X27: connection ["c2"], which never joined, after bob's
    visit. *)
Lemma unauthorized_event_changes_nothing_witness :
  ("c2" ∉ authorized_sessions
            (Server.inputs (Server.serve_all Sample.lower Sample.always Sample.office Sample.visit)))
  ∧ Server.handle_text_input Sample.always
      (Server.serve_all Sample.lower Sample.always Sample.office Sample.visit)
      "c2" "s1" "hello" (3 * Sample.hour + 1)
    = (Server.serve_all Sample.lower Sample.always Sample.office Sample.visit, []).
Proof.
  assert (N : "c2" ∉ authorized_sessions
                (Server.inputs
                   (Server.serve_all Sample.lower Sample.always Sample.office Sample.visit))).
  { apply is_authorized_false. vm_compute. reflexivity. }
  split; [exact N|].
  exact (proj2 (proj2 (proj2 (proj2 (proj2
           (unauthorized_event_changes_nothing Sample.lower Sample.always _ "c2" "s1"
              Sample.event (3 * Sample.hour + 1) N)))))).
Defined.



(** ** Leaving *)

Lemma join_manager (srv : Server.t) (sid session_id : string) (now again : Z)
    (s : RemoteSession.t) :
  get_session (Server.manager srv) session_id now = Some s →
  is_valid s again = true →
  Server.manager
    (Server.handle_join_session srv sid session_id (it_token s) "it_staff"
       now again).1
  = store (Server.manager srv) session_id
      (update_activity (set_it_connected true s) again).
Proof.
  intros G V'. pose proof G as [E V]%get_session_Some.
  unfold Server.handle_join_session. rewrite G.
  rewrite (bool_decide_eq_false_2 ("it_staff"%string = "user"%string)) by done.
  rewrite (bool_decide_eq_true_2 ("it_staff"%string = "it_staff"%string)) by done.
  unfold authenticate_it_staff, get_session. rewrite E, V'.
  by rewrite bool_decide_eq_true_2 by done.
Qed.

Lemma join_frame (srv : Server.t) (sid session_id token type : string)
    (now again : Z) :
  frame_data
    (Server.capture
       (Server.handle_join_session srv sid session_id token type now again).1)
  = frame_data (Server.capture srv).
Proof.
  unfold Server.handle_join_session.
  destruct (get_session _ _ _); [|done].
  case_bool_decide.
  { destruct (authenticate_user _ _ _ _) as [m1 []]; done. }
  case_bool_decide; [|done].
  destruct (authenticate_it_staff _ _ _ _) as [m1 []]; [|done].
  simpl. apply frame_data_add_client.
Qed.

(** X29.  When the IT staff connection that joined a session disconnects,
    it is no longer authorized for input and no longer a reader of the
    capture service, but the registry is not told: the session stays as the
    join left it, with the IT staff flagged as connected, and nothing is
    sent to the room.  A request for the screen frame from that connection
    is still answered as before the join: the handler asks for no
    authorization and the stored frame stays. *)
Theorem disconnect_keeps_session_flags (srv : Server.t) (sid session_id : string)
    (now again : Z) (s : RemoteSession.t) :
  get_session (Server.manager srv) session_id now = Some s →
  is_valid s again = true →
  let joined :=
    (Server.handle_join_session srv sid session_id (it_token s) "it_staff"
       now again).1 in
  let gone := Server.handle_disconnect joined sid in
  is_authorized (Server.inputs gone.1) sid = false
  ∧ (sid ∉ clients (Server.capture gone.1))
  ∧ Server.manager gone.1 = Server.manager joined
  ∧ sessions (Server.manager gone.1) !! session_id
    = Some (update_activity (set_it_connected true s) again)
  ∧ it_connected <$> sessions (Server.manager gone.1) !! session_id = Some true
  ∧ gone.2 = []
  ∧ (Server.handle_request_screen_frame gone.1 sid).2
    = (Server.handle_request_screen_frame srv sid).2.
Proof.
  intros G V'. cbv zeta.
  pose proof (join_manager srv sid session_id now again s G V') as M.
  cbv zeta in M. unfold Server.handle_disconnect; simpl.
  split; [apply is_authorized_revoke|].
  split.
  { rewrite clients_remove_client. intros [_ N]%elem_of_difference.
    apply N. by apply elem_of_singleton. }
  split; [done|]. split; [rewrite M; unfold store; simpl; apply lookup_insert_eq|].
  split; [rewrite M; unfold store; simpl; by rewrite lookup_insert_eq|].
  split; [done|].
  unfold Server.handle_request_screen_frame, get_frame; simpl.
  rewrite frame_data_remove_client.
  by rewrite (join_frame srv sid session_id (it_token s) "it_staff" now again).
Qed.

(** Witness of X29: bob joins from ["c1"] and disconnects. *)
Lemma disconnect_keeps_session_flags_witness :
  (get_session
     (Server.manager (Server.serve Sample.lower Sample.always Sample.office
        (Server.StartRemoteSession (Server.LoggedIn "bob") 7 Sample.fresh1) 0))
     "s1" 5 = Some Sample.first_session
   ∧ is_valid Sample.first_session 6 = true)
  ∧ sessions
      (Server.manager
         (Server.handle_disconnect
            (Server.handle_join_session
               (Server.serve Sample.lower Sample.always Sample.office
                  (Server.StartRemoteSession (Server.LoggedIn "bob") 7
                     Sample.fresh1) 0)
               "c1" "s1" "o1" "it_staff" 5 6).1 "c1").1) !! "s1"
    = Some (update_activity (set_it_connected true Sample.first_session) 6).
Proof.
  assert (G : get_session
                (Server.manager (Server.serve Sample.lower Sample.always Sample.office
                   (Server.StartRemoteSession (Server.LoggedIn "bob") 7
                      Sample.fresh1) 0))
                "s1" 5 = Some Sample.first_session) by (vm_compute; reflexivity).
  assert (V : is_valid Sample.first_session 6 = true) by reflexivity.
  split; [by split|].
  exact (proj1 (proj2 (proj2 (proj2
           (disconnect_keeps_session_flags _ "c1" "s1" 5 6 Sample.first_session
              G V))))).
Defined.

(** ** Starting a session for a ticket *)

(** X30.  Starting a session for a ticket whose user asked for remote
    access stores the new session id in the ticket with the status
    ['pending'], makes the session for the ticket's user and the logged-in
    member of staff, and redirects to the setup page; within the two hours
    the setup page is rendered with that session and that ticket for any
    logged-in member of staff, and changes nothing. *)
Theorem started_session_can_be_set_up (srv : Server.t) (staff viewer : string)
    (ticket_id : Z) (ticket : Ticket.t) (fresh : Fresh) (now now' : Z) :
  Server.tickets srv !! ticket_id = Some ticket →
  Ticket.remote_access_requested ticket = true →
  now' ≤ now + two_hours →
  let started :=
    Server.start_remote_session srv (Server.LoggedIn staff) ticket_id now fresh in
  let session :=
    RemoteSession.init fresh ticket_id (Ticket.user_name ticket) staff now in
  let row :=
    Ticket.mk (Ticket.user_name ticket) true (Some (uuid4 fresh)) "pending" in
  started.2
  = Server.Redirect "remote_session_setup"
      [("Remote session started! Share the connection details with the user.",
        "success")]%string
  ∧ Server.tickets started.1 = <[ticket_id := row]> (Server.tickets srv)
  ∧ Server.manager started.1
    = (create_session (Server.manager srv) ticket_id (Ticket.user_name ticket)
         staff now fresh).1
  ∧ Server.remote_session_setup started.1 (Server.LoggedIn viewer) (uuid4 fresh) now'
    = (started.1,
       Server.Render "remote_session_setup.html" None (Some session) (Some row)).
Proof.
  intros T R B. cbv zeta.
  unfold Server.start_remote_session, Server.login_required.
  rewrite T, R. simpl.
  split; [done|]. split; [done|]. split; [done|].
  unfold Server.remote_session_setup, Server.login_required, get_session; simpl.
  rewrite lookup_insert_eq. rewrite is_valid_init by done.
  simpl. by rewrite lookup_insert_eq.
Qed.

(** Witness of X30: bob starts a session for ticket 7; carol opens the
    setup page an hour later. *)
Lemma started_session_can_be_set_up_witness :
  (Server.tickets Sample.office !! 7 = Some (Ticket.mk "alice" true None "none")
   ∧ Sample.hour ≤ 0 + two_hours)
  ∧ Server.remote_session_setup
      (Server.start_remote_session Sample.office (Server.LoggedIn "bob") 7 0
         Sample.fresh1).1
      (Server.LoggedIn "carol") "s1" Sample.hour
    = ((Server.start_remote_session Sample.office (Server.LoggedIn "bob") 7 0
          Sample.fresh1).1,
       Server.Render "remote_session_setup.html" None (Some Sample.first_session)
         (Some (Ticket.mk "alice" true (Some "s1"%string) "pending"))).
Proof.
  assert (T : Server.tickets Sample.office !! 7
              = Some (Ticket.mk "alice" true None "none"))
    by (vm_compute; reflexivity).
  assert (B : Sample.hour ≤ 0 + two_hours) by (vm_compute; discriminate).
  split; [by split|].
  exact (proj2 (proj2 (proj2
           (started_session_can_be_set_up Sample.office "bob" "carol" 7 _
              Sample.fresh1 0 Sample.hour T eq_refl B)))).
Defined.
